(** * libcloudforensics: the Cloud Logging query engine and its CLI glue

  A shallow embedding of
    - [libcloudforensics/providers/gcp/internal/log.py]
      (class [GoogleCloudLog]: [GclApi], [ListProjects], [ExecuteQuery]) and
    - [tools/gcp_cli.py] (function [QueryLogs]),
  followed by the properties of the log-query engine; and, further, of
    - [ListLogs] of [log.py] and of [gcp_cli.py],
    - [libcloudforensics/providers/gcp/internal/monitoring.py]
      (class [GoogleCloudMonitoring]: [GcmApi], [ActiveServices],
      [StorageSize]) with [ListServices] and [GetBucketSize] of
      [gcp_cli.py], and
    - the disk list of [StartAnalysisVm] of [gcp_cli.py].

  Python generators are embedded as _scripts_: the finite sequence of
  observable actions (log lines, API calls, yields) the generator body
  performs, together with the way it ends.  A consumer that calls
  [next] executes the script up to and including the next [yield]. *)

From Stdlib Require Import String Ascii ZArith NArith List Lia QArith.
From stdpp Require Import base list strings gmap pretty sorting.

Open Scope string_scope.
Open Scope nat_scope.
Open Scope list_scope.

(** ** Python values and built-ins used by the two files *)

Module Py.

(** Exceptions that can travel through the modelled code. *)
Inductive exn : Type :=
| ValueError (msg : string)
| NameError (msg : string)
| RuntimeError (msg : string)
| HttpError (msg : string)
| SystemExit (msg : string)
| OverflowError (msg : string).

(** [str(error)] for an exception carrying one message argument. *)
Definition str_exn (e : exn) : string :=
  match e with
  | ValueError m | NameError m | RuntimeError m | HttpError m
  | SystemExit m | OverflowError m => m
  end.

(** JSON-shaped values: log entries are passed through unopened. *)
#[warnings="-register-all"]
Inductive json : Type :=
| JNull
| JBool (b : bool)
| JNum (z : Z)
| JStr (s : string)
| JList (l : list json)
| JDict (kv : list (string * json)).

(** Truthiness of [Optional[str]]: [None] and [''] are falsy. *)
Definition truthy_str (s : option string) : bool :=
  match s with
  | None => false
  | Some EmptyString => false
  | Some _ => true
  end.

(** Truthiness of a list: the empty list is falsy. *)
Definition truthy_list {A} (l : list A) : bool :=
  match l with
  | [] => false
  | _ :: _ => true
  end.

(** [str.format] of an argument under the empty format spec [{}]:
    a string is inserted as it is, [None] prints as ["None"]. *)
Definition format_any (x : option string) : string :=
  match x with
  | Some s => s
  | None => "None"
  end.

(** The one-character string holding a double quote. *)
Definition dquote : string := String "034"%char EmptyString.

(** [range(start, stop, step)] for a positive step: the values
    [start, start+step, ...] below [stop].  [stop] many rounds always
    reach the end, since every round advances by at least one. *)
Fixpoint range_from (fuel x stop step : nat) : list nat :=
  match fuel with
  | 0 => []
  | S fuel' =>
      if x <? stop then x :: range_from fuel' (x + step) stop step else []
  end.

Definition range (start stop step : nat) : list nat :=
  range_from stop start stop step.

(** The slice [l[a:b]] for non-negative bounds; out-of-range bounds are
    clamped, never an error. *)
Definition slice {A} (l : list A) (a b : nat) : list A :=
  take (b - a) (drop a l).

End Py.

Import Py.

(** ** The Cloud Logging interface, [log.py] *)

Module log.

(** A project resource as returned by the Resource Manager: a dict of
    string fields ([projectId], [lifecycleState], ...). *)
Abbreviation Project := (gmap string string).

(** One log entry; no schema is imposed. *)
Abbreviation Entry := json.

(** One page of an [entries.list] response, as far as its array-valued
    members go; the key ["entries"] may be absent. *)
Abbreviation Response := (gmap string (list Entry)).

(** The request body built for one batch. *)
Record Body : Type := mkBody {
  resourceNames : list string;
  filter : string;
  orderBy : string
}.

(** A service handle produced by [common.CreateService]. *)
Inductive Client : Type :=
| Service (name version : string) (key_file : option string).

(** The attributes of a [GoogleCloudLog] object. *)
Record GoogleCloudLog : Type := mkLog {
  project_id : string;
  key_file : option string;
  gcl_api_client : option Client;
  search_all : bool;
  projects : list Project
}.

Definition LOGGING_API_VERSION : string := "v2".

(** [GoogleCloudLog.__init__]. *)
Definition init (project_id : string) (key_file : option string)
    (search_all : bool) : GoogleCloudLog :=
  {| project_id := project_id;
     key_file := key_file;
     gcl_api_client := None;
     search_all := search_all;
     projects := [] |}.

(** What the platform answers.  [GetProjects] is the outcome of
    [common.GetProjects]; [entries_list n body] is the outcome of the
    [n]-th [entries().list] call of the run, page by page: every call
    has a first page, and a page either arrives or fails. *)
Record World : Type := mkWorld {
  GetProjects : exn + list Project;
  entries_list : nat -> Body -> (exn + Response) * list (exn + Response)
}.

(** Observable actions of a run. *)
Inductive Action : Type :=
| ALog (msg : string)
| AGetProjects (version : string) (key_file : option string)
| ACreateService (name version : string) (key_file : option string)
| ARequest (call : nat) (body : Body) (page : nat)
| AOpen (filename : string)
| AJsonDump (filename : string) (value : json)
| AYield (entry : Entry).

(** The state a method runs on: the object and the number of list
    calls issued so far. *)
Record Store : Type := mkStore {
  self : GoogleCloudLog;
  ncalls : nat
}.

(** Code that reads and updates the store, performs actions, and
    returns or raises.  Actions performed and updates made before an
    exception are kept. *)
Definition Gen (A : Type) : Type :=
  Store -> list Action * Store * (exn + A).

Definition gret {A} (x : A) : Gen A := fun st => ([], st, inr x).

Definition gbind {A B} (m : Gen A) (k : A -> Gen B) : Gen B :=
  fun st =>
    match m st with
    | (a1, st1, inl e) => (a1, st1, inl e)
    | (a1, st1, inr x) =>
        match k x st1 with
        | (a2, st2, r) => (a1 ++ a2, st2, r)
        end
    end.

Definition raise {A} (e : exn) : Gen A := fun st => ([], st, inl e).
Definition emit (a : Action) : Gen unit := fun st => ([a], st, inr tt).
Definition get_self : Gen GoogleCloudLog := fun st => ([], st, inr (self st)).

Notation "x <- m ;; k" := (gbind m (fun x => k))
  (at level 100, m at next level, right associativity).
Notation "m ;;; k" := (gbind m (fun _ => k))
  (at level 100, right associativity).

(** [for x in l: body]. *)
Fixpoint for_ {A} (l : list A) (body : A -> Gen unit) : Gen unit :=
  match l with
  | [] => gret tt
  | x :: l' => body x ;;; for_ l' body
  end.

(** [yield entry]. *)
Definition yield (e : Entry) : Gen unit := emit (AYield e).

(** [logger.info(msg)]. *)
Definition logger_info (msg : string) : Gen unit := emit (ALog msg).

(** Modelled from the spec: [common.CreateService] (the Service Client
    Factory) is not part of the sources; it yields a handle to the named
    API at the given version. *)
Definition CreateService (name version : string) (kf : option string)
    : Gen Client :=
  emit (ACreateService name version kf) ;;; gret (Service name version kf).

(** Modelled from the spec: [common.ExecuteRequest] (the Pagination
    Helper, spec 4.3) is not part of the sources; it returns a lazy
    sequence of raw page responses.  The call itself only numbers the
    request; pages are fetched as the sequence is iterated. *)
Definition ExecuteRequest (w : World) (client : Client) (func : string)
    (body : Body) : Gen (nat * list (exn + Response)) :=
  fun st =>
    let n := ncalls st in
    let pages := entries_list w n body in
    ([], {| self := self st; ncalls := S n |},
     inr (n, fst pages :: snd pages)).

(** [for response in responses: body] over the lazy page sequence:
    each round first fetches its page (one request), which may fail. *)
Fixpoint for_pages (call : nat) (b : Body) (page : nat)
    (pages : list (exn + Response)) (body : Response -> Gen unit)
    : Gen unit :=
  match pages with
  | [] => gret tt
  | p :: rest =>
      emit (ARequest call b page) ;;;
      match p with
      | inl e => raise e
      | inr response =>
          body response ;;; for_pages call b (S page) rest body
      end
  end.

(** Attribute assignments [self.gcl_api_client = c], [self.projects = ps]. *)
Definition set_gcl_api_client (c : option Client) (o : GoogleCloudLog)
    : GoogleCloudLog :=
  {| project_id := project_id o; key_file := key_file o;
     gcl_api_client := c; search_all := search_all o;
     projects := projects o |}.

Definition set_projects (ps : list Project) (o : GoogleCloudLog)
    : GoogleCloudLog :=
  {| project_id := project_id o; key_file := key_file o;
     gcl_api_client := gcl_api_client o; search_all := search_all o;
     projects := ps |}.

Definition modify_self (f : GoogleCloudLog -> GoogleCloudLog) : Gen unit :=
  fun st => ([], {| self := f (self st); ncalls := ncalls st |}, inr tt).

(** [GoogleCloudLog.GclApi]: the handle is created on first use, and
    creating it resets [self.projects]. *)
Definition GclApi : Gen Client :=
  o <- get_self ;;
  match gcl_api_client o with
  | Some c => gret c
  | None =>
      c <- CreateService "logging" LOGGING_API_VERSION (key_file o) ;;
      modify_self (set_gcl_api_client (Some c)) ;;;
      modify_self (set_projects []) ;;;
      gret c
  end.

(** [GoogleCloudLog.ListProjects]; [common.GetProjects] is the world's. *)
Definition ListProjects (w : World) : Gen unit :=
  o <- get_self ;;
  emit (AGetProjects LOGGING_API_VERSION (key_file o)) ;;;
  match GetProjects w with
  | inl e => raise e
  | inr ps => modify_self (set_projects ps)
  end.

(** [p.get('lifecycleState') == 'ACTIVE']. *)
Definition is_active (p : Project) : bool :=
  bool_decide (p !! "lifecycleState" = Some "ACTIVE").

(** ['projects/{}'.format(p.get('projectId'))]. *)
Definition project_name (p : Project) : string :=
  "projects/" +:+ format_any (p !! "projectId").

(** The loop of lines 135-140: skip what is not active, append the
    formatted name of the rest. *)
Definition active_names (ps : list Project) : list string :=
  foldl (fun project_ids p =>
           if negb (is_active p) then project_ids
           else project_ids ++ [project_name p]) [] ps.

(** [response.get('entries', [])]. *)
Definition entries_of (response : Response) : list Entry :=
  default [] (response !! "entries").

(** Lines 130-142 of [ExecuteQuery]: the scope identifiers to query. *)
Definition resolve_project_ids (w : World) : Gen (list string) :=
  o <- get_self ;;
  if search_all o then
    (if negb (truthy_list (projects o)) then ListProjects w else gret tt) ;;;
    o <- get_self ;;
    gret (active_names (projects o))
  else
    gret ["projects/" +:+ format_any (Some (project_id o))].

(** Lines 147-159 of [ExecuteQuery]: one round of the loop over [x]. *)
Definition query_batch (w : World) (project_ids : list string)
    (qfilter : string) (x : nat) : Gen unit :=
  let body := {| resourceNames := slice project_ids x (x + 50);
                 filter := qfilter;
                 orderBy := "timestamp desc" |} in
  gcl_instance_client <- GclApi ;;
  responses <- ExecuteRequest w gcl_instance_client "list" body ;;
  for_pages (fst responses) body 0 (snd responses) (fun response =>
    for_ (entries_of response) (fun entry => yield entry)).

(** [GoogleCloudLog.ExecuteQuery], a generator. *)
Definition ExecuteQuery (w : World) (qfilter : string) : Gen unit :=
  project_ids <- resolve_project_ids w ;;
  let total_projects := length project_ids in
  logger_info ("Projects being queried: " +:+ pretty total_projects) ;;;
  for_ (range 0 (length project_ids) 50) (query_batch w project_ids qfilter).

(** *** Consuming a generator *)

(** What a consumer sees after its last call of [next]: a value (the
    generator is suspended at a [yield]), [StopIteration], or the
    exception the body raised. *)
Inductive Status : Type :=
| Suspended
| Returned
| Raised (e : exn).

Definition status_of (r : exn + unit) : Status :=
  match r with
  | inl e => Raised e
  | inr _ => Returned
  end.

(** The part of a script executed by [n] calls of [next]: everything up
    to and including the [n]-th yield, or all of it when it yields fewer
    than [n] times. *)
Fixpoint executed (n : nat) (script : list Action) : list Action :=
  match script with
  | [] => []
  | a :: rest =>
      match n with
      | 0 => []
      | S n' =>
          match a with
          | AYield _ => a :: executed n' rest
          | _ => a :: executed n rest
          end
      end
  end.

(** Projections of a sequence of actions. *)
Definition yields (acts : list Action) : list Entry :=
  omap (fun a => match a with AYield e => Some e | _ => None end) acts.

Definition requests (acts : list Action) : list (nat * Body * nat) :=
  omap (fun a => match a with
                 | ARequest c b j => Some (c, b, j)
                 | _ => None
                 end) acts.

Definition logged (acts : list Action) : list string :=
  omap (fun a => match a with ALog m => Some m | _ => None end) acts.

(** [n] calls of [next] on a generator started on [st]: the entries
    received and what the last call saw.  The call after the last yield
    runs the body to its end and sees how it ends; the generator is then
    finished, and every later call sees [StopIteration]. *)
Definition pull (n : nat) (g : Gen unit) (st : Store) : list Entry * Status :=
  match g st with
  | (script, _, r) =>
      (yields (executed n script),
       if n <=? length (yields script) then Suspended
       else if n =? S (length (yields script)) then status_of r
       else Returned)
  end.

(** *** Vocabulary of the statements *)

Definition script_of {A} (run : list Action * Store * (exn + A))
    : list Action := fst (fst run).

Definition result_of {A} (run : list Action * Store * (exn + A))
    : exn + A := snd run.

(** A store as a caller finds it right after [__init__]. *)
Definition fresh (project_id : string) (key_file : option string)
    (search_all : bool) : Store :=
  {| self := init project_id key_file search_all; ncalls := 0 |}.

(** The batches the loop at line 146 goes through. *)
Definition batches (project_ids : list string) : list (list string) :=
  map (fun x => slice project_ids x (x + 50))
      (range 0 (length project_ids) 50).

(** The request body of a batch. *)
Definition body_of (qfilter : string) (batch : list string) : Body :=
  {| resourceNames := batch; filter := qfilter;
     orderBy := "timestamp desc" |}.

(** All pages of a list call. *)
Definition pages_of (w : World) (call : nat) (b : Body)
    : list (exn + Response) :=
  fst (entries_list w call b) :: snd (entries_list w call b).

(** A fetch is one page request together with what the platform answers:
    call number, body, page number, outcome. *)
Definition Fetch : Type := nat * Body * nat * (exn + Response).

Definition fetch_request (f : Fetch) : nat * Body * nat := fst f.

Definition fetch_entries (f : Fetch) : list Entry :=
  match snd f with
  | inr response => entries_of response
  | inl _ => []
  end.

Definition fetch_ok (f : Fetch) : Prop :=
  match snd f with
  | inr _ => True
  | inl _ => False
  end.

(** The fetches a run would make if none of them failed: batch after
    batch, page after page. *)
Fixpoint page_plan (call : nat) (b : Body) (page : nat)
    (pages : list (exn + Response)) : list Fetch :=
  match pages with
  | [] => []
  | p :: rest => (call, b, page, p) :: page_plan call b (S page) rest
  end.

Fixpoint batch_plan (w : World) (call : nat) (bodies : list Body)
    : list Fetch :=
  match bodies with
  | [] => []
  | b :: bs =>
      page_plan call b 0 (pages_of w call b) ++ batch_plan w (S call) bs
  end.

(** The script of a plan, in the words of the specification: every fetch
    is requested in turn, a page that arrives contributes its entries in
    order, and the first request that fails ends the script with the
    failure it produced. *)
Fixpoint plan_script (plan : list Fetch) : list Action * (exn + unit) :=
  match plan with
  | [] => ([], inr tt)
  | (call, b, page, inl e) :: _ => ([ARequest call b page], inl e)
  | (call, b, page, inr response) :: rest =>
      (ARequest call b page :: map AYield (entries_of response)
         ++ fst (plan_script rest),
       snd (plan_script rest))
  end.

(** The handle is created by the first batch of a fresh object. *)
Definition service_actions (st : Store) : list Action :=
  match gcl_api_client (self st) with
  | Some _ => []
  | None => [ACreateService "logging" LOGGING_API_VERSION (key_file (self st))]
  end.

(** The store after one round of the loop: the handle exists (creating
    it has reset [self.projects]) and one more list call is counted. *)
Definition after_batch (st : Store) : Store :=
  {| self :=
       match gcl_api_client (self st) with
       | Some _ => self st
       | None =>
           set_projects []
             (set_gcl_api_client
                (Some (Service "logging" LOGGING_API_VERSION
                               (key_file (self st)))) (self st))
       end;
     ncalls := S (ncalls st) |}.

(** The actions of [GclApi] in a loop over [xs]: only the first round
    can create the handle. *)
Definition loop_service (st : Store) (xs : list nat) : list Action :=
  match xs with
  | [] => []
  | _ :: _ => service_actions st
  end.

(** The fetches of a run that resolved [ids] on the store [st1]. *)
Definition plan_of (w : World) (q : string) (st : Store)
    (ids : list string) : list Fetch :=
  batch_plan w (ncalls st) (map (body_of q) (batches ids)).

Definition count_message (ids : list string) : string :=
  "Projects being queried: " +:+ pretty (length ids).

(** A request up to its body: call number and page number. *)
Definition request_key (r : nat * Body * nat) : nat * nat :=
  (fst (fst r), snd r).

(** The scopes a run in "all scopes" mode works from: the cached
    [self.projects] when there are any, else what discovery returns. *)
Definition discovered (w : World) (st : Store) : exn + list Project :=
  match projects (self st) with
  | [] => GetProjects w
  | _ :: _ => inr (projects (self st))
  end.

(** The scope identifiers of a run in the words of the specification:
    the single configured scope, or the identifiers of the discovered
    scopes whose lifecycle state is ACTIVE, in discovery order (a scope
    that carries no identifier goes by [None], as Python prints it). *)
Definition spec_scope_ids (w : World) (st : Store) : exn + list string :=
  if search_all (self st) then
    match discovered w st with
    | inl e => inl e
    | inr ps =>
        inr (map (fun p => default "None" (p !! "projectId"))
                 (List.filter
                    (fun p =>
                       bool_decide (p !! "lifecycleState" = Some "ACTIVE"))
                    ps))
    end
  else inr [project_id (self st)].

(** The bodies of the first-page requests among some actions: one per
    batch submitted. *)
Definition batch_requests (acts : list Action) : list Body :=
  omap (fun a => match a with
                 | ARequest _ b 0 => Some b
                 | _ => None
                 end) acts.

(** What a page contributes to the output. *)
Definition page_entries (p : exn + Response) : list Entry :=
  match p with
  | inr response => default [] (response !! "entries")
  | inl _ => []
  end.

Definition page_ok (p : exn + Response) : Prop :=
  match p with
  | inr _ => True
  | inl _ => False
  end.

(** The output in the words of the specification: batch after batch in
    submission order, page after page, each page's entries in order. *)
Definition expected_entries (w : World) (q : string) (call0 : nat)
    (ids : list string) : list Entry :=
  concat (imap (fun i batch =>
                  concat (map page_entries
                              (pages_of w (call0 + i) (body_of q batch))))
               (batches ids)).

End log.

(** ** [datetime.strptime], as far as [QueryLogs] uses it *)

Module strptime.

(** What the version of the interpreter decides: its Unicode database
    (which characters beyond ASCII are decimal digits, with their values,
    and which [repr] prints as they are), and the wording of the
    [ValueError]s of the [date] and [datetime] constructors. *)
Record Interpreter : Type := mkInterpreter {
  decimal : N -> option nat;
  printable : N -> bool;
  year_error : nat -> string;
  day_error : nat -> nat -> nat -> string;
  second_error : nat -> string
}.

(** A character of a Python string: its code point, and the bytes that
    stand for it in the string, which is held in UTF-8. *)
Definition Char : Type := N * list ascii.

Definition byte (c : ascii) : N := N_of_ascii c.

Definition continuation (b : N) : bool := ((128 <=? b) && (b <=? 191))%N.

(** The character at the head of some bytes, and the bytes after it.
    A byte that starts no well-formed UTF-8 sequence stands, alone, for
    the lone surrogate U+DC00 + byte, as [surrogateescape] makes it of a
    command-line argument. *)
Definition next_char (s : list ascii) : option (Char * list ascii) :=
  match s with
  | [] => None
  | c0 :: s1 =>
      let b0 := byte c0 in
      let escape := Some ((56320 + b0, [c0]), s1)%N in
      if (b0 <? 128)%N then Some ((b0, [c0]), s1)
      else if ((194 <=? b0) && (b0 <=? 223))%N then
        match s1 with
        | c1 :: s2 =>
            if continuation (byte c1) then
              Some (((b0 - 192) * 64 + (byte c1 - 128), [c0; c1]), s2)%N
            else escape
        | _ => escape
        end
      else if ((224 <=? b0) && (b0 <=? 239))%N then
        match s1 with
        | c1 :: c2 :: s3 =>
            let lo := (if b0 =? 224 then 160 else 128)%N in
            let hi := (if b0 =? 237 then 159 else 191)%N in
            if ((lo <=? byte c1) && (byte c1 <=? hi))%N
               && continuation (byte c2) then
              Some ((((b0 - 224) * 64 + (byte c1 - 128)) * 64
                     + (byte c2 - 128), [c0; c1; c2]), s3)%N
            else escape
        | _ => escape
        end
      else if ((240 <=? b0) && (b0 <=? 244))%N then
        match s1 with
        | c1 :: c2 :: c3 :: s4 =>
            let lo := (if b0 =? 240 then 144 else 128)%N in
            let hi := (if b0 =? 244 then 143 else 191)%N in
            if ((lo <=? byte c1) && (byte c1 <=? hi))%N
               && continuation (byte c2) && continuation (byte c3) then
              Some (((((b0 - 240) * 64 + (byte c1 - 128)) * 64
                      + (byte c2 - 128)) * 64 + (byte c3 - 128),
                     [c0; c1; c2; c3]), s4)%N
            else escape
        | _ => escape
        end
      else escape
  end.

(** The characters of some bytes; a character takes at least one byte, so
    as many rounds as there are bytes reach the end. *)
Fixpoint chars_from (fuel : nat) (s : list ascii) : list Char :=
  match fuel with
  | 0 => []
  | S fuel' =>
      match next_char s with
      | None => []
      | Some (c, rest) => c :: chars_from fuel' rest
      end
  end.

Definition chars (s : string) : list Char :=
  chars_from (String.length s) (list_ascii_of_string s).

Definition string_of_chars (cs : list Char) : string :=
  string_of_list_ascii (concat (map snd cs)).

(** *** [repr] of a string *)

Definition hex_digit (n : N) : ascii :=
  ascii_of_N (if n <? 10 then 48 + n else 87 + n)%N.

(** The last [width] hexadecimal digits of [x], in lower case. *)
Fixpoint hex (width : nat) (x : N) : list ascii :=
  match width with
  | 0 => []
  | S width' => hex width' (x / 16)%N ++ [hex_digit (x mod 16)%N]
  end.

Definition backslash : ascii := "092"%char.

Definition is_surrogate (x : N) : bool :=
  ((55296 <=? x) && (x <=? 57343))%N.

(** One character inside the quotes, as [unicode_repr] writes it. *)
Definition repr_char (py : Interpreter) (quote : N) (c : Char)
    : list ascii :=
  let x := fst c in
  if ((x =? quote) || (x =? 92))%N then [backslash; ascii_of_N x]
  else if (x =? 9)%N then [backslash; "t"%char]
  else if (x =? 10)%N then [backslash; "n"%char]
  else if (x =? 13)%N then [backslash; "r"%char]
  else if ((x <? 32) || (x =? 127))%N then
    backslash :: "x"%char :: hex 2 x
  else if (x <? 127)%N then snd c
  else if negb (is_surrogate x) && printable py x then snd c
  else if (x <=? 255)%N then backslash :: "x"%char :: hex 2 x
  else if (x <=? 65535)%N then backslash :: "u"%char :: hex 4 x
  else backslash :: "U"%char :: hex 8 x.

(** [repr(s)]: single quotes, unless the string holds a single quote and
    no double quote. *)
Definition repr (py : Interpreter) (s : string) : string :=
  let cs := chars s in
  let holds (q : N) := existsb (fun c => (fst c =? q)%N) cs in
  let quote := (if holds 39 && negb (holds 34) then 34 else 39)%N in
  string_of_list_ascii
    (ascii_of_N quote :: concat (map (repr_char py quote) cs)
     ++ [ascii_of_N quote]).

(** *** The regular expression of a format *)

(** The fragment of Python's [re] that [_strptime] compiles the format
    ['%Y-%m-%dT%H:%M:%SZ'] to: literal characters, the class [\d], ranges
    of ASCII digits, sequence, alternative and named group.  The pattern
    is compiled with [re.IGNORECASE]. *)
Inductive re : Type :=
| Lit (c : ascii)
| Digit
| Range (lo hi : ascii)
| Seq (r1 r2 : re)
| Alt (r1 r2 : re)
| Group (name : string) (r : re).

(** What [re.IGNORECASE] identifies with an ASCII character: the two
    cases of a letter and, for i, s and k, the four letters beyond ASCII
    whose simple lower case they are (U+0130, U+0131, U+017F, U+212A). *)
Definition fold_case (x : N) : N :=
  if ((65 <=? x) && (x <=? 90))%N then (x + 32)%N
  else if ((x =? 304) || (x =? 305))%N then 105%N
  else if (x =? 383)%N then 115%N
  else if (x =? 8490)%N then 107%N
  else x.

(** The value of a decimal digit character: [\d] and [int] take the
    digits of every script. *)
Definition digit_value (py : Interpreter) (x : N) : option nat :=
  if (x <? 128)%N then
    if ((48 <=? x) && (x <=? 57))%N then Some (N.to_nat (x - 48)) else None
  else decimal py x.

Definition in_range (lo hi : ascii) (x : N) : bool :=
  ((byte lo <=? x) && (x <=? byte hi))%N.

Definition Captures : Type := list (string * list Char).

(** Backtracking match of [r] at the head of [s]: alternatives are tried
    in order, and [k] is what remains to be matched after [r]. *)
Fixpoint rmatch {R} (py : Interpreter) (r : re) (s : list Char)
    (caps : Captures) (k : list Char -> Captures -> option R) : option R :=
  match r with
  | Lit c =>
      match s with
      | x :: s' =>
          if (fold_case (fst x) =? fold_case (byte c))%N then k s' caps
          else None
      | [] => None
      end
  | Digit =>
      match s with
      | x :: s' =>
          match digit_value py (fst x) with
          | Some _ => k s' caps
          | None => None
          end
      | [] => None
      end
  | Range lo hi =>
      match s with
      | x :: s' => if in_range lo hi (fst x) then k s' caps else None
      | [] => None
      end
  | Seq r1 r2 =>
      rmatch py r1 s caps (fun s1 caps1 => rmatch py r2 s1 caps1 k)
  | Alt r1 r2 =>
      match rmatch py r1 s caps k with
      | Some v => Some v
      | None => rmatch py r2 s caps k
      end
  | Group name r1 =>
      rmatch py r1 s caps (fun s1 caps1 =>
        k s1 ((name, take (length s - length s1) s) :: caps1))
  end.

Definition lit (s : string) : re :=
  match list_ascii_of_string s with
  | [c] => Lit c
  | _ => Lit "000"%char
  end.

Definition range (lo hi : string) : re :=
  match list_ascii_of_string lo, list_ascii_of_string hi with
  | [a], [b] => Range a b
  | _, _ => Digit
  end.

(** The regular expressions of the directives, from [_strptime.TimeRE]:
    those of the six directives of the format that [QueryLogs] uses.
    Python knows more directives, which are not modelled. *)
Definition directive (d : ascii) : option re :=
  match string_of_list_ascii [d] with
  | "Y" => (* \d\d\d\d *)
      Some (Group "Y" (Seq Digit (Seq Digit (Seq Digit Digit))))
  | "m" => (* 1[0-2]|0[1-9]|[1-9] *)
      Some (Group "m" (Alt (Seq (lit "1") (range "0" "2"))
                      (Alt (Seq (lit "0") (range "1" "9"))
                           (range "1" "9"))))
  | "d" => (* 3[0-1]|[1-2]\d|0[1-9]|[1-9]| [1-9] *)
      Some (Group "d" (Alt (Seq (lit "3") (range "0" "1"))
                      (Alt (Seq (range "1" "2") Digit)
                      (Alt (Seq (lit "0") (range "1" "9"))
                      (Alt (range "1" "9")
                           (Seq (lit " ") (range "1" "9")))))))
  | "H" => (* 2[0-3]|[0-1]\d|\d *)
      Some (Group "H" (Alt (Seq (lit "2") (range "0" "3"))
                      (Alt (Seq (range "0" "1") Digit) Digit)))
  | "M" => (* [0-5]\d|\d *)
      Some (Group "M" (Alt (Seq (range "0" "5") Digit) Digit))
  | "S" => (* 6[0-1]|[0-5]\d|\d *)
      Some (Group "S" (Alt (Seq (lit "6") (range "0" "1"))
                      (Alt (Seq (range "0" "5") Digit) Digit)))
  | _ => None
  end.

(** [TimeRE.pattern]: directives become groups, the other characters of
    the format stand for themselves; a [%] at the end is stray, and a
    [%] before a character that is no directive is a bad directive.  (The
    format of [QueryLogs] holds no blank, which would stand for a run of
    blanks.) *)
Fixpoint pattern_from (whole : string) (format : list ascii)
    : exn + list re :=
  match format with
  | [] => inr []
  | c :: rest =>
      if Ascii.eqb c "%"%char then
        match rest with
        | [] => inl (ValueError ("stray % in format '" +:+ whole +:+ "'"))
        | d :: rest' =>
            match directive d with
            | None =>
                inl (ValueError ("'" +:+ string_of_list_ascii [d]
                                   +:+ "' is a bad directive in format '"
                                   +:+ whole +:+ "'"))
            | Some r =>
                match pattern_from whole rest' with
                | inl e => inl e
                | inr rs => inr (r :: rs)
                end
            end
        end
      else
        match pattern_from whole rest with
        | inl e => inl e
        | inr rs => inr (Lit c :: rs)
        end
  end.

Definition pattern (format : string) : exn + list re :=
  pattern_from format (list_ascii_of_string format).

Definition sequence (rs : list re) : re :=
  match rs with
  | [] => Group EmptyString (Lit "000"%char)
  | r :: rs' => fold_left Seq rs' r
  end.

(** [int(s)] on a captured field: decimal digits of any script, where the
    blank that [%d] admits in front of a single digit counts for
    nothing. *)
Definition int_of_digits (py : Interpreter) (s : list Char) : nat :=
  fold_left (fun acc c => match digit_value py (fst c) with
                          | Some v => 10 * acc + v
                          | None => acc
                          end) s 0.

(** The number of a group, or [absent] when the format has no such
    directive. *)
Definition group (py : Interpreter) (caps : Captures) (name : string)
    (absent : nat) : nat :=
  match List.find (fun kv => bool_decide (fst kv = name)) caps with
  | Some kv => int_of_digits py (snd kv)
  | None => absent
  end.

Record datetime : Type := mkDatetime {
  year : nat; month : nat; day : nat;
  hour : nat; minute : nat; second : nat
}.

Definition is_leap (y : nat) : bool :=
  (y mod 4 =? 0) && (negb (y mod 100 =? 0) || (y mod 400 =? 0)).

Definition days_in_month (y m : nat) : nat :=
  match m with
  | 2 => if is_leap y then 29 else 28
  | 4 | 6 | 9 | 11 => 30
  | _ => 31
  end.

(** [datetime.strptime(data_string, format)]: the pattern must match at
    the start of the string and use all of it; the fields must then make a
    [date] (year 1 to 9999, a day of the month) and a [datetime] (a second
    below 60).  Every failure is a [ValueError]. *)
#[warnings="-abstract-large-number"]
Definition strptime (py : Interpreter) (data_string format : string)
    : exn + datetime :=
  match pattern format with
  | inl e => inl e
  | inr rs =>
      match rmatch py (sequence rs) (chars data_string) []
                   (fun rest caps => Some (rest, caps)) with
      | None =>
          inl (ValueError ("time data " +:+ repr py data_string
                             +:+ " does not match format "
                             +:+ repr py format))
      | Some (c :: rest, _) =>
          inl (ValueError ("unconverted data remains: "
                             +:+ string_of_chars (c :: rest)))
      | Some ([], caps) =>
          let y := group py caps "Y" 1900 in
          let m := group py caps "m" 1 in
          let d := group py caps "d" 1 in
          let s := group py caps "S" 0 in
          if (y <? 1) || (9999 <? y) then
            inl (ValueError (year_error py y))
          else if (d <? 1) || (days_in_month y m <? d) then
            inl (ValueError (day_error py y m d))
          else if 59 <? s then
            inl (ValueError (second_error py s))
          else
            inr {| year := y; month := m; day := d;
                   hour := group py caps "H" 0;
                   minute := group py caps "M" 0;
                   second := s |}
      end
  end.

End strptime.

(** ** The command-line tool, [gcp_cli.py] *)

Module gcp_cli.

(** The attributes of [args] that [QueryLogs] reads; [end_] is
    [args.end]. *)
Record Namespace : Type := mkArgs {
  project : string;
  key_file : option string;
  search_all : bool;
  start : option string;
  end_ : option string;
  filter : option string
}.

(** The values [str.format] is applied to in [QueryLogs]. *)
Inductive pyval : Type :=
| PyStr (s : string)
| PyFloat (q : Q).

(** The replacement field [{0:s}]: the presentation type [s] is defined
    for strings only; a float refuses it. *)
Definition format_s (v : pyval) : exn + string :=
  match v with
  | PyStr s => inr s
  | PyFloat _ =>
      inl (ValueError "Unknown format code 's' for object of type 'float'")
  end.

Definition DATE_FORMAT : string := "%Y-%m-%dT%H:%M:%SZ".

Section WithInterpreter.

(** The interpreter that runs the tool. *)
Variable py : strptime.Interpreter.

(** Lines 157-163: the [try] block over the two bounds, where a
    [ValueError] becomes [sys.exit(str(error))]. *)
Definition check_bounds (args : Namespace) : exn + unit :=
  let checked (bound : option string) : exn + unit :=
    if truthy_str bound then
      match strptime.strptime py (default EmptyString bound) DATE_FORMAT with
      | inl (ValueError msg) => inl (SystemExit (str_exn (ValueError msg)))
      | inl error => inl error
      | inr _ => inr tt
      end
    else inr tt in
  match checked (start args) with
  | inl e => inl e
  | inr _ => checked (end_ args)
  end.

(** Lines 165-182: the filter string, built by successive [+=]. *)
Definition assemble_filter (args : Namespace) : string :=
  let qfilter := EmptyString in
  let qfilter :=
    if truthy_str (start args) then
      qfilter +:+ "timestamp>=" +:+ dquote +:+ default EmptyString (start args)
        +:+ dquote +:+ " "
    else qfilter in
  let qfilter :=
    if truthy_str (start args) && truthy_str (end_ args) then
      qfilter +:+ "AND "
    else qfilter in
  let qfilter :=
    if truthy_str (end_ args) then
      qfilter +:+ "timestamp<=" +:+ dquote +:+ default EmptyString (end_ args)
        +:+ dquote +:+ " "
    else qfilter in
  if truthy_str (filter args)
     && (truthy_str (start args) || truthy_str (end_ args)) then
    (qfilter +:+ "AND ") +:+ default EmptyString (filter args)
  else if truthy_str (filter args) then
    qfilter +:+ default EmptyString (filter args)
  else qfilter.

(** [for result in gen: body]: the consumer drives the generator; the
    body runs at every yield, and an exception in the body ends the loop
    with the generator left where it is. *)
Fixpoint for_gen (script : list log.Action) (r : exn + unit)
    (body : log.Entry -> list log.Action * (exn + unit))
    : list log.Action * (exn + unit) :=
  match script with
  | [] => ([], r)
  | log.AYield result :: rest =>
      match body result with
      | (acts, inl e) => (acts, inl e)
      | (acts, inr _) =>
          let '(acts', r') := for_gen rest r body in (acts ++ acts', r')
      end
  | a :: rest =>
      let '(acts', r') := for_gen rest r body in (a :: acts', r')
  end.

(** Lines 191-192: the file is opened for appending, then the argument
    [line] of [json.dump] is looked up.  No [line] is bound in
    [QueryLogs] (its names are [args], [logs], [qfilter], [filename],
    [result]) nor at module level, so the lookup raises. *)
Definition persist (filename : string) (result : log.Entry)
    : list log.Action * (exn + unit) :=
  ([log.AOpen filename], inl (NameError "name 'line' is not defined")).

(** [QueryLogs(args)], run against a world at the clock reading
    [utcnow_timestamp] (the float [datetime.utcnow().timestamp()]). *)
Definition QueryLogs (w : log.World) (utcnow_timestamp : Q)
    (args : Namespace) : list log.Action * (exn + unit) :=
  let logs := log.init (project args) (key_file args) (search_all args) in
  let announce :=
    if search_all args then
      [log.ALog "Querying logs of all available projects"]
    else [] in
  match check_bounds args with
  | inl e => (announce, inl e)
  | inr _ =>
      let qfilter := assemble_filter args in
      match format_s (PyFloat utcnow_timestamp) with
      | inl e => (announce, inl e)
      | inr stamp =>
          let filename := "gcp_log_query-" +:+ stamp +:+ ".json" in
          match log.ExecuteQuery w qfilter
                  {| log.self := logs; log.ncalls := 0 |} with
          | (script, _, r) =>
              match for_gen script r (persist filename) with
              | (acts, inl e) => (announce ++ acts, inl e)
              | (acts, inr _) =>
                  match format_s (PyStr filename) with
                  | inl e => (announce ++ acts, inl e)
                  | inr name =>
                      (announce ++ acts ++ [log.ALog ("Saved logs to: " +:+ name)],
                       inr tt)
                  end
              end
          end
      end
  end.


(** The pieces of the filter in the words of the specification: the lower
    bound, the upper bound and the caller's filter, each only when it is
    given; the two bounds carry their trailing blank. *)
Definition spec_pieces (args : Namespace) : list string :=
  (if truthy_str (start args) then
     ["timestamp>=" +:+ dquote +:+ default EmptyString (start args)
        +:+ dquote +:+ " "]
   else [])
  ++ (if truthy_str (end_ args) then
        ["timestamp<=" +:+ dquote +:+ default EmptyString (end_ args)
           +:+ dquote +:+ " "]
      else [])
  ++ (if truthy_str (filter args) then [default EmptyString (filter args)]
      else []).






Definition announcement (args : Namespace) : list log.Action :=
  if search_all args then
    [log.ALog "Querying logs of all available projects"]
  else [].

End WithInterpreter.

End gcp_cli.

(** ** The interpreter of the examples *)

Module CPython311.

(** The zeros of the runs of ten decimal digits beyond ASCII in the
    Unicode database 14.0.0, the one of CPython 3.11. *)
Definition zeros : list N :=
  [
   1632; 1776; 1984; 2406; 2534; 2662; 2790; 2918; 3046; 3174; 3302; 3430;
   3558; 3664; 3792; 3872; 4160; 4240; 6112; 6160; 6470; 6608; 6784; 6800;
   6992; 7088; 7232; 7248; 42528; 43216; 43264; 43472; 43504; 43600; 44016;
   65296; 66720; 68912; 69734; 69872; 69942; 70096; 70384; 70736; 70864;
   71248; 71360; 71472; 71904; 72016; 72784; 73040; 73120; 92768; 92864;
   93008; 120782; 120792; 120802; 120812; 120822; 123200; 123632; 125264;
   130032
  ]%N.

(** The ranges of the characters beyond ASCII that [str.isprintable]
    accepts in that database. *)
Definition printable_ranges : list (N * N) :=
  [
   (161, 172); (174, 887); (890, 895); (900, 906); (908, 908); (910, 929);
   (931, 1327); (1329, 1366); (1369, 1418); (1421, 1423); (1425, 1479);
   (1488, 1514); (1519, 1524); (1542, 1563); (1565, 1756); (1758, 1805);
   (1808, 1866); (1869, 1969); (1984, 2042); (2045, 2093); (2096, 2110);
   (2112, 2139); (2142, 2142); (2144, 2154); (2160, 2190); (2200, 2273);
   (2275, 2435); (2437, 2444); (2447, 2448); (2451, 2472); (2474, 2480);
   (2482, 2482); (2486, 2489); (2492, 2500); (2503, 2504); (2507, 2510);
   (2519, 2519); (2524, 2525); (2527, 2531); (2534, 2558); (2561, 2563);
   (2565, 2570); (2575, 2576); (2579, 2600); (2602, 2608); (2610, 2611);
   (2613, 2614); (2616, 2617); (2620, 2620); (2622, 2626); (2631, 2632);
   (2635, 2637); (2641, 2641); (2649, 2652); (2654, 2654); (2662, 2678);
   (2689, 2691); (2693, 2701); (2703, 2705); (2707, 2728); (2730, 2736);
   (2738, 2739); (2741, 2745); (2748, 2757); (2759, 2761); (2763, 2765);
   (2768, 2768); (2784, 2787); (2790, 2801); (2809, 2815); (2817, 2819);
   (2821, 2828); (2831, 2832); (2835, 2856); (2858, 2864); (2866, 2867);
   (2869, 2873); (2876, 2884); (2887, 2888); (2891, 2893); (2901, 2903);
   (2908, 2909); (2911, 2915); (2918, 2935); (2946, 2947); (2949, 2954);
   (2958, 2960); (2962, 2965); (2969, 2970); (2972, 2972); (2974, 2975);
   (2979, 2980); (2984, 2986); (2990, 3001); (3006, 3010); (3014, 3016);
   (3018, 3021); (3024, 3024); (3031, 3031); (3046, 3066); (3072, 3084);
   (3086, 3088); (3090, 3112); (3114, 3129); (3132, 3140); (3142, 3144);
   (3146, 3149); (3157, 3158); (3160, 3162); (3165, 3165); (3168, 3171);
   (3174, 3183); (3191, 3212); (3214, 3216); (3218, 3240); (3242, 3251);
   (3253, 3257); (3260, 3268); (3270, 3272); (3274, 3277); (3285, 3286);
   (3293, 3294); (3296, 3299); (3302, 3311); (3313, 3314); (3328, 3340);
   (3342, 3344); (3346, 3396); (3398, 3400); (3402, 3407); (3412, 3427);
   (3430, 3455); (3457, 3459); (3461, 3478); (3482, 3505); (3507, 3515);
   (3517, 3517); (3520, 3526); (3530, 3530); (3535, 3540); (3542, 3542);
   (3544, 3551); (3558, 3567); (3570, 3572); (3585, 3642); (3647, 3675);
   (3713, 3714); (3716, 3716); (3718, 3722); (3724, 3747); (3749, 3749);
   (3751, 3773); (3776, 3780); (3782, 3782); (3784, 3789); (3792, 3801);
   (3804, 3807); (3840, 3911); (3913, 3948); (3953, 3991); (3993, 4028);
   (4030, 4044); (4046, 4058); (4096, 4293); (4295, 4295); (4301, 4301);
   (4304, 4680); (4682, 4685); (4688, 4694); (4696, 4696); (4698, 4701);
   (4704, 4744); (4746, 4749); (4752, 4784); (4786, 4789); (4792, 4798);
   (4800, 4800); (4802, 4805); (4808, 4822); (4824, 4880); (4882, 4885);
   (4888, 4954); (4957, 4988); (4992, 5017); (5024, 5109); (5112, 5117);
   (5120, 5759); (5761, 5788); (5792, 5880); (5888, 5909); (5919, 5942);
   (5952, 5971); (5984, 5996); (5998, 6000); (6002, 6003); (6016, 6109);
   (6112, 6121); (6128, 6137); (6144, 6157); (6159, 6169); (6176, 6264);
   (6272, 6314); (6320, 6389); (6400, 6430); (6432, 6443); (6448, 6459);
   (6464, 6464); (6468, 6509); (6512, 6516); (6528, 6571); (6576, 6601);
   (6608, 6618); (6622, 6683); (6686, 6750); (6752, 6780); (6783, 6793);
   (6800, 6809); (6816, 6829); (6832, 6862); (6912, 6988); (6992, 7038);
   (7040, 7155); (7164, 7223); (7227, 7241); (7245, 7304); (7312, 7354);
   (7357, 7367); (7376, 7418); (7424, 7957); (7960, 7965); (7968, 8005);
   (8008, 8013); (8016, 8023); (8025, 8025); (8027, 8027); (8029, 8029);
   (8031, 8061); (8064, 8116); (8118, 8132); (8134, 8147); (8150, 8155);
   (8157, 8175); (8178, 8180); (8182, 8190); (8208, 8231); (8240, 8286);
   (8304, 8305); (8308, 8334); (8336, 8348); (8352, 8384); (8400, 8432);
   (8448, 8587); (8592, 9254); (9280, 9290); (9312, 11123); (11126, 11157);
   (11159, 11507); (11513, 11557); (11559, 11559); (11565, 11565);
   (11568, 11623); (11631, 11632); (11647, 11670); (11680, 11686);
   (11688, 11694); (11696, 11702); (11704, 11710); (11712, 11718);
   (11720, 11726); (11728, 11734); (11736, 11742); (11744, 11869);
   (11904, 11929); (11931, 12019); (12032, 12245); (12272, 12283);
   (12289, 12351); (12353, 12438); (12441, 12543); (12549, 12591);
   (12593, 12686); (12688, 12771); (12784, 12830); (12832, 42124);
   (42128, 42182); (42192, 42539); (42560, 42743); (42752, 42954);
   (42960, 42961); (42963, 42963); (42965, 42969); (42994, 43052);
   (43056, 43065); (43072, 43127); (43136, 43205); (43214, 43225);
   (43232, 43347); (43359, 43388); (43392, 43469); (43471, 43481);
   (43486, 43518); (43520, 43574); (43584, 43597); (43600, 43609);
   (43612, 43714); (43739, 43766); (43777, 43782); (43785, 43790);
   (43793, 43798); (43808, 43814); (43816, 43822); (43824, 43883);
   (43888, 44013); (44016, 44025); (44032, 55203); (55216, 55238);
   (55243, 55291); (63744, 64109); (64112, 64217); (64256, 64262);
   (64275, 64279); (64285, 64310); (64312, 64316); (64318, 64318);
   (64320, 64321); (64323, 64324); (64326, 64450); (64467, 64911);
   (64914, 64967); (64975, 64975); (65008, 65049); (65056, 65106);
   (65108, 65126); (65128, 65131); (65136, 65140); (65142, 65276);
   (65281, 65470); (65474, 65479); (65482, 65487); (65490, 65495);
   (65498, 65500); (65504, 65510); (65512, 65518); (65532, 65533);
   (65536, 65547); (65549, 65574); (65576, 65594); (65596, 65597);
   (65599, 65613); (65616, 65629); (65664, 65786); (65792, 65794);
   (65799, 65843); (65847, 65934); (65936, 65948); (65952, 65952);
   (66000, 66045); (66176, 66204); (66208, 66256); (66272, 66299);
   (66304, 66339); (66349, 66378); (66384, 66426); (66432, 66461);
   (66463, 66499); (66504, 66517); (66560, 66717); (66720, 66729);
   (66736, 66771); (66776, 66811); (66816, 66855); (66864, 66915);
   (66927, 66938); (66940, 66954); (66956, 66962); (66964, 66965);
   (66967, 66977); (66979, 66993); (66995, 67001); (67003, 67004);
   (67072, 67382); (67392, 67413); (67424, 67431); (67456, 67461);
   (67463, 67504); (67506, 67514); (67584, 67589); (67592, 67592);
   (67594, 67637); (67639, 67640); (67644, 67644); (67647, 67669);
   (67671, 67742); (67751, 67759); (67808, 67826); (67828, 67829);
   (67835, 67867); (67871, 67897); (67903, 67903); (67968, 68023);
   (68028, 68047); (68050, 68099); (68101, 68102); (68108, 68115);
   (68117, 68119); (68121, 68149); (68152, 68154); (68159, 68168);
   (68176, 68184); (68192, 68255); (68288, 68326); (68331, 68342);
   (68352, 68405); (68409, 68437); (68440, 68466); (68472, 68497);
   (68505, 68508); (68521, 68527); (68608, 68680); (68736, 68786);
   (68800, 68850); (68858, 68903); (68912, 68921); (69216, 69246);
   (69248, 69289); (69291, 69293); (69296, 69297); (69376, 69415);
   (69424, 69465); (69488, 69513); (69552, 69579); (69600, 69622);
   (69632, 69709); (69714, 69749); (69759, 69820); (69822, 69826);
   (69840, 69864); (69872, 69881); (69888, 69940); (69942, 69959);
   (69968, 70006); (70016, 70111); (70113, 70132); (70144, 70161);
   (70163, 70206); (70272, 70278); (70280, 70280); (70282, 70285);
   (70287, 70301); (70303, 70313); (70320, 70378); (70384, 70393);
   (70400, 70403); (70405, 70412); (70415, 70416); (70419, 70440);
   (70442, 70448); (70450, 70451); (70453, 70457); (70459, 70468);
   (70471, 70472); (70475, 70477); (70480, 70480); (70487, 70487);
   (70493, 70499); (70502, 70508); (70512, 70516); (70656, 70747);
   (70749, 70753); (70784, 70855); (70864, 70873); (71040, 71093);
   (71096, 71133); (71168, 71236); (71248, 71257); (71264, 71276);
   (71296, 71353); (71360, 71369); (71424, 71450); (71453, 71467);
   (71472, 71494); (71680, 71739); (71840, 71922); (71935, 71942);
   (71945, 71945); (71948, 71955); (71957, 71958); (71960, 71989);
   (71991, 71992); (71995, 72006); (72016, 72025); (72096, 72103);
   (72106, 72151); (72154, 72164); (72192, 72263); (72272, 72354);
   (72368, 72440); (72704, 72712); (72714, 72758); (72760, 72773);
   (72784, 72812); (72816, 72847); (72850, 72871); (72873, 72886);
   (72960, 72966); (72968, 72969); (72971, 73014); (73018, 73018);
   (73020, 73021); (73023, 73031); (73040, 73049); (73056, 73061);
   (73063, 73064); (73066, 73102); (73104, 73105); (73107, 73112);
   (73120, 73129); (73440, 73464); (73648, 73648); (73664, 73713);
   (73727, 74649); (74752, 74862); (74864, 74868); (74880, 75075);
   (77712, 77810); (77824, 78894); (82944, 83526); (92160, 92728);
   (92736, 92766); (92768, 92777); (92782, 92862); (92864, 92873);
   (92880, 92909); (92912, 92917); (92928, 92997); (93008, 93017);
   (93019, 93025); (93027, 93047); (93053, 93071); (93760, 93850);
   (93952, 94026); (94031, 94087); (94095, 94111); (94176, 94180);
   (94192, 94193); (94208, 100343); (100352, 101589); (101632, 101640);
   (110576, 110579); (110581, 110587); (110589, 110590); (110592, 110882);
   (110928, 110930); (110948, 110951); (110960, 111355); (113664, 113770);
   (113776, 113788); (113792, 113800); (113808, 113817); (113820, 113823);
   (118528, 118573); (118576, 118598); (118608, 118723); (118784, 119029);
   (119040, 119078); (119081, 119154); (119163, 119274); (119296, 119365);
   (119520, 119539); (119552, 119638); (119648, 119672); (119808, 119892);
   (119894, 119964); (119966, 119967); (119970, 119970); (119973, 119974);
   (119977, 119980); (119982, 119993); (119995, 119995); (119997, 120003);
   (120005, 120069); (120071, 120074); (120077, 120084); (120086, 120092);
   (120094, 120121); (120123, 120126); (120128, 120132); (120134, 120134);
   (120138, 120144); (120146, 120485); (120488, 120779); (120782, 121483);
   (121499, 121503); (121505, 121519); (122624, 122654); (122880, 122886);
   (122888, 122904); (122907, 122913); (122915, 122916); (122918, 122922);
   (123136, 123180); (123184, 123197); (123200, 123209); (123214, 123215);
   (123536, 123566); (123584, 123641); (123647, 123647); (124896, 124902);
   (124904, 124907); (124909, 124910); (124912, 124926); (124928, 125124);
   (125127, 125142); (125184, 125259); (125264, 125273); (125278, 125279);
   (126065, 126132); (126209, 126269); (126464, 126467); (126469, 126495);
   (126497, 126498); (126500, 126500); (126503, 126503); (126505, 126514);
   (126516, 126519); (126521, 126521); (126523, 126523); (126530, 126530);
   (126535, 126535); (126537, 126537); (126539, 126539); (126541, 126543);
   (126545, 126546); (126548, 126548); (126551, 126551); (126553, 126553);
   (126555, 126555); (126557, 126557); (126559, 126559); (126561, 126562);
   (126564, 126564); (126567, 126570); (126572, 126578); (126580, 126583);
   (126585, 126588); (126590, 126590); (126592, 126601); (126603, 126619);
   (126625, 126627); (126629, 126633); (126635, 126651); (126704, 126705);
   (126976, 127019); (127024, 127123); (127136, 127150); (127153, 127167);
   (127169, 127183); (127185, 127221); (127232, 127405); (127462, 127490);
   (127504, 127547); (127552, 127560); (127568, 127569); (127584, 127589);
   (127744, 128727); (128733, 128748); (128752, 128764); (128768, 128883);
   (128896, 128984); (128992, 129003); (129008, 129008); (129024, 129035);
   (129040, 129095); (129104, 129113); (129120, 129159); (129168, 129197);
   (129200, 129201); (129280, 129619); (129632, 129645); (129648, 129652);
   (129656, 129660); (129664, 129670); (129680, 129708); (129712, 129722);
   (129728, 129733); (129744, 129753); (129760, 129767); (129776, 129782);
   (129792, 129938); (129940, 129994); (130032, 130041); (131072, 173791);
   (173824, 177976); (177984, 178205); (178208, 183969); (183984, 191456);
   (194560, 195101); (196608, 201546); (917760, 917999)
  ]%N.

Definition decimal (x : N) : option nat :=
  match List.find (fun z => ((z <=? x) && (x <? z + 10))%N) zeros with
  | Some z => Some (N.to_nat (x - z))
  | None => None
  end.

Definition printable (x : N) : bool :=
  existsb (fun r => ((fst r <=? x) && (x <=? snd r))%N) printable_ranges.

(** CPython 3.11: its Unicode database and the wording of its
    constructors. *)
Definition interpreter : strptime.Interpreter :=
  {| strptime.decimal := decimal;
     strptime.printable := printable;
     strptime.year_error := fun y =>
       "year " +:+ pretty y +:+ " is out of range";
     strptime.day_error := fun _ _ _ => "day is out of range for month";
     strptime.second_error := fun _ => "second must be in 0..59" |}.

End CPython311.

(** ** Concrete runs *)

Module Examples.
Import log.

(** A scope with identifier [p<i>] in the given lifecycle state. *)
Definition scope (i : nat) (state : string) : Project :=
  <["projectId" := "p" +:+ pretty i]> (<["lifecycleState" := state]> ∅).

(** 52 discovered scopes, [p3] of which awaits deletion: 51 are ACTIVE,
    so a query over them takes two batches. *)
Definition scopes52 : list Project :=
  map (fun i => scope i (if i =? 3 then "DELETE_REQUESTED" else "ACTIVE"))
      (seq 0 52).

Definition entry (i : Z) : Entry := JDict [("insertId", JNum i)].

Definition page (es : list Entry) : exn + Response :=
  inr (<["entries" := es]> ∅).

Definition page_without_entries : exn + Response := inr ∅.

(** Batch 1 arrives in two pages of 3 and 2 entries; batch 2 fails. *)
Definition two_pages_then_failure : World :=
  {| GetProjects := inr scopes52;
     entries_list := fun call _ =>
       if call =? 0 then
         (page [entry 1; entry 2; entry 3], [page [entry 4; entry 5]])
       else (inl (HttpError "backend failure"), []) |}.

(** Everything arrives; one page of batch 1 has no [entries] key. *)
Definition all_pages_arrive : World :=
  {| GetProjects := inr scopes52;
     entries_list := fun call _ =>
       if call =? 0 then
         (page [entry 1; entry 2; entry 3],
          [page_without_entries; page [entry 4]])
       else (page [entry 5], []) |}.

(** The only page of batch 1 holds nothing; batch 2 holds one entry. *)
Definition first_batch_empty : World :=
  {| GetProjects := inr scopes52;
     entries_list := fun call _ =>
       if call =? 0 then (page_without_entries, [])
       else (page [entry 1], []) |}.

Definition discovery_fails : World :=
  {| GetProjects := inl (RuntimeError "discovery failed");
     entries_list := fun _ _ => (page [entry 1], []) |}.

Definition no_scopes : World :=
  {| GetProjects := inr [];
     entries_list := fun _ _ => (page [entry 1], []) |}.

(** A fresh object in "all scopes" mode, and what resolving the 52
    scopes leaves behind. *)
Definition all_scopes : Store := fresh "main" None true.

Definition resolved52 : Store :=
  {| self := set_projects scopes52 (self all_scopes); ncalls := 0 |}.

Definition ids51 : list string := active_names scopes52.

Definition discovery_call : list Action := [AGetProjects "v2" None].


Definition cli_args (start end_ filter : option string) : gcp_cli.Namespace :=
  {| gcp_cli.project := "main"; gcp_cli.key_file := None;
     gcp_cli.search_all := false; gcp_cli.start := start;
     gcp_cli.end_ := end_; gcp_cli.filter := filter |}.

(** The two pages that arrive, and the bodies of the two batches. *)
Definition b0 : Body := body_of "severity=ERROR" (take 50 ids51).
Definition b1 : Body := body_of "severity=ERROR" (drop 50 ids51).
Definition arrived : list Fetch :=
  [(0, b0, 0, page [entry 1; entry 2; entry 3]);
   (0, b0, 1, page [entry 4; entry 5])].

End Examples.

(** ** More vocabulary for the query engine *)

Module LogMore.
Import log.

(** The store a run leaves behind. *)
Definition final_store {A} (run : list Action * Store * (exn + A)) : Store :=
  snd (fst run).

(** The actions of fetching: a page request or a yield. *)
Definition is_fetch_action (a : Action) : bool :=
  match a with
  | ARequest _ _ _ | AYield _ => true
  | _ => false
  end.

(** Requests in the order of issue: an earlier call, or the same call and
    an earlier page. *)
Definition key_lt (k1 k2 : nat * nat) : Prop :=
  fst k1 < fst k2 \/ (fst k1 = fst k2 /\ snd k1 < snd k2).

End LogMore.

(** ** [GoogleCloudLog.ListLogs] and the CLI's [ListLogs] *)

Module listlogs.
Import log.

(** How [ListLogs] can fail: with an exception of a call it makes, or
    with the [TypeError] of adding [None] to a string. *)
Inductive failure : Type :=
| Propagated (e : exn)
| TypeError (msg : string).

(** One page of a [logs.list] response: the key ["logNames"] may be
    absent. *)
Abbreviation LogsPage := (gmap string (list string)).

(** What the platform answers to the [n]-th list call, made for
    [parent]. *)
Definition LogsWorld : Type :=
  nat -> string -> (exn + LogsPage) * list (exn + LogsPage).

(** The actions of [ListLogs]: those of the query engine, and the page
    requests of [logs().list]. *)
Inductive ListAction : Type :=
| Base (a : Action)
| AListLogs (call : nat) (parent : string) (page : nat).

Definition LGen (A : Type) : Type :=
  Store -> list ListAction * Store * (failure + A).

Definition lret {A} (x : A) : LGen A := fun st => ([], st, inr x).

Definition lbind {A B} (m : LGen A) (k : A -> LGen B) : LGen B :=
  fun st =>
    match m st with
    | (a1, st1, inl f) => (a1, st1, inl f)
    | (a1, st1, inr x) =>
        match k x st1 with
        | (a2, st2, r) => (a1 ++ a2, st2, r)
        end
    end.

(** A method of the object, called from [ListLogs]. *)
Definition lift {A} (m : Gen A) : LGen A :=
  fun st =>
    match m st with
    | (acts, st1, inl e) => (map Base acts, st1, inl (Propagated e))
    | (acts, st1, inr x) => (map Base acts, st1, inr x)
    end.

Definition lraise {A} (f : failure) : LGen A := fun st => ([], st, inl f).
Definition lemit (a : ListAction) : LGen unit := fun st => ([a], st, inr tt).

Notation "x <~ m ;; k" := (lbind m (fun x => k))
  (at level 100, m at next level, right associativity).

(** [for x in l: ...] where the body updates a list built so far. *)
Fixpoint for_acc {A B} (l : list A) (acc : B) (body : B -> A -> LGen B)
    : LGen B :=
  match l with
  | [] => lret acc
  | x :: l' => acc' <~ body acc x ;; for_acc l' acc' body
  end.

(** ['projects/' + x]: a string can only be added to a string. *)
Definition str_add (s : string) (x : option string) : LGen string :=
  match x with
  | Some t => lret (s +:+ t)
  | None =>
      lraise (TypeError ("can only concatenate str (not " +:+ dquote
                           +:+ "NoneType" +:+ dquote +:+ ") to str"))
  end.

(** Modelled from the spec: [common.ExecuteRequest] (the Pagination
    Helper, spec 4.3), here for [logs().list]: a lazy sequence of pages,
    numbered when the call is made and fetched when iterated. *)
Definition ExecuteRequest_logs (ll : LogsWorld) (client : Client)
    (func : string) (parent : string)
    : LGen (nat * string * list (exn + LogsPage)) :=
  fun st =>
    let n := ncalls st in
    ([], {| self := self st; ncalls := S n |},
     inr (n, parent, fst (ll n parent) :: snd (ll n parent))).

(** [for entry in response: ...] over a lazy page sequence. *)
Fixpoint for_pages_acc {B} (call : nat) (parent : string) (page : nat)
    (pages : list (exn + LogsPage)) (acc : B)
    (body : B -> LogsPage -> LGen B) : LGen B :=
  match pages with
  | [] => lret acc
  | p :: rest =>
      _ <~ lemit (AListLogs call parent page) ;;
      match p with
      | inl e => lraise (Propagated e)
      | inr entry =>
          acc' <~ body acc entry ;;
          for_pages_acc call parent (S page) rest acc' body
      end
  end.

(** [GoogleCloudLog.ListLogs].  [project_ids] is built as the source
    builds it (project dicts in one branch, the project name in the
    other) and, as in the source, not used afterwards: the requests are
    made for [self.projects]. *)
Definition ListLogs (w : World) (ll : LogsWorld) : LGen (list string) :=
  gcl_instance_client <~ lift GclApi ;;
  o <~ lift get_self ;;
  project_ids <~
    (if search_all o then
       _ <~ (if negb (truthy_list (projects o)) then lift (ListProjects w)
             else lret tt) ;;
       o <~ lift get_self ;;
       lret (foldl (fun project_ids p => project_ids ++ [inl p]) []
                   (projects o))
     else
       lret [@inr Project string (project_id o)]) ;;
  o <~ lift get_self ;;
  responses <~
    for_acc (projects o) [] (fun responses project =>
      if negb (is_active project) then lret responses
      else
        parent <~ str_add "projects/" (project !! "projectId") ;;
        response <~ ExecuteRequest_logs ll gcl_instance_client "list"
                                        parent ;;
        lret (responses ++ [response])) ;;
  logs <~
    for_acc responses [] (fun logs response =>
      for_pages_acc (fst (fst response)) (snd (fst response)) 0
        (snd response) logs (fun logs entry =>
          lret (foldl (fun logs logtypes => logs ++ [logtypes]) logs
                      (default [] (entry !! "logNames"))))) ;;
  lret logs.

(** The CLI's [ListLogs(args)] of [gcp_cli.py]. *)
Definition cli_ListLogs (w : World) (ll : LogsWorld)
    (args : gcp_cli.Namespace) : list ListAction * (failure + unit) :=
  let logs := init (gcp_cli.project args) (gcp_cli.key_file args)
                   (gcp_cli.search_all args) in
  match ListLogs w ll {| self := logs; ncalls := 0 |} with
  | (acts, _, inl f) => (acts, inl f)
  | (acts, _, inr results) =>
      (acts
       ++ Base (ALog ("Found " +:+ pretty (length results)
                        +:+ " available log types:"))
       :: map (fun line => Base (ALog line)) results,
       inr tt)
  end.

(** *** The parts of [ListLogs] *)

(** The round of the first loop, and the loop. *)
Definition collect (ll : LogsWorld) (client : Client)
    (responses : list (nat * string * list (exn + LogsPage)))
    (project : Project)
    : LGen (list (nat * string * list (exn + LogsPage))) :=
  if negb (is_active project) then lret responses
  else
    parent <~ str_add "projects/" (project !! "projectId") ;;
    response <~ ExecuteRequest_logs ll client "list" parent ;;
    lret (responses ++ [response]).

Definition response_of (ll : LogsWorld) (call : nat) (p : Project)
    : nat * string * list (exn + LogsPage) :=
  (call, project_name p,
   fst (ll call (project_name p)) :: snd (ll call (project_name p))).

Definition has_id (p : Project) : Prop :=
  is_active p = true -> exists id, p !! "projectId" = Some id.

(** The round of the second loop, and the loop. *)
Definition gather (logs : list string)
    (response : nat * string * list (exn + LogsPage)) : LGen (list string) :=
  for_pages_acc (fst (fst response)) (snd (fst response)) 0 (snd response)
    logs (fun logs entry =>
      lret (foldl (fun logs logtypes => logs ++ [logtypes]) logs
                  (default [] (entry !! "logNames")))).

Definition pages_arrive (pages : list (exn + LogsPage)) : Prop :=
  Forall (fun p => match p with inr _ => True | inl _ => False end) pages.

Definition page_requests (response : nat * string * list (exn + LogsPage))
    : list (nat * string * nat) :=
  map (fun j => (fst (fst response), snd (fst response), j))
      (seq 0 (length (snd response))).

(** The two loops of [ListLogs], run on the scopes [ps]. *)
Definition loops (ll : LogsWorld) (client : Client) (ps : list Project)
    : LGen (list string) :=
  responses <~ for_acc ps [] (collect ll client) ;;
  logs <~ for_acc responses [] gather ;;
  lret logs.

(** The scopes [ListLogs] builds [project_ids] from (lines 93-100). *)
Definition gather_project_ids (w : World) (o : GoogleCloudLog)
    : LGen (list (Project + string)) :=
  if search_all o then
    _ <~ (if negb (truthy_list (projects o)) then lift (ListProjects w)
          else lret tt) ;;
    o <~ lift get_self ;;
    lret (foldl (fun project_ids p => project_ids ++ [inl p]) []
                (projects o))
  else
    lret [@inr Project string (project_id o)].

(** The store after the handle is there. *)
Definition with_handle (st : Store) : Store :=
  {| self := self (after_batch st); ncalls := ncalls st |}.

(** *** Vocabulary *)

Definition list_requests (acts : list ListAction)
    : list (nat * string * nat) :=
  omap (fun a => match a with
                 | AListLogs c parent j => Some (c, parent, j)
                 | Base _ => None
                 end) acts.

(** The scopes [ListLogs] works from: creating the handle comes first and
    empties the cache, so a cache only counts when the handle exists. *)
Definition listed_scopes (w : World) (st : Store) : exn + list Project :=
  match gcl_api_client (self st) with
  | None => GetProjects w
  | Some _ => discovered w st
  end.

(** What a page contributes to the result. *)
Definition page_names (p : exn + LogsPage) : list string :=
  match p with
  | inr entry => default [] (entry !! "logNames")
  | inl _ => []
  end.

(** The result in words: scope after scope among the ACTIVE ones, page
    after page, the log names of each page in order. *)
Definition expected_logs (ll : LogsWorld) (call0 : nat)
    (ps : list Project) : list string :=
  concat (imap (fun i p =>
                  concat (map page_names
                              (fst (ll (call0 + i) (project_name p))
                               :: snd (ll (call0 + i) (project_name p)))))
               (List.filter is_active ps)).

End listlogs.

(** ** [StartAnalysisVm] of [gcp_cli.py]: the disks to attach *)

Module analysis_vm.

(** [s.split(sep)] for a separator of one character: the fields between
    the separators, empty ones included; always at least one field. *)
Fixpoint split (sep : ascii) (s : string) : list string :=
  match s with
  | EmptyString => [EmptyString]
  | String c s' =>
      if bool_decide (c = sep) then EmptyString :: split sep s'
      else
        match split sep s' with
        | field :: fields => String c field :: fields
        | [] => [String c EmptyString]
        end
  end.

Definition comma : ascii := "044"%char.

(** How lines 225-233 end: with the error logged and the function
    returned, or with the list passed on as [attach_disks]. *)
Inductive Checked : Type :=
| Rejected (error : string)
| Accepted (attach_disks : list string).

(** Lines 225-233 of [StartAnalysisVm]. *)
Definition check_attach_disks (args_attach_disks : option string) : Checked :=
  let attach_disks := [] in
  if truthy_str args_attach_disks then
    let attach_disks :=
      split comma (default EmptyString args_attach_disks) in
    if negb (truthy_list attach_disks
             && forallb (fun elements => truthy_str (Some elements))
                        attach_disks) then
      Rejected ("parameter --attach_disks: "
                  +:+ default EmptyString args_attach_disks)
    else Accepted attach_disks
  else Accepted attach_disks.

(** A name that can stand between two commas. *)
Fixpoint comma_free (s : string) : bool :=
  match s with
  | EmptyString => true
  | String c s' => negb (bool_decide (c = comma)) && comma_free s'
  end.

Definition disk_name (s : string) : Prop :=
  s <> EmptyString /\ comma_free s = true.

End analysis_vm.

(** ** [monitoring.py], and the CLI's [ListServices] and [GetBucketSize] *)

Module monitoring.

(** A value of a point as JSON gives it: a string (the API writes a
    64-bit integer as a string), an integer, or a float, held as the
    rational number it stands for (a JSON number is finite). *)
Inductive Value : Type :=
| VStr (s : string)
| VInt (z : Z)
| VFloat (q : Q).

(** A monitored resource, a point and a time series of the Monitoring
    API, as far as the module reads them; every member may be absent. *)
Record Resource : Type := mkResource {
  labels : option (gmap string string)
}.

Record Point : Type := mkPoint {
  value : option (gmap string Value)
}.

Record TimeSeries : Type := mkTimeSeries {
  resource : option Resource;
  points : option (list Point)
}.

(** One page of a [timeSeries.list] response. *)
Abbreviation TsPage := (gmap string (list TimeSeries)).

(** A Python dict from names to integers: keys in insertion order, and
    an assignment to a key that is there keeps its place. *)
Abbreviation Dict := (list (string * Z)).

Fixpoint dict_set (k : string) (v : Z) (d : Dict) : Dict :=
  match d with
  | [] => [(k, v)]
  | (k', v') :: d' =>
      if bool_decide (k' = k) then (k, v) :: d'
      else (k', v') :: dict_set k v d'
  end.

Fixpoint dict_get (k : string) (d : Dict) : option Z :=
  match d with
  | [] => None
  | (k', v') :: d' => if bool_decide (k' = k) then Some v' else dict_get k d'
  end.

(** Truthiness of a value: the empty string and zero are falsy. *)
Definition truthy_value (v : Value) : bool :=
  match v with
  | VStr s => truthy_str (Some s)
  | VInt z => negb (z =? 0)%Z
  | VFloat q => negb (Qnum q =? 0)%Z
  end.

(** The attributes of a [GoogleCloudMonitoring] object. *)
Record GoogleCloudMonitoring : Type := mkMonitoring {
  gcm_api_client : option log.Client;
  project_id : string;
  key_file : option string;
  search_all : bool
}.

Definition CLOUD_MONITORING_API_VERSION : string := "v3".

(** [GoogleCloudMonitoring.__init__]. *)
Definition init (project_id : string) (key_file : option string)
    (search_all : bool) : GoogleCloudMonitoring :=
  {| gcm_api_client := None; project_id := project_id;
     key_file := key_file; search_all := search_all |}.

(** The keyword arguments of a request. *)
Abbreviation Kwargs := (list (string * string)).

Inductive MAction : Type :=
| MCreateService (name version : string) (key_file : option string)
| MRequest (kwargs : Kwargs) (page : nat)
| MLog (msg : string).

(** What lies outside the sources: the two time stamps that
    [common.FormatRFC3339] makes of the clock, and the pages the platform
    answers a request with.  The start one is that of the clock reading
    moved back by a time frame in days, or the [OverflowError] of that
    subtraction when it leaves the years 1 to 9999. *)
Record MWorld : Type := mkMWorld {
  start_time : Z -> exn + string;
  end_time : string;
  time_series : Kwargs -> (exn + TsPage) * list (exn + TsPage)
}.

(** [common.FormatRFC3339(datetime.datetime.utcnow() -
    datetime.timedelta(days=timeframe))], the first statement of both
    functions.  [timedelta] takes its days as a C int (32 bits) of at most
    999999999 in magnitude, and no clock reading can be moved by more
    than 3652058 days without leaving the years 1 to 9999: beyond these
    bounds the [OverflowError] is raised whatever the clock; within them
    the clock decides. *)
Definition start_of (w : MWorld) (timeframe : Z) : exn + string :=
  if ((timeframe <? -2147483648) || (2147483647 <? timeframe))%Z then
    inl (OverflowError "Python int too large to convert to C int")
  else if (999999999 <? Z.abs timeframe)%Z then
    inl (OverflowError ("days=" +:+ pretty timeframe
                          +:+ "; must have magnitude <= 999999999"))
  else if (3652058 <? Z.abs timeframe)%Z then
    inl (OverflowError "date value out of range")
  else start_time w timeframe.

(** Modelled from the spec: [common.ExecuteRequest] (the Pagination
    Helper, spec 4.3) is not part of the sources; it returns a lazy
    sequence of raw page responses, fetched as the sequence is
    iterated. *)
Definition ExecuteRequest (w : MWorld) (client : log.Client)
    (func : string) (kwargs : Kwargs) : list (exn + TsPage) :=
  fst (time_series w kwargs) :: snd (time_series w kwargs).

(** [GoogleCloudMonitoring.GcmApi]. *)
Definition GcmApi (self : GoogleCloudMonitoring)
    : list MAction * GoogleCloudMonitoring * log.Client :=
  match gcm_api_client self with
  | Some c => ([], self, c)
  | None =>
      let c := log.Service "monitoring" CLOUD_MONITORING_API_VERSION
                           (key_file self) in
      ([MCreateService "monitoring" CLOUD_MONITORING_API_VERSION
                       (key_file self)],
       {| gcm_api_client := Some c; project_id := project_id self;
          key_file := key_file self; search_all := search_all self |},
       c)
  end.

(** [sorted(items, key=lambda x: x[1], reverse=True)]: larger numbers
    first, equal numbers in their original order. *)
Fixpoint insert_desc (x : string * Z) (l : list (string * Z))
    : list (string * Z) :=
  match l with
  | [] => [x]
  | y :: l' =>
      if (snd y <? snd x)%Z then x :: y :: l' else y :: insert_desc x l'
  end.

Definition sorted_desc (items : list (string * Z)) : list (string * Z) :=
  foldl (fun acc x => insert_desc x acc) [] items.

(** The arguments of the CLI's [bucketsize] command that
    [GetBucketSize] reads. *)
Record SizeNamespace : Type := mkSizeArgs {
  args_project : string;
  args_key_file : option string;
  args_search_all : bool;
  args_bucket_name : option string
}.

Section WithInt.

(** [int(s)] on a string is taken as it comes: an integer or a
    [ValueError]. *)
Variable int : string -> exn + Z.

(** [int(val)]: a float is truncated towards zero. *)
Definition int_value (val : Value) : exn + Z :=
  match val with
  | VStr s => int s
  | VInt z => inr z
  | VFloat q => inr (Z.quot (Qnum q) (Z.pos (Qden q)))
  end.

(** The body of the inner loop of [ActiveServices] (lines 92-98, with
    [label] = 'service' and [field] = 'int64Value') and of [StorageSize]
    (lines 140-146, with 'bucket_name' and 'doubleValue'): what one time
    series does to [ret]. *)
Definition count_series (label field : string) (ret : Dict)
    (ts : TimeSeries) : exn + Dict :=
  let service :=
    default EmptyString
      (default ∅ (labels (default {| labels := None |} (resource ts)))
         !! label) in
  if truthy_str (Some service) then
    let points := default [] (points ts) in
    match points with
    | [] => inr ret
    | point0 :: _ =>
        let val := default (VStr EmptyString)
                     (default ∅ (value point0) !! field) in
        if truthy_value val then
          match int_value val with
          | inl e => inl e
          | inr n => inr (dict_set service n ret)
          end
        else inr ret
    end
  else inr ret.

(** [for ts in response.get('timeSeries', []): ...]. *)
Fixpoint count_page (label field : string) (ret : Dict)
    (series : list TimeSeries) : exn + Dict :=
  match series with
  | [] => inr ret
  | ts :: rest =>
      match count_series label field ret ts with
      | inl e => inl e
      | inr ret' => count_page label field ret' rest
      end
  end.

(** [for response in responses: ...] over the lazy page sequence: each
    round fetches its page first. *)
Fixpoint count_pages (label field : string) (kwargs : Kwargs) (page : nat)
    (ret : Dict) (pages : list (exn + TsPage))
    : list MAction * (exn + Dict) :=
  match pages with
  | [] => ([], inr ret)
  | p :: rest =>
      match p with
      | inl e => ([MRequest kwargs page], inl e)
      | inr response =>
          match count_page label field ret
                  (default [] (response !! "timeSeries")) with
          | inl e => ([MRequest kwargs page], inl e)
          | inr ret' =>
              let '(acts, r) :=
                count_pages label field kwargs (S page) ret' rest in
              (MRequest kwargs page :: acts, r)
          end
      end
  end.

(** The request of [ActiveServices] (lines 75 and 78-88). *)
Definition active_services_kwargs (start_time end_time : string)
    (self : GoogleCloudMonitoring) (timeframe : Z) : Kwargs :=
  let period := (timeframe * 24 * 60 * 60)%Z in
  [("name", "projects/" +:+ project_id self);
   ("filter",
    "metric.type=" +:+ dquote
      +:+ "serviceruntime.googleapis.com/api/request_count" +:+ dquote);
   ("interval_startTime", start_time);
   ("interval_endTime", end_time);
   ("aggregation_groupByFields", "resource.labels.service");
   ("aggregation_perSeriesAligner", "ALIGN_SUM");
   ("aggregation_alignmentPeriod", pretty period +:+ "s");
   ("aggregation_crossSeriesReducer", "REDUCE_SUM")].

(** [GoogleCloudMonitoring.ActiveServices(timeframe)]: the two time
    stamps come first, before the handle. *)
Definition ActiveServices (w : MWorld) (self : GoogleCloudMonitoring)
    (timeframe : Z)
    : list MAction * GoogleCloudMonitoring * (exn + Dict) :=
  match start_of w timeframe with
  | inl e => ([], self, inl e)
  | inr start_time =>
      let end_time := end_time w in
      let '(created, self', service) := GcmApi self in
      let kwargs :=
        active_services_kwargs start_time end_time self' timeframe in
      let responses := ExecuteRequest w service "list" kwargs in
      let '(acts, r) :=
        count_pages "service" "int64Value" kwargs 0 [] responses in
      (created ++ acts, self', r)
  end.

(** The filter of [StorageSize] (lines 121-124). *)
Definition storage_size_filter (bucket_name : option string) : string :=
  let qfilter :=
    "metric.type=" +:+ dquote +:+ "storage.googleapis.com/storage/total_bytes"
      +:+ dquote +:+ " resource.type=" +:+ dquote +:+ "gcs_bucket"
      +:+ dquote in
  if truthy_str bucket_name then
    qfilter +:+ " resource.label.bucket_name=" +:+ dquote
      +:+ default EmptyString bucket_name +:+ dquote
  else qfilter.

(** The request of [StorageSize] (lines 117 and 126-135). *)
Definition storage_size_kwargs (start_time end_time : string)
    (self : GoogleCloudMonitoring) (timeframe : Z)
    (bucket_name : option string) : Kwargs :=
  let period := (timeframe * 24 * 60 * 60)%Z in
  [("name", "projects/" +:+ project_id self);
   ("filter", storage_size_filter bucket_name);
   ("interval_startTime", start_time);
   ("interval_endTime", end_time);
   ("aggregation_groupByFields", "resource.label.bucket_name");
   ("aggregation_perSeriesAligner", "ALIGN_SUM");
   ("aggregation_alignmentPeriod", pretty period +:+ "s");
   ("aggregation_crossSeriesReducer", "REDUCE_SUM")].

(** [GoogleCloudMonitoring.StorageSize(timeframe, bucket_name)]: the
    two time stamps come first, before the handle. *)
Definition StorageSize (w : MWorld) (self : GoogleCloudMonitoring)
    (timeframe : Z) (bucket_name : option string)
    : list MAction * GoogleCloudMonitoring * (exn + Dict) :=
  match start_of w timeframe with
  | inl e => ([], self, inl e)
  | inr start_time =>
      let end_time := end_time w in
      let '(created, self', bucket) := GcmApi self in
      let kwargs :=
        storage_size_kwargs start_time end_time self' timeframe
                            bucket_name in
      let responses := ExecuteRequest w bucket "list" kwargs in
      let '(acts, r) :=
        count_pages "bucket_name" "doubleValue" kwargs 0 [] responses in
      (created ++ acts, self', r)
  end.

(** ['{0:s}: {1:s}'.format(apiname, usage)] with an [int] for [usage]:
    the presentation type [s] is refused for an integer. *)
Definition format_api_line (apiname : string) (usage : Z) : exn + string :=
  inl (ValueError "Unknown format code 's' for object of type 'int'").

(** [for apiname, usage in sorted_apis: logger.info(...)]. *)
Fixpoint log_apis (sorted_apis : list (string * Z))
    : list MAction * (exn + unit) :=
  match sorted_apis with
  | [] => ([], inr tt)
  | (apiname, usage) :: rest =>
      match format_api_line apiname usage with
      | inl e => ([], inl e)
      | inr line =>
          let '(acts, r) := log_apis rest in (MLog line :: acts, r)
      end
  end.

(** The CLI's [ListServices(args)] of [gcp_cli.py]. *)
Definition ListServices (w : MWorld) (args : gcp_cli.Namespace)
    : list MAction * (exn + unit) :=
  let apis := init (gcp_cli.project args) None false in
  match ActiveServices w apis 30 with
  | (acts, _, inl e) => (acts, inl e)
  | (acts, _, inr results) =>
      let found :=
        MLog ("Found " +:+ pretty (length results) +:+ " APIs:") in
      let sorted_apis := sorted_desc results in
      let '(lines, r) := log_apis sorted_apis in
      (acts ++ found :: lines, r)
  end.

(** ['{0:s}: {1:d}'.format(_bucket_name, bucket_size)]. *)
Definition size_line (item : string * Z) : string :=
  fst item +:+ ": " +:+ pretty (snd item).

(** The CLI's [GetBucketSize(args)] of [gcp_cli.py]. *)
Definition GetBucketSize (w : MWorld) (args : SizeNamespace)
    : list MAction * (exn + unit) :=
  let buckets := init (args_project args) (args_key_file args)
                      (args_search_all args) in
  match StorageSize w buckets 1 (args_bucket_name args) with
  | (acts, _, inl e) => (acts, inl e)
  | (acts, _, inr results) =>
      let sorted_buckets := sorted_desc results in
      (acts ++ map (fun item => MLog (size_line item)) sorted_buckets,
       inr tt)
  end.

(** *** Vocabulary *)

(** The name and the value a time series stands for, if it stands for
    any: a non-empty label and a truthy value in the first point. *)
Definition reading (label field : string) (ts : TimeSeries)
    : option (string * Value) :=
  match resource ts with
  | Some {| labels := Some ls |} =>
      match ls !! label, points ts with
      | Some service, Some (point0 :: _) =>
          match value point0 with
          | Some v =>
              match v !! field with
              | Some val =>
                  if truthy_str (Some service) && truthy_value val
                  then Some (service, val) else None
              | None => None
              end
          | None => None
          end
      | _, _ => None
      end
  | _ => None
  end.

(** The readings of some series, applied to [ret] in order. *)
Fixpoint apply_readings (ret : Dict) (rs : list (string * Value))
    : exn + Dict :=
  match rs with
  | [] => inr ret
  | (service, val) :: rest =>
      match int_value val with
      | inl e => inl e
      | inr n => apply_readings (dict_set service n ret) rest
      end
  end.

(** The pages of the request of [ActiveServices] and of [StorageSize]:
    none when the start of the time frame cannot be computed, since no
    request is then made. *)
Definition active_pages (w : MWorld) (self : GoogleCloudMonitoring)
    (timeframe : Z) : list (exn + TsPage) :=
  match start_of w timeframe with
  | inl _ => []
  | inr start_time =>
      ExecuteRequest w (snd (GcmApi self)) "list"
        (active_services_kwargs start_time (end_time w)
                                (snd (fst (GcmApi self))) timeframe)
  end.

Definition size_pages (w : MWorld) (self : GoogleCloudMonitoring)
    (timeframe : Z) (bucket_name : option string) : list (exn + TsPage) :=
  match start_of w timeframe with
  | inl _ => []
  | inr start_time =>
      ExecuteRequest w (snd (GcmApi self)) "list"
        (storage_size_kwargs start_time (end_time w)
                             (snd (fst (GcmApi self))) timeframe
                             bucket_name)
  end.

End WithInt.

(** All time series of some pages, in order. *)
Definition all_series (pages : list (exn + TsPage)) : list TimeSeries :=
  concat (map (fun p => match p with
                        | inr response =>
                            default [] (response !! "timeSeries")
                        | inl _ => []
                        end) pages).

Definition pages_arrive (pages : list (exn + TsPage)) : Prop :=
  Forall (fun p => match p with inr _ => True | inl _ => False end) pages.

(** The label of a series as the loops read it, and the value of its
    first point. *)
Definition label_of (label : string) (ts : TimeSeries) : string :=
  default EmptyString
    (default ∅ (labels (default {| labels := None |} (resource ts)))
       !! label).

Definition first_value (field : string) (ts : TimeSeries) : option Value :=
  match default [] (points ts) with
  | [] => None
  | point0 :: _ => default ∅ (value point0) !! field
  end.

(** The value of the last reading of a name, if any. *)
Fixpoint last_val (k : string) (rs : list (string * Value))
    : option Value :=
  match rs with
  | [] => None
  | (service, val) :: rest =>
      match last_val k rest with
      | Some v => Some v
      | None => if bool_decide (service = k) then Some val else None
      end
  end.

(** The series with every point but the first removed, and a page of
    such series. *)
Definition first_point_only (ts : TimeSeries) : TimeSeries :=
  {| resource := resource ts;
     points := match points ts with
               | Some (point0 :: _) => Some [point0]
               | other => other
               end |}.

Definition trim_page (p : exn + TsPage) : exn + TsPage :=
  match p with
  | inr response => inr (map first_point_only <$> response)
  | inl e => inl e
  end.

Definition mlogged (acts : list MAction) : list string :=
  omap (fun a => match a with MLog m => Some m | _ => None end) acts.

Definition mrequests (acts : list MAction) : list (Kwargs * nat) :=
  omap (fun a => match a with
                 | MRequest kwargs page => Some (kwargs, page)
                 | _ => None
                 end) acts.

(** Larger numbers first. *)
Definition desc (x y : string * Z) : Prop := (snd y <= snd x)%Z.

End monitoring.

(** ** More examples *)

Module MoreExamples.
Import log listlogs monitoring.
Import Examples.

(** Three discovered scopes, the middle one awaiting deletion. *)
Definition scopes3 : list Project :=
  [scope 0 "ACTIVE"; scope 1 "DELETE_REQUESTED"; scope 2 "ACTIVE"].

Definition three_scopes : World :=
  {| GetProjects := inr scopes3;
     entries_list := fun _ _ => (page [entry 1], []) |}.

(** An ACTIVE scope that carries no projectId, between two that do. *)
Definition nameless : Project := <["lifecycleState" := "ACTIVE"]> ∅.

Definition nameless_scope : World :=
  {| GetProjects := inr ([scope 0 "ACTIVE"] ++ nameless :: [scope 2 "ACTIVE"]);
     entries_list := fun _ _ => (page [entry 1], []) |}.

(** Every scope has three pages of logs: two names, a page without
    ["logNames"], and one more name. *)
Definition logs_page (names : list string) : exn + LogsPage :=
  inr (<["logNames" := names]> ∅).

Definition three_pages : LogsWorld :=
  fun _ parent =>
    (logs_page [parent +:+ "/logs/syslog"; parent +:+ "/logs/activity"],
     [inr ∅; logs_page [parent +:+ "/logs/audit"]]).

(** An [int] for the examples: it reads a string of decimal digits and
    refuses every other string (the examples hold no sign, blank or
    underscore, which Python's [int] would accept). *)
Definition digit (c : ascii) : option Z :=
  let n := Z.of_nat (nat_of_ascii c) in
  if ((48 <=? n) && (n <=? 57))%Z then Some (n - 48)%Z else None.

Fixpoint digits (acc : Z) (s : string) : option Z :=
  match s with
  | EmptyString => Some acc
  | String c s' =>
      match digit c with
      | Some d => digits (10 * acc + d) s'
      | None => None
      end
  end.

Definition decimal (s : string) : exn + Z :=
  match s, digits 0 s with
  | String _ _, Some z => inr z
  | _, _ =>
      inl (ValueError ("invalid literal for int() with base 10: '"
                         +:+ s +:+ "'"))
  end.

(** A time series with one label, and the given values in its points. *)
Definition series (label name field : string) (vals : list Value)
    : TimeSeries :=
  {| resource := Some {| labels := Some (<[label := name]> ∅) |};
     points := Some (map (fun v => {| value := Some (<[field := v]> ∅) |})
                         vals) |}.

Definition ts_page (l : list TimeSeries) : exn + TsPage :=
  inr (<["timeSeries" := l]> ∅).

(** Two pages of request counts: a series without points, one without a
    resource, and a service that comes twice. *)
Definition request_counts : list (exn + TsPage) :=
  [ts_page [series "service" "compute.googleapis.com" "int64Value"
                   [VStr "12"; VStr "99"];
            series "service" "logging.googleapis.com" "int64Value" [];
            {| resource := None; points := None |};
            series "service" "storage.googleapis.com" "int64Value"
                   [VStr "7"]];
   ts_page [series "service" "compute.googleapis.com" "int64Value"
                   [VStr "15"]]].

(** The date of a day number, as [date.fromordinal] gives it: day 1 is
    0001-01-01 and day 3652059 is 9999-12-31. *)
Definition date_of_ordinal (ordinal : Z) : Z * Z * Z :=
  let z := (ordinal + 305)%Z in
  let era := (z / 146097)%Z in
  let doe := (z - era * 146097)%Z in
  let yoe := ((doe - doe / 1460 + doe / 36524 - doe / 146096) / 365)%Z in
  let doy := (doe - (365 * yoe + yoe / 4 - yoe / 100))%Z in
  let mp := ((5 * doy + 2) / 153)%Z in
  let d := (doy - (153 * mp + 2) / 5 + 1)%Z in
  let m := (if mp <? 10 then mp + 3 else mp - 9)%Z in
  ((yoe + era * 400 + (if m <=? 2 then 1 else 0))%Z, m, d).

Definition padded (width : nat) (n : Z) : string :=
  let digits := pretty n in
  string_of_list_ascii
    (replicate (width - String.length digits) "0"%char)
  +:+ digits.

(** A clock that reads 2021-01-31T00:00:00, which is day 737821: the
    time stamp of so many days before, or the [OverflowError] of a date
    outside the years 1 to 9999. *)
Definition days_before (days : Z) : exn + string :=
  let ordinal := (737821 - days)%Z in
  if ((1 <=? ordinal) && (ordinal <=? 3652059))%Z then
    let '(y, m, d) := date_of_ordinal ordinal in
    inr (padded 4 y +:+ "-" +:+ padded 2 m +:+ "-" +:+ padded 2 d
           +:+ "T00:00:00Z")
  else inl (OverflowError "date value out of range").

Definition world_of (pages : list (exn + TsPage)) : MWorld :=
  {| start_time := days_before;
     end_time := "2021-01-31T00:00:00Z";
     time_series := fun _ =>
       (default (inr ∅) (head pages), tail pages) |}.

Definition services_world : MWorld := world_of request_counts.

(** The same platform, sending only the first point of every series. *)
Definition trimmed (w : MWorld) : MWorld :=
  {| start_time := start_time w;
     end_time := end_time w;
     time_series := fun kwargs =>
       (trim_page (fst (time_series w kwargs)),
        map trim_page (snd (time_series w kwargs))) |}.

(** A count that is no integer, after one that is. *)
Definition bad_count : MWorld :=
  world_of
    [ts_page [series "service" "compute.googleapis.com" "int64Value"
                     [VStr "12"];
              series "service" "storage.googleapis.com" "int64Value"
                     [VStr "7.5"];
              series "service" "logging.googleapis.com" "int64Value"
                     [VStr "3"]]].

(** Three buckets: one of 1536.5 bytes, an empty one, and one of 2048. *)
Definition bucket_sizes : MWorld :=
  world_of
    [ts_page [series "bucket_name" "evidence" "doubleValue"
                     [VFloat (3073 # 2)];
              series "bucket_name" "scratch" "doubleValue" [VFloat 0];
              series "bucket_name" "images" "doubleValue"
                     [VFloat 2048]]].

Definition main_project : GoogleCloudMonitoring :=
  monitoring.init "main" None false.

End MoreExamples.

(** * Properties *)

(** ** [range] and slices *)

Module PyFacts.

Lemma range_from_bounds fuel x stop step y :
  In y (range_from fuel x stop step) -> x <= y < stop.
Proof.
  revert x. induction fuel as [|fuel IH]; intros x; simpl; [tauto|].
  destruct (Nat.ltb_spec x stop) as [Hlt|Hge]; simpl; [|tauto].
  intros [<-|Hin]; [lia|]. apply IH in Hin. lia.
Qed.

Lemma range_from_lookup fuel x stop step i y :
  range_from fuel x stop step !! i = Some y -> y = x + i * step.
Proof.
  revert x i. induction fuel as [|fuel IH]; intros x i; simpl; [done|].
  destruct (x <? stop); [|done].
  destruct i as [|i]; simpl.
  - intros [= <-]. lia.
  - intros H. apply IH in H. lia.
Qed.

Lemma div_up_step n x : x < n -> (n - x + 49) / 50 = S ((n - (x + 50) + 49) / 50).
Proof.
  intros Hlt. destruct (le_lt_dec (x + 50) n) as [Hle|Hgt].
  - replace (n - x + 49) with ((n - (x + 50) + 49) + 1 * 50) by lia.
    rewrite Nat.div_add by lia. lia.
  - replace (n - (x + 50)) with 0 by lia.
    change ((0 + 49) / 50) with 0.
    symmetry. apply Nat.div_unique with (r := n - x - 1); lia.
Qed.

Lemma range_from_length fuel x stop :
  stop - x <= fuel ->
  length (range_from fuel x stop 50) = (stop - x + 49) / 50.
Proof.
  revert x. induction fuel as [|fuel IH]; intros x Hfuel; simpl.
  - replace (stop - x) with 0 by lia. reflexivity.
  - destruct (Nat.ltb_spec x stop) as [Hlt|Hge]; simpl.
    + rewrite IH by lia. symmetry. apply div_up_step. exact Hlt.
    + replace (stop - x) with 0 by lia. reflexivity.
Qed.

Lemma slice_window {A} (l : list A) x : slice l x (x + 50) = take 50 (drop x l).
Proof. unfold slice. f_equal. lia. Qed.

Lemma range_from_concat {A} (l : list A) fuel x :
  length l - x <= fuel ->
  concat (map (fun y => slice l y (y + 50)) (range_from fuel x (length l) 50))
  = drop x l.
Proof.
  revert x. induction fuel as [|fuel IH]; intros x Hfuel; simpl.
  - symmetry. apply drop_ge. lia.
  - destruct (Nat.ltb_spec x (length l)) as [Hlt|Hge]; simpl.
    + rewrite IH by lia. rewrite slice_window.
      rewrite <- (drop_drop l 50 x). apply take_drop.
    + symmetry. apply drop_ge. lia.
Qed.

End PyFacts.

(** ** The query engine *)

Module LogFacts.

Import log.

(** *** Running monadic code *)

Lemma run_bind {A B} (m : Gen A) (k : A -> Gen B) st :
  gbind m k st =
  match m st with
  | (a1, st1, inl e) => (a1, st1, inl e)
  | (a1, st1, inr x) =>
      (a1 ++ script_of (k x st1), snd (fst (k x st1)), result_of (k x st1))
  end.
Proof.
  unfold gbind, script_of, result_of.
  destruct (m st) as [[a1 st1] [e|x]]; [reflexivity|].
  destruct (k x st1) as [[a2 st2] r]. reflexivity.
Qed.

Lemma run_bind_ret {A B} (m : Gen A) (k : A -> Gen B) st a1 st1 x a2 st2 r :
  m st = (a1, st1, inr x) -> k x st1 = (a2, st2, r) ->
  gbind m k st = (a1 ++ a2, st2, r).
Proof. intros Hm Hk. unfold gbind. rewrite Hm, Hk. reflexivity. Qed.

Lemma run_bind_raise {A B} (m : Gen A) (k : A -> Gen B) st a1 st1 e :
  m st = (a1, st1, inl e) -> gbind m k st = (a1, st1, inl e).
Proof. intros Hm. unfold gbind. rewrite Hm. reflexivity. Qed.

Lemma app_nil_l_run {A} (a : list Action) (st : Store) (r : exn + A) :
  ([] ++ a, st, r) = (a, st, r).
Proof. reflexivity. Qed.

Lemma run_emit {B} a (k : unit -> Gen B) st :
  gbind (emit a) k st
  = (a :: script_of (k tt st), snd (fst (k tt st)), result_of (k tt st)).
Proof. rewrite run_bind. reflexivity. Qed.

Lemma run_for_yield (es : list Entry) st :
  for_ es (fun entry => yield entry) st = (map AYield es, st, inr tt).
Proof.
  induction es as [|e es IH]; [reflexivity|].
  simpl for_. change (yield e) with (emit (AYield e)).
  rewrite run_emit, IH. reflexivity.
Qed.

Lemma run_for_pages call b page pages st :
  for_pages call b page pages
    (fun response => for_ (entries_of response) (fun entry => yield entry)) st
  = (fst (plan_script (page_plan call b page pages)), st,
     snd (plan_script (page_plan call b page pages))).
Proof.
  revert page. induction pages as [|p rest IH]; intros page; [reflexivity|].
  simpl for_pages. rewrite run_emit.
  destruct p as [e|response]; [reflexivity|].
  rewrite run_bind, run_for_yield.
  unfold script_of, result_of. rewrite IH. reflexivity.
Qed.

(** *** Scripts of plans *)

Lemma plan_script_app p1 p2 :
  plan_script (p1 ++ p2) =
  match plan_script p1 with
  | (a, inl e) => (a, inl e)
  | (a, inr _) => (a ++ fst (plan_script p2), snd (plan_script p2))
  end.
Proof.
  induction p1 as [|[[[c b] j] [e|r]] p1 IH]; simpl.
  - destruct (plan_script p2); reflexivity.
  - reflexivity.
  - rewrite IH. destruct (plan_script p1) as [a [e|[]]]; simpl;
      rewrite <- ?app_assoc; reflexivity.
Qed.

(** A plan that meets no failure runs to its end. *)
Lemma plan_script_ok plan :
  Forall fetch_ok plan ->
  plan_script plan
  = (concat (map (fun f => ARequest (fst (fst (fst f))) (snd (fst (fst f)))
                                   (snd (fst f))
                            :: map AYield (fetch_entries f)) plan),
     inr tt).
Proof.
  induction 1 as [|[[[c b] j] [e|r]] plan Hok _ IH]; simpl in *;
    [reflexivity|contradiction|].
  rewrite IH. reflexivity.
Qed.

(** A plan whose first failure is [e] stops there, raising [e]. *)
Lemma plan_script_fail pre c b j e post :
  Forall fetch_ok pre ->
  plan_script (pre ++ (c, b, j, inl e) :: post)
  = (fst (plan_script pre) ++ [ARequest c b j], inl e).
Proof.
  intros Hok. rewrite plan_script_app, (plan_script_ok pre Hok). reflexivity.
Qed.

(** *** One batch, then the loop *)

Lemma run_GclApi st :
  exists c,
    GclApi st
    = (service_actions st,
       {| self := self (after_batch st); ncalls := ncalls st |}, inr c).
Proof.
  destruct st as [[pid kf [c|] sa ps] n]; eexists; reflexivity.
Qed.

Lemma run_query_batch w ids q x st :
  let b := body_of q (slice ids x (x + 50)) in
  let plan := page_plan (ncalls st) b 0 (pages_of w (ncalls st) b) in
  query_batch w ids q x st
  = (service_actions st ++ fst (plan_script plan), after_batch st,
     snd (plan_script plan)).
Proof.
  intros b plan. unfold query_batch.
  destruct (run_GclApi st) as [c Hc].
  eapply run_bind_ret; [exact Hc|].
  eapply eq_trans; [|apply app_nil_l_run].
  eapply run_bind_ret; [reflexivity|]. apply run_for_pages.
Qed.

Lemma after_batch_client st : gcl_api_client (self (after_batch st)) <> None.
Proof.
  unfold after_batch. simpl.
  destruct (gcl_api_client (self st)) eqn:H; simpl; congruence.
Qed.

Lemma loop_service_after st xs : loop_service (after_batch st) xs = [].
Proof.
  destruct xs; [reflexivity|]. simpl. unfold service_actions.
  destruct (gcl_api_client (self (after_batch st))) eqn:H; [reflexivity|].
  exfalso. exact (after_batch_client st H).
Qed.

Lemma run_loop w ids q xs st :
  let plan := batch_plan w (ncalls st)
                (map (fun x => body_of q (slice ids x (x + 50))) xs) in
  exists st',
    for_ xs (query_batch w ids q) st
    = (loop_service st xs ++ fst (plan_script plan), st',
       snd (plan_script plan)).
Proof.
  revert st. induction xs as [|x xs IH]; intros st; cbn zeta.
  { eexists. reflexivity. }
  cbn [for_ map batch_plan loop_service].
  pose proof (run_query_batch w ids q x st) as Hb. cbn zeta in Hb.
  rewrite plan_script_app.
  destruct (plan_script
              (page_plan (ncalls st) (body_of q (slice ids x (x + 50))) 0
                 (pages_of w (ncalls st) (body_of q (slice ids x (x + 50))))))
    as [a [e|[]]]; cbn [fst snd] in *.
  - eexists. apply run_bind_raise. exact Hb.
  - destruct (IH (after_batch st)) as [st' IH']. cbn zeta in IH'.
    rewrite loop_service_after in IH'. exists st'.
    rewrite app_assoc. eapply run_bind_ret; [exact Hb|exact IH'].
Qed.

(** *** The scopes resolved, and the whole generator *)

Lemma active_names_filter ps :
  active_names ps = map project_name (List.filter is_active ps).
Proof.
  unfold active_names.
  enough (forall acc,
    foldl (fun project_ids p =>
             if negb (is_active p) then project_ids
             else project_ids ++ [project_name p]) acc ps
    = acc ++ map project_name (List.filter is_active ps)) as H by apply H.
  induction ps as [|p ps IH]; intros acc; simpl.
  - rewrite app_nil_r. reflexivity.
  - rewrite IH. destruct (is_active p); simpl; [|reflexivity].
    rewrite <- app_assoc. reflexivity.
Qed.

Lemma run_resolve w st :
  resolve_project_ids w st =
  if search_all (self st) then
    match projects (self st) with
    | _ :: _ => ([], st, inr (active_names (projects (self st))))
    | [] =>
        match GetProjects w with
        | inl e =>
            ([AGetProjects LOGGING_API_VERSION (key_file (self st))], st,
             inl e)
        | inr ps =>
            ([AGetProjects LOGGING_API_VERSION (key_file (self st))],
             {| self := set_projects ps (self st); ncalls := ncalls st |},
             inr (active_names ps))
        end
    end
  else ([], st, inr ["projects/" +:+ project_id (self st)]).
Proof.
  destruct st as [[pid kf cl sa ps] n].
  unfold resolve_project_ids, ListProjects, gbind, get_self. simpl.
  destruct sa; [|reflexivity].
  destruct ps as [|p ps]; simpl; [|reflexivity].
  destruct (GetProjects w) as [e|ps']; reflexivity.
Qed.

Lemma batches_bodies q ids :
  map (fun x => body_of q (slice ids x (x + 50))) (range 0 (length ids) 50)
  = map (body_of q) (batches ids).
Proof. unfold batches. rewrite map_map. reflexivity. Qed.

Lemma run_ExecuteQuery w q st pa st1 ids :
  resolve_project_ids w st = (pa, st1, inr ids) ->
  exists st',
    ExecuteQuery w q st
    = (pa ++ ALog (count_message ids)
          :: loop_service st1 (range 0 (length ids) 50)
          ++ fst (plan_script (plan_of w q st1 ids)),
       st', snd (plan_script (plan_of w q st1 ids))).
Proof.
  intros Hres. unfold ExecuteQuery, plan_of.
  destruct (run_loop w ids q (range 0 (length ids) 50) st1) as [st' Hloop].
  cbn zeta in Hloop. rewrite batches_bodies in Hloop.
  exists st'. eapply run_bind_ret; [exact Hres|].
  unfold logger_info. rewrite run_emit, Hloop. reflexivity.
Qed.

Lemma run_ExecuteQuery_raise w q st pa st1 e :
  resolve_project_ids w st = (pa, st1, inl e) ->
  ExecuteQuery w q st = (pa, st1, inl e).
Proof. intros Hres. unfold ExecuteQuery. apply run_bind_raise. exact Hres. Qed.

(** *** What a consumer executes *)

Lemma executed_prefix n s : executed n s `prefix_of` s.
Proof.
  revert n. induction s as [|a s IH]; intros n; simpl.
  - apply prefix_nil.
  - destruct n as [|n]; [apply prefix_nil|].
    destruct a; apply prefix_cons, IH.
Qed.

Lemma yields_app a b : yields (a ++ b) = yields a ++ yields b.
Proof. apply omap_app. Qed.

Lemma requests_app a b : requests (a ++ b) = requests a ++ requests b.
Proof. apply omap_app. Qed.

Lemma logged_app a b : logged (a ++ b) = logged a ++ logged b.
Proof. apply omap_app. Qed.

Lemma yields_map_yield es : yields (map AYield es) = es.
Proof. induction es as [|e es IH]; simpl; [|unfold yields in *; simpl; rewrite IH]; reflexivity. Qed.

Lemma requests_map_yield es : requests (map AYield es) = [].
Proof. induction es as [|e es IH]; [reflexivity|exact IH]. Qed.

Lemma logged_map_yield es : logged (map AYield es) = [].
Proof. induction es as [|e es IH]; [reflexivity|exact IH]. Qed.

Lemma yields_executed n s : yields (executed n s) = take n (yields s).
Proof.
  revert n. induction s as [|a s IH]; intros n; simpl.
  - destruct n; reflexivity.
  - destruct n as [|n]; [reflexivity|].
    destruct a; try exact (IH (S n)).
    change (entry :: yields (executed n s) = entry :: take n (yields s)).
    rewrite IH. reflexivity.
Qed.

Lemma executed_app_le n s1 s2 :
  n <= length (yields s1) -> executed n (s1 ++ s2) = executed n s1.
Proof.
  revert n. induction s1 as [|a s1 IH]; intros n Hn.
  - assert (n = 0) as -> by (simpl in Hn; lia). destruct s2; reflexivity.
  - destruct n as [|n]; [reflexivity|].
    destruct a; simpl; try (rewrite IH; [reflexivity|exact Hn]).
    change (S n <= S (length (yields s1))) in Hn.
    rewrite IH; [reflexivity|lia].
Qed.

Lemma executed_all n s : length (yields s) < n -> executed n s = s.
Proof.
  revert n. induction s as [|a s IH]; intros n Hn; [destruct n; reflexivity|].
  destruct n as [|n]; [lia|].
  destruct a; simpl; try (rewrite IH; [reflexivity|exact Hn]).
  change (S (length (yields s)) < S n) in Hn.
  rewrite IH; [reflexivity|lia].
Qed.

Lemma requests_prefix a b : a `prefix_of` b -> requests a `prefix_of` requests b.
Proof. intros [k ->]. rewrite requests_app. apply prefix_app_r. reflexivity. Qed.

(** *** Projections of the script of a plan *)

Lemma requests_plan_ok plan :
  Forall fetch_ok plan ->
  requests (fst (plan_script plan)) = map fetch_request plan.
Proof.
  induction 1 as [|[[[c b] j] [e|r]] plan Hok _ IH]; simpl in *;
    [reflexivity|contradiction|].
  change (requests (ARequest c b j :: ?l)) with ((c, b, j) :: requests l).
  rewrite requests_app, requests_map_yield, IH. reflexivity.
Qed.

Lemma yields_plan_ok plan :
  Forall fetch_ok plan ->
  yields (fst (plan_script plan)) = concat (map fetch_entries plan).
Proof.
  induction 1 as [|[[[c b] j] [e|r]] plan Hok _ IH]; simpl in *;
    [reflexivity|contradiction|].
  change (yields (ARequest c b j :: ?l)) with (yields l).
  rewrite yields_app, yields_map_yield, IH. reflexivity.
Qed.

Lemma logged_plan plan : logged (fst (plan_script plan)) = [].
Proof.
  induction plan as [|[[[c b] j] [e|r]] plan IH]; simpl; try reflexivity.
  change (logged (ARequest c b j :: ?l)) with (logged l).
  rewrite logged_app, logged_map_yield, IH. reflexivity.
Qed.

(** Whatever happens, the requests of a script are taken from its plan, in
    the order of the plan. *)
Lemma requests_plan_prefix plan :
  requests (fst (plan_script plan)) `prefix_of` map fetch_request plan.
Proof.
  induction plan as [|[[[c b] j] [e|r]] plan IH]; simpl.
  - reflexivity.
  - apply prefix_cons, prefix_nil.
  - change (requests (ARequest c b j :: ?l)) with ((c, b, j) :: requests l).
    rewrite requests_app, requests_map_yield. apply prefix_cons, IH.
Qed.

End LogFacts.

(** ** The claims about [ExecuteQuery] *)

Module LogClaims.

Import log LogFacts PyFacts.

(** *** Batches *)

Lemma batches_length ids : length (batches ids) = (length ids + 49) / 50.
Proof.
  unfold batches, range. rewrite length_map, range_from_length by lia.
  rewrite Nat.sub_0_r. reflexivity.
Qed.

Lemma batches_concat ids : concat (batches ids) = ids.
Proof. unfold batches, range. rewrite range_from_concat by lia. reflexivity. Qed.

Lemma batches_lookup ids i batch :
  batches ids !! i = Some batch ->
  batch = take 50 (drop (50 * i) ids) /\ 50 * i < length ids.
Proof.
  unfold batches. rewrite list_lookup_fmap.
  destruct (range 0 (length ids) 50 !! i) as [x|] eqn:Hx; [|done].
  intros [= <-]. pose proof (range_from_lookup _ _ _ _ _ _ Hx) as ->.
  apply list_elem_of_lookup_2, list_elem_of_In, range_from_bounds in Hx.
  rewrite slice_window. split; [|lia]. replace (0 + i * 50) with (50 * i) by lia. reflexivity.
Qed.

Lemma batches_sizes ids :
  Forall (fun batch => batch <> [] /\ length batch <= 50) (batches ids).
Proof.
  apply Forall_lookup. intros i batch Hi.
  apply batches_lookup in Hi as [-> Hlt]. split.
  - intros Hnil. apply (f_equal length) in Hnil.
    rewrite length_take, length_drop in Hnil. cbn [length] in Hnil. lia.
  - rewrite length_take. lia.
Qed.

Lemma batches_members ids batch name :
  In batch (batches ids) -> In name batch -> In name ids.
Proof.
  intros Hb Hn. rewrite <- (batches_concat ids).
  apply in_concat. exists batch. split; assumption.
Qed.

(** *** Where the fetches of a plan come from *)

Lemma page_plan_In call b page pages c b' j p :
  In (c, b', j, p) (page_plan call b page pages) ->
  c = call /\ b' = b /\ page <= j /\ pages !! (j - page) = Some p.
Proof.
  revert page. induction pages as [|p0 rest IH]; intros page; simpl; [tauto|].
  intros [[= <- <- <- <-]|Hin].
  - rewrite Nat.sub_diag. auto.
  - apply IH in Hin as (-> & -> & Hle & Hl). repeat split; [lia|].
    replace (j - page) with (S (j - S page)) by lia. exact Hl.
Qed.

Lemma batch_plan_In w call bodies c b j p :
  In (c, b, j, p) (batch_plan w call bodies) ->
  call <= c /\ bodies !! (c - call) = Some b
  /\ pages_of w c b !! j = Some p.
Proof.
  revert call. induction bodies as [|b0 bs IH]; intros call;
    cbn [batch_plan]; [simpl; tauto|].
  rewrite in_app_iff. intros [Hin|Hin].
  - apply page_plan_In in Hin as (-> & -> & _ & Hl).
    rewrite Nat.sub_diag, Nat.sub_0_r in *. auto.
  - apply IH in Hin as (Hle & Hb & Hp). repeat split; [lia| |exact Hp].
    replace (c - call) with (S (c - S call)) by lia. exact Hb.
Qed.

Lemma In_requests acts c b j :
  In (ARequest c b j) acts <-> In (c, b, j) (requests acts).
Proof.
  unfold requests. rewrite <- !list_elem_of_In, list_elem_of_omap. split.
  - intros H. exists (ARequest c b j). auto.
  - intros ([] & H & [= <- <- <-]); try discriminate. exact H.
Qed.

Lemma In_script_plan plan c b j :
  In (ARequest c b j) (fst (plan_script plan)) ->
  exists p, In (c, b, j, p) plan.
Proof.
  rewrite In_requests. intros Hin.
  destruct (requests_plan_prefix plan) as [k Hk].
  assert (In (c, b, j) (map fetch_request plan)) as Hin'.
  { rewrite Hk. apply in_or_app. auto. }
  apply in_map_iff in Hin' as ([[[c' b'] j'] p] & [= -> -> ->] & Hp).
  exists p. exact Hp.
Qed.

(** *** What resolving the scopes does *)

Lemma resolve_quiet w st pa st1 r :
  resolve_project_ids w st = (pa, st1, r) ->
  (pa = [] \/ pa = [AGetProjects LOGGING_API_VERSION (key_file (self st))])
  /\ ncalls st1 = ncalls st
  /\ gcl_api_client (self st1) = gcl_api_client (self st).
Proof.
  rewrite run_resolve.
  destruct (search_all (self st)); [|intros [= <- <- <-]; auto].
  destruct (projects (self st)); [|intros [= <- <- <-]; auto].
  destruct (GetProjects w); intros [= <- <- <-]; auto.
Qed.

Lemma resolve_all w st ps :
  search_all (self st) = true -> discovered w st = inr ps ->
  exists pa st1,
    resolve_project_ids w st
    = (pa, st1, inr (map project_name (List.filter is_active ps))).
Proof.
  intros Hall Hps. rewrite run_resolve, Hall. unfold discovered in Hps.
  destruct (projects (self st)) as [|p ps0] eqn:Hc.
  - rewrite Hps, active_names_filter. eauto.
  - injection Hps as <-. rewrite active_names_filter. eauto.
Qed.

Lemma resolve_names w st pa st1 ids :
  resolve_project_ids w st = (pa, st1, inr ids) ->
  Forall (fun name => exists id, name = "projects/" +:+ id) ids.
Proof.
  rewrite run_resolve.
  assert (forall ps, Forall (fun name => exists id, name = "projects/" +:+ id)
                            (active_names ps)) as Hact.
  { intros ps. rewrite active_names_filter. apply Forall_forall.
    intros name Hin. apply list_elem_of_In, in_map_iff in Hin as (p & <- & _).
    eexists. reflexivity. }
  destruct (search_all (self st)).
  - destruct (projects (self st)); [|intros [= <- <- <-]; apply Hact].
    destruct (GetProjects w); [discriminate|]. intros [= <- <- <-]. apply Hact.
  - intros [= <- <- <-]. repeat constructor. eexists. reflexivity.
Qed.

Lemma quiet_requests pa kf :
  pa = [] \/ pa = [AGetProjects LOGGING_API_VERSION kf] ->
  requests pa = [] /\ yields pa = [] /\ logged pa = []
  /\ batch_requests pa = [].
Proof. intros [->| ->]; repeat split; reflexivity. Qed.

Lemma loop_service_quiet st xs :
  requests (loop_service st xs) = [] /\ yields (loop_service st xs) = []
  /\ logged (loop_service st xs) = []
  /\ batch_requests (loop_service st xs) = [].
Proof.
  destruct xs; [repeat split; reflexivity|]. simpl. unfold service_actions.
  destruct (gcl_api_client (self st)); repeat split; reflexivity.
Qed.

(** The projections of the whole script, in terms of the plan. *)
Lemma script_projections w q st pa st1 ids :
  resolve_project_ids w st = (pa, st1, inr ids) ->
  let run := ExecuteQuery w q st in
  let planned := plan_script (plan_of w q st ids) in
  requests (script_of run) = requests (fst planned)
  /\ yields (script_of run) = yields (fst planned)
  /\ logged (script_of run) = [count_message ids]
  /\ batch_requests (script_of run) = batch_requests (fst planned)
  /\ result_of run = snd planned.
Proof.
  intros Hres. cbn zeta.
  destruct (run_ExecuteQuery w q st pa st1 ids Hres) as [st' ->].
  destruct (resolve_quiet _ _ _ _ _ Hres) as (Hpa & Hn & _).
  destruct (quiet_requests _ _ Hpa) as (Hr & Hy & Hl & Hb).
  destruct (loop_service_quiet st1 (range 0 (length ids) 50))
    as (Hr' & Hy' & Hl' & Hb').
  unfold plan_of in *. rewrite Hn. unfold script_of, result_of.
  cbn [fst snd]. unfold batch_requests in *.
  rewrite requests_app, yields_app, logged_app, omap_app, Hr, Hy, Hl, Hb.
  change (requests (ALog ?m :: ?l)) with (requests l).
  change (yields (ALog ?m :: ?l)) with (yields l).
  change (logged (ALog ?m :: ?l)) with (m :: logged l).
  rewrite requests_app, yields_app, logged_app, Hr', Hy', Hl', logged_plan.
  cbn [app]. 
  change (omap ?f (ALog ?m :: ?l)) with (omap f l).
  rewrite omap_app, Hb'. repeat split; reflexivity.
Qed.

(** *** The batches submitted *)

Lemma batch_requests_app a b :
  batch_requests (a ++ b) = batch_requests a ++ batch_requests b.
Proof. apply omap_app. Qed.

Lemma batch_requests_map_yield es : batch_requests (map AYield es) = [].
Proof. induction es as [|e es IH]; [reflexivity|exact IH]. Qed.

Lemma batch_requests_later c b j pages :
  batch_requests (fst (plan_script (page_plan c b (S j) pages))) = [].
Proof.
  revert j. induction pages as [|[e|r] rest IH]; intros j; simpl;
    [reflexivity|reflexivity|].
  change (batch_requests (ARequest c b (S j) :: ?l)) with (batch_requests l).
  rewrite batch_requests_app, batch_requests_map_yield. apply IH.
Qed.

Lemma batch_requests_first w c b :
  batch_requests (fst (plan_script (page_plan c b 0 (pages_of w c b)))) = [b].
Proof.
  unfold pages_of. simpl.
  destruct (fst (entries_list w c b)) as [e|r]; [reflexivity|]. simpl.
  change (batch_requests (ARequest c b 0 :: ?l)) with (b :: batch_requests l).
  rewrite batch_requests_app, batch_requests_map_yield, batch_requests_later.
  reflexivity.
Qed.

Lemma batch_requests_plan w c bodies :
  let planned := plan_script (batch_plan w c bodies) in
  batch_requests (fst planned) `prefix_of` bodies
  /\ (snd planned = inr tt -> batch_requests (fst planned) = bodies).
Proof.
  revert c. induction bodies as [|b bs IH]; intros c; cbn zeta.
  { split; reflexivity. }
  cbn [batch_plan]. rewrite plan_script_app.
  pose proof (batch_requests_first w c b) as Hb.
  destruct (plan_script (page_plan c b 0 (pages_of w c b))) as [a [e|[]]];
    cbn [fst snd] in *.
  - rewrite Hb. split; [apply prefix_cons, prefix_nil|discriminate].
  - destruct (IH (S c)) as [IHp IHe]. rewrite batch_requests_app, Hb. split.
    + apply prefix_cons, IHp.
    + intros Hr. simpl. f_equal. apply IHe, Hr.
Qed.

(** C1. For every resolved list of scope identifiers of length N,
    ExecuteQuery goes through exactly ceil(N/50) batches, written
    (N + 49) / 50; each is non-empty and holds at most 50 identifiers; the
    i-th is the consecutive window of 50 starting at 50*i, so the order is
    kept; their concatenation is the resolved list; and these are the
    batches submitted, in this order: always a prefix of them, all of them
    when the run returns. *)
Theorem C1_batches_partition w q st pa st1 ids :
  resolve_project_ids w st = (pa, st1, inr ids) ->
  length (batches ids) = (length ids + 49) / 50
  /\ Forall (fun batch => batch <> [] /\ length batch <= 50) (batches ids)
  /\ (forall i batch, batches ids !! i = Some batch ->
        batch = take 50 (drop (50 * i) ids))
  /\ concat (batches ids) = ids
  /\ map resourceNames (batch_requests (script_of (ExecuteQuery w q st)))
       `prefix_of` batches ids
  /\ (result_of (ExecuteQuery w q st) = inr tt ->
      map resourceNames (batch_requests (script_of (ExecuteQuery w q st)))
      = batches ids).
Proof.
  intros Hres.
  destruct (script_projections w q st pa st1 ids Hres)
    as (_ & _ & _ & Hb & Hr). cbn zeta in *.
  destruct (batch_requests_plan w (ncalls st) (map (body_of q) (batches ids)))
    as [Hp He]. cbn zeta in *. fold (plan_of w q st ids) in Hp, He.
  assert (map resourceNames (map (body_of q) (batches ids)) = batches ids)
    as Hnames.
  { rewrite map_map. apply map_id. }
  repeat split.
  - apply batches_length.
  - apply batches_sizes.
  - intros i batch Hi. apply batches_lookup in Hi. tauto.
  - apply batches_concat.
  - rewrite Hb, <- Hnames at 1. destruct Hp as [k ->].
    rewrite map_app. apply prefix_app_r. reflexivity.
  - intros Hok. rewrite Hb, He, Hnames; [reflexivity|].
    rewrite <- Hr. exact Hok.
Qed.

(** The body of every request of a run, read off the plan. *)
Lemma request_body_spec w q st c b j :
  In (ARequest c b j) (script_of (ExecuteQuery w q st)) ->
  exists ids batch,
    result_of (resolve_project_ids w st) = inr ids
    /\ batches ids !! (c - ncalls st) = Some batch
    /\ batch = take 50 (drop (50 * (c - ncalls st)) ids)
    /\ b = {| resourceNames := batch; filter := q;
              orderBy := "timestamp desc" |}
    /\ 1 <= length batch <= 50
    /\ Forall (fun name => exists id, name = "projects/" +:+ id) batch.
Proof.
  intros Hin.
  destruct (resolve_project_ids w st) as [[pa st1] [e|ids]] eqn:Hres.
  { rewrite (run_ExecuteQuery_raise _ _ _ _ _ _ Hres) in Hin.
    destruct (resolve_quiet _ _ _ _ _ Hres) as ([->| ->] & _);
      simpl in Hin; intuition discriminate. }
  destruct (script_projections w q st pa st1 ids Hres) as (Hr & _).
  cbn zeta in Hr. apply In_requests in Hin. rewrite Hr in Hin.
  apply In_requests, In_script_plan in Hin as [p Hp].
  apply batch_plan_In in Hp as (_ & Hb & _).
  rewrite list_lookup_fmap in Hb.
  destruct (batches ids !! (c - ncalls st)) as [batch|] eqn:Hbatch;
    [|discriminate].
  injection Hb as <-. exists ids, batch.
  pose proof (batches_lookup _ _ _ Hbatch) as [Hwin _].
  pose proof (batches_sizes ids) as Hsz.
  rewrite Forall_lookup in Hsz. destruct (Hsz _ _ Hbatch) as [Hne Hle].
  repeat split; try assumption; try reflexivity.
  - destruct batch; [congruence|simpl; lia].
  - apply Forall_forall. intros name Hname.
    pose proof (resolve_names _ _ _ _ _ Hres) as Hall.
    rewrite Forall_forall in Hall. apply Hall, list_elem_of_In.
    apply batches_members with batch; [|apply list_elem_of_In, Hname].
    apply list_elem_of_In, list_elem_of_lookup. eauto.
Qed.

Lemma resolve_scope_ids w st ids :
  result_of (resolve_project_ids w st) = inr ids ->
  exists scope_ids,
    spec_scope_ids w st = inr scope_ids
    /\ ids = map (fun id => "projects/" +:+ id) scope_ids.
Proof.
  assert (forall ps,
             active_names ps
             = map (fun id => "projects/" +:+ id)
                   (map (fun p => default "None" (p !! "projectId"))
                        (List.filter
                           (fun p => bool_decide
                                       (p !! "lifecycleState" = Some "ACTIVE"))
                           ps))) as Hact.
  { intros ps. rewrite active_names_filter, map_map.
    apply map_ext. intros p. unfold project_name.
    destruct (p !! "projectId"); reflexivity. }
  rewrite run_resolve. unfold spec_scope_ids, discovered, result_of.
  destruct (search_all (self st)).
  - destruct (projects (self st)) as [|p ps] eqn:Hc.
    + destruct (GetProjects w) as [e|ps]; [discriminate|].
      intros [= <-]. eexists. split; [reflexivity|apply Hact].
    + intros [= <-]. eexists. split; [reflexivity|apply Hact].
  - intros [= <-]. eexists. split; reflexivity.
Qed.

(** C6. Every request ExecuteQuery issues carries exactly the body
    { resourceNames: the identifiers of its batch, filter: the caller's
    filter string unchanged, orderBy: "timestamp desc" }; the batch is the
    window of the scope identifiers for that call, holds between 1 and 50
    of them, and names each scope projects/<id> with the scope's own
    identifier <id>, in order. *)
Theorem C6_request_body w q st c b j :
  In (ARequest c b j) (script_of (ExecuteQuery w q st)) ->
  exists scope_ids ids batch,
    spec_scope_ids w st = inr scope_ids
    /\ result_of (resolve_project_ids w st) = inr ids
    /\ ids = map (fun id => "projects/" +:+ id) scope_ids
    /\ batches ids !! (c - ncalls st) = Some batch
    /\ batch = take 50 (drop (50 * (c - ncalls st)) ids)
    /\ b = {| resourceNames := batch; filter := q;
              orderBy := "timestamp desc" |}
    /\ resourceNames b
       = map (fun id => "projects/" +:+ id)
             (take 50 (drop (50 * (c - ncalls st)) scope_ids))
    /\ 1 <= length batch <= 50
    /\ Forall (fun name => exists id, name = "projects/" +:+ id) batch.
Proof.
  intros Hin.
  destruct (request_body_spec w q st c b j Hin)
    as (ids & batch & Hres & Hlook & Hwin & Hb & Hlen & Hform).
  destruct (resolve_scope_ids w st ids Hres) as (scope_ids & Hspec & Hids).
  exists scope_ids, ids, batch.
  split; [exact Hspec|]. split; [exact Hres|]. split; [exact Hids|].
  split; [exact Hlook|]. split; [exact Hwin|]. split; [exact Hb|].
  split; [|split; [exact Hlen|exact Hform]].
  rewrite Hb. cbn [resourceNames]. rewrite Hwin, Hids.
  rewrite <- !fmap_drop, <- !fmap_take. reflexivity.
Qed.

Lemma batch_plan_ext w w' c bodies :
  entries_list w' = entries_list w ->
  batch_plan w' c bodies = batch_plan w c bodies.
Proof.
  intros Hext. revert c. induction bodies as [|b bs IH]; intros c;
    [reflexivity|].
  cbn [batch_plan]. unfold pages_of. rewrite Hext, IH. reflexivity.
Qed.

Lemma is_active_true p :
  is_active p = true <-> p !! "lifecycleState" = Some "ACTIVE".
Proof. unfold is_active. apply bool_decide_eq_true. Qed.

Lemma filter_active_idem ps :
  List.filter is_active (List.filter is_active ps) = List.filter is_active ps.
Proof.
  induction ps as [|p ps IH]; [reflexivity|]. simpl.
  destruct (is_active p) eqn:Hp; [|exact IH].
  simpl. rewrite Hp, IH. reflexivity.
Qed.

(** From a store without cached scopes, discovering [ps] and discovering
    only the ACTIVE ones of [ps] give the same run. *)
Lemma silent_exclusion w w' q st ps :
  search_all (self st) = true ->
  discovered w st = inr ps ->
  projects (self st) = [] ->
  entries_list w' = entries_list w ->
  GetProjects w' = inr (List.filter is_active ps) ->
  script_of (ExecuteQuery w' q st) = script_of (ExecuteQuery w q st)
  /\ result_of (ExecuteQuery w' q st) = result_of (ExecuteQuery w q st).
Proof.
  intros Hall Hps Hnone Hext Hget.
  unfold discovered in Hps. rewrite Hnone in Hps.
  pose proof (run_resolve w st) as Hres.
  pose proof (run_resolve w' st) as Hres'.
  rewrite Hall, Hnone, Hps in Hres. rewrite Hall, Hnone, Hget in Hres'.
  cbv beta iota in Hres, Hres'.
  rewrite active_names_filter in Hres.
  rewrite active_names_filter, filter_active_idem in Hres'.
  destruct (run_ExecuteQuery w q st _ _ _ Hres) as [st1 ->].
  destruct (run_ExecuteQuery w' q st _ _ _ Hres') as [st2 ->].
  unfold script_of, result_of, plan_of. cbn [fst snd].
  rewrite (batch_plan_ext w w') by assumption.
  split; reflexivity.
Qed.

(** C2. In "all scopes" mode a discovered scope whose lifecycle state is
    not exactly "ACTIVE" is left out silently: every resource name of
    every request issued is the name of a discovered ACTIVE scope; the
    name of an inactive scope (that no ACTIVE scope shares) is in no
    request; the only line logged is the count of the ACTIVE scopes;
    resolving the scopes raises nothing; and the run is, action for action,
    the run that discovery of the ACTIVE scopes alone would give. *)
Theorem C2_inactive_scopes_excluded w q st ps :
  search_all (self st) = true ->
  discovered w st = inr ps ->
  let run := ExecuteQuery w q st in
  (forall c b j name,
      In (ARequest c b j) (script_of run) -> In name (resourceNames b) ->
      exists p, In p ps /\ p !! "lifecycleState" = Some "ACTIVE"
                /\ name = project_name p)
  /\ (forall p,
        In p ps -> p !! "lifecycleState" <> Some "ACTIVE" ->
        (forall p', In p' ps -> p' !! "lifecycleState" = Some "ACTIVE" ->
                    project_name p' <> project_name p) ->
        forall c b j, In (ARequest c b j) (script_of run) ->
                      ~ In (project_name p) (resourceNames b))
  /\ logged (script_of run)
     = ["Projects being queried: "
          +:+ pretty (length (List.filter is_active ps))]
  /\ result_of (resolve_project_ids w st)
     = inr (map project_name (List.filter is_active ps))
  /\ (projects (self st) = [] ->
      forall w', entries_list w' = entries_list w ->
                 GetProjects w' = inr (List.filter is_active ps) ->
                 script_of (ExecuteQuery w' q st) = script_of run
                 /\ result_of (ExecuteQuery w' q st) = result_of run).
Proof.
  intros Hall Hps run.
  destruct (resolve_all w st ps Hall Hps) as (pa & st1 & Hres).
  assert (forall c b j name,
      In (ARequest c b j) (script_of run) -> In name (resourceNames b) ->
      exists p, In p ps /\ p !! "lifecycleState" = Some "ACTIVE"
                /\ name = project_name p) as Hnames.
  { intros c b j name Hin Hname.
    destruct (request_body_spec w q st c b j Hin)
      as (ids & batch & Hids & Hbatch & _ & -> & _).
    rewrite Hres in Hids. injection Hids as <-. simpl in Hname.
    assert (In name (map project_name (List.filter is_active ps))) as Hn.
    { apply batches_members with batch; [|exact Hname].
      apply list_elem_of_In, list_elem_of_lookup. eauto. }
    apply in_map_iff in Hn as (p & <- & Hp).
    apply filter_In in Hp as [Hp Hact]. apply is_active_true in Hact.
    exists p. auto. }
  split; [|split; [|split; [|split]]].
  - exact Hnames.
  - intros p Hp Hinactive Hfresh c b j Hin Hname.
    destruct (Hnames c b j _ Hin Hname) as (p' & Hp' & Hact & Heq).
    exact (Hfresh p' Hp' Hact (eq_sym Heq)).
  - destruct (script_projections w q st pa st1 _ Hres) as (_ & _ & Hl & _).
    cbn zeta in Hl. subst run. rewrite Hl. unfold count_message.
    rewrite length_map. reflexivity.
  - rewrite Hres. reflexivity.
  - intros Hnone w' Hext Hget.
    apply (silent_exclusion w w' q st ps); assumption.
Qed.

(** *** The empty result *)

Lemma pull_spec n (g : Gen unit) st :
  pull n g st
  = (take n (yields (script_of (g st))),
     if n <=? length (yields (script_of (g st))) then Suspended
     else if n =? S (length (yields (script_of (g st)))) then
            status_of (result_of (g st))
          else Returned).
Proof.
  unfold pull, script_of, result_of. destruct (g st) as [[script st'] r].
  cbn [fst snd]. rewrite yields_executed. reflexivity.
Qed.

(** C9, as the code has it. In "all scopes" mode, when the scopes the run
    works from hold none that is ACTIVE (in particular when discovery
    returns zero scopes), ExecuteQuery logs a count of 0, issues no
    request, yields nothing and ends without an error.  A failure of the
    discovery call is not absorbed: it reaches the consumer at the first
    call of [next], before any request is issued; the generator is then
    finished, and later calls see [StopIteration]. *)
Theorem C9_empty_discovery w q st :
  search_all (self st) = true ->
  let run := ExecuteQuery w q st in
  (forall ps,
      discovered w st = inr ps -> List.filter is_active ps = [] ->
      requests (script_of run) = []
      /\ yields (script_of run) = []
      /\ logged (script_of run) = ["Projects being queried: 0"]
      /\ result_of run = inr tt
      /\ (forall n, 1 <= n -> pull n (ExecuteQuery w q) st = ([], Returned)))
  /\ (forall e,
        discovered w st = inl e ->
        requests (script_of run) = []
        /\ yields (script_of run) = []
        /\ result_of run = inl e
        /\ pull 1 (ExecuteQuery w q) st = ([], Raised e)
        /\ (forall n, 2 <= n ->
              pull n (ExecuteQuery w q) st = ([], Returned))).
Proof.
  intros Hall run. split.
  - intros ps Hps Hnone.
    destruct (resolve_all w st ps Hall Hps) as (pa & st1 & Hres).
    rewrite Hnone in Hres. simpl map in Hres.
    destruct (script_projections w q st pa st1 [] Hres)
      as (Hr & Hy & Hl & _ & Hres'). cbn zeta in *.
    change (plan_script (plan_of w q st [])) with
      (@nil Action, @inr exn unit tt) in *.
    fold run in Hr, Hy, Hl, Hres'.
    repeat split; try assumption.
    intros n Hn. rewrite pull_spec. fold run. rewrite Hy, Hres'.
    destruct n as [|[|n]]; [lia|reflexivity|reflexivity].
  - intros e He. unfold discovered in He.
    destruct (projects (self st)) eqn:Hc; [|discriminate].
    pose proof (run_resolve w st) as Hres. rewrite Hall, Hc, He in Hres.
    pose proof (run_ExecuteQuery_raise w q st _ _ _ Hres) as Hrun.
    fold run in Hrun.
    assert (requests (script_of run) = [] /\ yields (script_of run) = []
            /\ result_of run = inl e) as (Hr & Hy & Hres').
    { rewrite Hrun. repeat split; reflexivity. }
    split; [exact Hr|]. split; [exact Hy|]. split; [exact Hres'|]. split.
    + rewrite pull_spec. fold run. rewrite Hy, Hres'. reflexivity.
    + intros n Hn. rewrite pull_spec. fold run. rewrite Hy, Hres'.
      destruct n as [|[|n]]; [lia|lia|reflexivity].
Qed.

(** *** The output as a concatenation *)

Lemma fetch_entries_page_plan c b j pages :
  map fetch_entries (page_plan c b j pages) = map page_entries pages.
Proof.
  revert j. induction pages as [|p rest IH]; intros j; [reflexivity|].
  simpl. rewrite IH. reflexivity.
Qed.

Lemma fetch_ok_page_plan c b j pages :
  Forall page_ok pages -> Forall fetch_ok (page_plan c b j pages).
Proof.
  intros H. revert j. induction H as [|p rest Hp _ IH]; intros j;
    constructor; [exact Hp|apply IH].
Qed.

Lemma plan_entries w q c bs :
  concat (map fetch_entries (batch_plan w c (map (body_of q) bs)))
  = concat (imap (fun i batch =>
                    concat (map page_entries
                                (pages_of w (c + i) (body_of q batch)))) bs).
Proof.
  revert c. induction bs as [|batch bs IH]; intros c; [reflexivity|].
  cbn [map batch_plan]. rewrite map_app, concat_app, fetch_entries_page_plan.
  rewrite imap_cons. cbn [concat]. rewrite Nat.add_0_r. f_equal.
  rewrite IH. f_equal. apply imap_ext. intros i x _. simpl.
  replace (S (c + i)) with (c + S i) by lia. reflexivity.
Qed.

Lemma plan_ok w q c bs :
  (forall i batch, bs !! i = Some batch ->
     Forall page_ok (pages_of w (c + i) (body_of q batch))) ->
  Forall fetch_ok (batch_plan w c (map (body_of q) bs)).
Proof.
  revert c. induction bs as [|batch bs IH]; intros c Hok; [constructor|].
  cbn [map batch_plan]. apply Forall_app. split.
  - apply fetch_ok_page_plan. specialize (Hok 0 batch eq_refl).
    rewrite Nat.add_0_r in Hok. exact Hok.
  - apply IH. intros i b Hb. specialize (Hok (S i) b Hb).
    replace (S c + i) with (c + S i) by lia. exact Hok.
Qed.

(** C5. When every page arrives, the output of ExecuteQuery is the
    concatenation, batch after batch in submission order and page after
    page, of each page's entries in their order, where a page without an
    "entries" key contributes nothing and raises nothing; the run ends
    without an error, and [n] calls of [next] deliver the first [n]
    entries of that concatenation. *)
Theorem C5_output_concatenation w q st pa st1 ids :
  resolve_project_ids w st = (pa, st1, inr ids) ->
  (forall i batch, batches ids !! i = Some batch ->
     Forall page_ok (pages_of w (ncalls st + i) (body_of q batch))) ->
  yields (script_of (ExecuteQuery w q st))
    = expected_entries w q (ncalls st) ids
  /\ result_of (ExecuteQuery w q st) = inr tt
  /\ (forall n, fst (pull n (ExecuteQuery w q) st)
                = take n (expected_entries w q (ncalls st) ids))
  /\ (forall response : Response,
        response !! "entries" = None -> page_entries (inr response) = []).
Proof.
  intros Hres Hpages.
  destruct (script_projections w q st pa st1 ids Hres)
    as (_ & Hy & _ & _ & Hr). cbn zeta in *.
  pose proof (plan_ok w q (ncalls st) (batches ids) Hpages) as Hok.
  fold (plan_of w q st ids) in Hok.
  rewrite (plan_script_ok _ Hok) in Hr.
  rewrite (yields_plan_ok _ Hok) in Hy. unfold plan_of in Hy.
  rewrite plan_entries in Hy. fold (expected_entries w q (ncalls st) ids) in Hy.
  split; [exact Hy|]. split; [exact Hr|]. split.
  - intros n. rewrite pull_spec, Hy. reflexivity.
  - intros response Hnone. simpl. rewrite Hnone. reflexivity.
Qed.

(** *** No fetch is planned twice *)

Lemma page_plan_keys c b j pages :
  map request_key (map fetch_request (page_plan c b j pages))
  = map (fun k => (c, k)) (seq j (length pages)).
Proof.
  revert j. induction pages as [|p rest IH]; intros j; [reflexivity|].
  simpl. rewrite IH. reflexivity.
Qed.

Lemma batch_plan_keys_NoDup w c bodies :
  NoDup (map request_key (map fetch_request (batch_plan w c bodies))).
Proof.
  revert c. induction bodies as [|b bs IH]; intros c; [constructor|].
  cbn [batch_plan]. rewrite !map_app. apply NoDup_app. split; [|split].
  - rewrite page_plan_keys. apply NoDup_fmap_2.
    + intros x y [= ->]. reflexivity.
    + apply NoDup_seq.
  - intros [c' j'] Hin Hin'. rewrite page_plan_keys in Hin.
    apply list_elem_of_fmap in Hin as (k & [= -> ->] & _).
    apply list_elem_of_fmap in Hin' as ([[c' b'] j'] & Hkey & Hin').
    apply list_elem_of_fmap in Hin' as ([[[c'' b''] j''] p] & Hreq & Hin').
    unfold fetch_request in Hreq. simpl in Hreq. injection Hreq as -> -> ->.
    unfold request_key in Hkey. simpl in Hkey. injection Hkey as -> ->.
    apply list_elem_of_In, batch_plan_In in Hin' as (Hle & _). lia.
  - apply IH.
Qed.

(** C4. A page request that fails is not retried: the script ends with
    that request, the exception the platform produced reaches the consumer
    unchanged, no request is issued twice, and the consumer has by then
    received exactly the entries of the pages that arrived before, in page
    order: the call of [next] after the last of them raises the exception,
    and the generator is then finished (later calls see [StopIteration]).
    In particular two pages of 3 and 2 entries followed by a failing batch
    give 5 entries and then the exception. *)
Theorem C4_failure_propagates w q st pa st1 ids pre c b j e post :
  resolve_project_ids w st = (pa, st1, inr ids) ->
  plan_of w q st ids = pre ++ (c, b, j, inl e) :: post ->
  Forall fetch_ok pre ->
  let run := ExecuteQuery w q st in
  let got := concat (map fetch_entries pre) in
  result_of run = inl e
  /\ yields (script_of run) = got
  /\ requests (script_of run) = map fetch_request pre ++ [(c, b, j)]
  /\ NoDup (map request_key (requests (script_of run)))
  /\ (exists before, script_of run = before ++ [ARequest c b j])
  /\ (forall n, n <= length got ->
        pull n (ExecuteQuery w q) st = (take n got, Suspended))
  /\ pull (S (length got)) (ExecuteQuery w q) st = (got, Raised e)
  /\ (forall n, S (length got) < n ->
        pull n (ExecuteQuery w q) st = (got, Returned)).
Proof.
  intros Hres Hplan Hok run got.
  destruct (script_projections w q st pa st1 ids Hres)
    as (Hr & Hy & _ & _ & Hres'). cbn zeta in *. fold run in Hr, Hy, Hres'.
  destruct (run_ExecuteQuery w q st pa st1 ids Hres) as [st' Hrun].
  pose proof (resolve_quiet _ _ _ _ _ Hres) as (_ & Hn & _).
  unfold plan_of in Hrun. rewrite Hn in Hrun. fold (plan_of w q st ids) in Hrun.
  fold run in Hrun.
  assert (plan_script (plan_of w q st ids)
          = (fst (plan_script pre) ++ [ARequest c b j], inl e)) as Hfail.
  { rewrite Hplan. apply plan_script_fail. exact Hok. }
  rewrite Hfail in Hr. rewrite Hfail in Hy. rewrite Hfail in Hres'.
  rewrite Hfail in Hrun.
  cbn [fst snd] in *.
  rewrite requests_app, (requests_plan_ok _ Hok) in Hr.
  rewrite yields_app, (yields_plan_ok _ Hok), app_nil_r in Hy.
  fold got in Hy.
  split; [exact Hres'|]. split; [exact Hy|]. split; [exact Hr|].
  split; [|split; [|split; [|split]]].
  - rewrite Hr.
    pose proof (batch_plan_keys_NoDup w (ncalls st)
                  (map (body_of q) (batches ids))) as Hnd.
    fold (plan_of w q st ids) in Hnd. rewrite Hplan in Hnd.
    rewrite !map_app in Hnd. rewrite map_app.
    simpl in Hnd. apply NoDup_app in Hnd as (Hnd1 & Hnd2 & Hnd3).
    apply NoDup_app. split; [exact Hnd1|]. split.
    + intros x Hx Hx'. apply (Hnd2 x Hx).
      apply list_elem_of_singleton in Hx'. subst x. left.
    + apply NoDup_singleton.
  - rewrite Hrun. unfold script_of. cbn [fst].
    eexists. rewrite (app_assoc (loop_service _ _)), app_comm_cons, app_assoc.
    reflexivity.
  - intros n Hle. rewrite pull_spec. fold run. rewrite Hy.
    destruct (Nat.leb_spec n (length got)); [reflexivity|lia].
  - rewrite pull_spec. fold run. rewrite Hy, Hres'.
    rewrite take_ge by lia.
    destruct (Nat.leb_spec (S (length got)) (length got)); [lia|].
    rewrite Nat.eqb_refl. reflexivity.
  - intros n Hlt. rewrite pull_spec. fold run. rewrite Hy, Hres'.
    rewrite take_ge by lia.
    destruct (Nat.leb_spec n (length got)); [lia|].
    destruct (Nat.eqb_spec n (S (length got))); [lia|reflexivity].
Qed.

(** *** Laziness *)

Lemma executed_app_quiet n s1 s2 :
  yields s1 = [] -> executed (S n) (s1 ++ s2) = s1 ++ executed (S n) s2.
Proof.
  induction s1 as [|a s1 IH]; intros Hq; [reflexivity|].
  destruct a; try discriminate Hq; simpl; f_equal; apply IH, Hq.
Qed.

(** C3, as the code has it. A consumer that stops early forces no
    further request: whenever the first [m] fetches of the plan arrive and
    hold [n] entries between them, [n] calls of [next] issue requests among
    those [m] only, and return the first [n] of their entries.  In
    particular, when the first page of the first batch holds an entry,
    consuming the first element issues exactly one request, that page's,
    however many batches there are. *)
Theorem C3_lazy_requests w q st pa st1 ids :
  resolve_project_ids w st = (pa, st1, inr ids) ->
  let script := script_of (ExecuteQuery w q st) in
  let plan := plan_of w q st ids in
  (forall n m,
      Forall fetch_ok (take m plan) ->
      n <= length (concat (map fetch_entries (take m plan))) ->
      requests (executed n script) `prefix_of` map fetch_request (take m plan)
      /\ yields (executed n script)
         = take n (concat (map fetch_entries (take m plan))))
  /\ (forall batch rest response entry more,
        batches ids = batch :: rest ->
        fst (entries_list w (ncalls st) (body_of q batch)) = inr response ->
        entries_of response = entry :: more ->
        requests (executed 1 script) = [(ncalls st, body_of q batch, 0)]
        /\ pull 1 (ExecuteQuery w q) st = ([entry], Suspended)).
Proof.
  intros Hres script plan.
  destruct (run_ExecuteQuery w q st pa st1 ids Hres) as [st' Hrun].
  pose proof (resolve_quiet _ _ _ _ _ Hres) as (Hpa & Hn & _).
  destruct (quiet_requests _ _ Hpa) as (Hrpa & Hypa & _ & _).
  destruct (loop_service_quiet st1 (range 0 (length ids) 50))
    as (Hrsv & Hysv & _ & _).
  unfold plan_of in Hrun. rewrite Hn in Hrun.
  fold (plan_of w q st ids) in Hrun. fold plan in Hrun.
  assert (script = (pa ++ ALog (count_message ids)
                       :: loop_service st1 (range 0 (length ids) 50))
                   ++ fst (plan_script plan)) as Hscript.
  { unfold script. rewrite Hrun. unfold script_of. cbn [fst].
    rewrite <- app_assoc. reflexivity. }
  set (head := pa ++ ALog (count_message ids)
                 :: loop_service st1 (range 0 (length ids) 50)) in *.
  assert (requests head = [] /\ yields head = []) as [Hrh Hyh].
  { unfold head. rewrite requests_app, yields_app, Hrpa, Hypa.
    change (requests (ALog ?m :: ?l)) with (requests l).
    change (yields (ALog ?m :: ?l)) with (yields l). auto. }
  split.
  - intros n m Hok Hlen.
    assert (fst (plan_script plan)
            = fst (plan_script (take m plan))
              ++ fst (plan_script (drop m plan))) as Hsplit.
    { rewrite <- (take_drop m plan) at 1.
      rewrite plan_script_app, (plan_script_ok _ Hok). reflexivity. }
    rewrite Hscript, Hsplit, app_assoc.
    assert (yields (head ++ fst (plan_script (take m plan)))
            = concat (map fetch_entries (take m plan))) as Hy.
    { rewrite yields_app, Hyh, (yields_plan_ok _ Hok). reflexivity. }
    rewrite executed_app_le by (rewrite Hy; exact Hlen). split.
    + replace (map fetch_request (take m plan))
        with (requests (head ++ fst (plan_script (take m plan)))).
      * apply requests_prefix, executed_prefix.
      * rewrite requests_app, Hrh, (requests_plan_ok _ Hok). reflexivity.
    + rewrite yields_executed, Hy. reflexivity.
  - intros batch rest response entry more Hb Hpage Hentries.
    assert (fst (plan_script plan)
            = ARequest (ncalls st) (body_of q batch) 0
              :: AYield entry
              :: map AYield more
              ++ fst (plan_script
                        (page_plan (ncalls st) (body_of q batch) 1
                           (snd (entries_list w (ncalls st) (body_of q batch)))
                         ++ batch_plan w (S (ncalls st))
                              (map (body_of q) rest)))) as Hfirst.
    { unfold plan, plan_of. rewrite Hb. cbn [map batch_plan].
      unfold pages_of. rewrite Hpage. cbn [page_plan app plan_script fst].
      rewrite Hentries. reflexivity. }
    assert (executed 1 script
            = head ++ [ARequest (ncalls st) (body_of q batch) 0;
                       AYield entry]) as Hexec.
    { rewrite Hscript, Hfirst, executed_app_quiet by exact Hyh.
      f_equal. simpl. destruct (map AYield more ++ _); reflexivity. }
    split.
    + rewrite Hexec, requests_app, Hrh. reflexivity.
    + rewrite pull_spec. fold script. rewrite Hscript, Hfirst, yields_app, Hyh.
      reflexivity.
Qed.

End LogClaims.

(** ** The claims about [QueryLogs] *)

Module CliClaims.

Import gcp_cli.

Lemma append_cons x (a b : string) : String x a +:+ b = String x (a +:+ b).
Proof. reflexivity. Qed.

Lemma append_assoc (a b c : string) : (a +:+ b) +:+ c = a +:+ (b +:+ c).
Proof.
  induction a as [|x a IH]; [reflexivity|].
  rewrite !append_cons, IH. reflexivity.
Qed.

(** C7. With start 2021-01-01T00:00:00Z, end 2021-01-02T00:00:00Z and
    caller filter severity=ERROR, the filter assembled by QueryLogs is
    timestamp>="2021-01-01T00:00:00Z" AND timestamp<="2021-01-02T00:00:00Z"
    AND severity=ERROR, character for character; and for all arguments the
    assembled filter is the pieces that are given, in that order, with AND
    between consecutive ones and nowhere else. *)
Theorem C7_filter_assembly :
  (forall p kf sa,
      assemble_filter
        {| project := p; key_file := kf; search_all := sa;
           start := Some "2021-01-01T00:00:00Z";
           end_ := Some "2021-01-02T00:00:00Z";
           filter := Some "severity=ERROR" |}
      = "timestamp>=" +:+ dquote +:+ "2021-01-01T00:00:00Z" +:+ dquote
        +:+ " AND timestamp<=" +:+ dquote +:+ "2021-01-02T00:00:00Z"
        +:+ dquote +:+ " AND severity=ERROR")
  /\ (forall args,
        assemble_filter args = String.concat "AND " (spec_pieces args)).
Proof.
  split; [reflexivity|].
  intros [p kf sa s e f]. unfold assemble_filter, spec_pieces.
  cbn [start end_ filter].
  destruct (truthy_str s), (truthy_str e), (truthy_str f);
    cbn [andb orb app String.concat];
    repeat rewrite append_assoc; reflexivity.
Qed.

Lemma format_float_raises q :
  format_s (PyFloat q)
  = inl (ValueError "Unknown format code 's' for object of type 'float'").
Proof. reflexivity. Qed.

Section WithInterpreter.

Variable py : strptime.Interpreter.

Lemma QueryLogs_after_check w now args :
  check_bounds py args = inr tt ->
  QueryLogs py w now args
  = (announcement args,
     inl (ValueError "Unknown format code 's' for object of type 'float'")).
Proof. intros Hok. unfold QueryLogs. rewrite Hok. reflexivity. Qed.

Lemma QueryLogs_exit w now args e :
  check_bounds py args = inl e ->
  QueryLogs py w now args = (announcement args, inl e).
Proof. intros Hbad. unfold QueryLogs. rewrite Hbad. reflexivity. Qed.









(** For every entry the generator yields, [persist] opens the file and
    then fails on the unbound name, so the loop stops at the first entry
    with nothing written. *)
Lemma for_gen_persist_first filename r quiet entry rest :
  log.yields quiet = [] ->
  for_gen (quiet ++ log.AYield entry :: rest) r (persist filename)
  = (quiet ++ [log.AOpen filename],
     inl (NameError "name 'line' is not defined")).
Proof.
  intros Hq. induction quiet as [|a quiet IH]; [reflexivity|].
  destruct a; try discriminate Hq; simpl;
    rewrite (IH Hq); reflexivity.
Qed.

(** C10 fails on the code. QueryLogs never appends a record: whatever the
    platform answers, no [json.dump] is performed and the function never
    returns normally; once the bounds pass, it stops at line 189, where a
    float is formatted with [{0:s}], before ExecuteQuery is started. *)
Theorem C10_nothing_persisted w now args :
  Forall (fun a => forall f v, a <> log.AJsonDump f v)
         (fst (QueryLogs py w now args))
  /\ snd (QueryLogs py w now args) <> inr tt
  /\ (check_bounds py args = inr tt ->
      QueryLogs py w now args
      = (announcement args,
         inl (ValueError
                "Unknown format code 's' for object of type 'float'"))).
Proof.
  assert (Forall (fun a => forall f v, a <> log.AJsonDump f v)
                 (announcement args)) as Hquiet.
  { unfold announcement. destruct (search_all args); repeat constructor.
    discriminate. }
  destruct (check_bounds py args) as [e|[]] eqn:Hcheck.
  - rewrite (QueryLogs_exit w now args e Hcheck).
    split; [exact Hquiet|]. split; [discriminate|discriminate].
  - rewrite (QueryLogs_after_check w now args Hcheck).
    split; [exact Hquiet|]. split; [discriminate|reflexivity].
Qed.

End WithInterpreter.

End CliClaims.

(** ** The claims on concrete runs *)

Module Checks.

Import log LogFacts LogClaims.
Import Examples.

Lemma resolve52 w :
  GetProjects w = inr scopes52 ->
  resolve_project_ids w all_scopes = (discovery_call, resolved52, inr ids51).
Proof.
  intros H. rewrite (run_resolve w all_scopes).
  change (search_all (self all_scopes)) with true.
  change (projects (self all_scopes)) with (@nil Project).
  cbv beta iota. rewrite H.
  unfold discovery_call, resolved52, ids51. reflexivity.
Defined.

(** 51 ACTIVE scopes are queried in two batches, of 50 and 1, submitted in
    this order. *)
Lemma C1_two_batches :
  length (batches ids51) = 2
  /\ concat (batches ids51) = ids51
  /\ map resourceNames
       (batch_requests
          (script_of (ExecuteQuery all_pages_arrive "severity=ERROR"
                                   all_scopes)))
     = batches ids51.
Proof.
  assert (result_of (ExecuteQuery all_pages_arrive "severity=ERROR" all_scopes)
          = inr tt) as Hok by (vm_compute; reflexivity).
  destruct (C1_batches_partition all_pages_arrive "severity=ERROR" all_scopes
              discovery_call resolved52 ids51
              (resolve52 all_pages_arrive (eq_refl (inr scopes52))))
    as (Hlen & _ & _ & Hcat & _ & Hall).
  specialize (Hall Hok).
  split; [|split; [exact Hcat|exact Hall]].
  vm_compute in Hlen |- *. exact Hlen.
Defined.

(** Of the 52 scopes discovered, the one awaiting deletion is not
    counted and not named. *)
Lemma C2_one_inactive_of_52 :
  logged (script_of (ExecuteQuery all_pages_arrive "severity=ERROR"
                                  all_scopes))
  = ["Projects being queried: 51"]
  /\ result_of (resolve_project_ids all_pages_arrive all_scopes)
     = inr (map project_name (List.filter is_active scopes52)).
Proof.
  destruct (C2_inactive_scopes_excluded all_pages_arrive "severity=ERROR"
              all_scopes scopes52 (eq_refl true) (eq_refl (inr scopes52)))
    as (_ & _ & Hlog & Hres & _).
  split; [|exact Hres].
  vm_compute in Hlog |- *. exact Hlog.
Defined.

(** C3 fails as stated: when the first batch comes back empty, the first
    element of a two-batch query is only found in the second batch, and
    consuming it has issued the first-page requests of both batches. *)
Lemma C3_first_batch_empty :
  length (batches ids51) = 2
  /\ pull 1 (ExecuteQuery first_batch_empty "severity=ERROR") all_scopes
     = ([entry 1], Suspended)
  /\ requests (executed 1 (script_of (ExecuteQuery first_batch_empty
                                        "severity=ERROR" all_scopes)))
     = [(0, body_of "severity=ERROR" (take 50 ids51), 0);
        (1, body_of "severity=ERROR" (drop 50 ids51), 0)]
  /\ length (requests (executed 1 (script_of (ExecuteQuery first_batch_empty
                                                "severity=ERROR" all_scopes))))
     = 2.
Proof. vm_compute. repeat split; reflexivity. Qed.

(** With an entry on the first page, the first element costs one request. *)
Lemma C3_first_element_one_request :
  requests (executed 1 (script_of (ExecuteQuery two_pages_then_failure
                                     "severity=ERROR" all_scopes)))
  = [(ncalls all_scopes, body_of "severity=ERROR" (take 50 ids51), 0)]
  /\ pull 1 (ExecuteQuery two_pages_then_failure "severity=ERROR") all_scopes
     = ([entry 1], Suspended).
Proof.
  assert (batches ids51 = [take 50 ids51; drop 50 ids51]) as Hb
    by (vm_compute; reflexivity).
  assert (entries_of (<["entries" := [entry 1; entry 2; entry 3]]> ∅)
          = [entry 1; entry 2; entry 3]) as He by (vm_compute; reflexivity).
  destruct (C3_lazy_requests two_pages_then_failure "severity=ERROR"
              all_scopes discovery_call resolved52 ids51
              (resolve52 two_pages_then_failure (eq_refl (inr scopes52))))
    as [_ Hfirst].
  exact (Hfirst (take 50 ids51) [drop 50 ids51]
                (<["entries" := [entry 1; entry 2; entry 3]]> ∅)
                (entry 1) [entry 2; entry 3] Hb eq_refl He).
Defined.

(** Two pages of 3 and 2 entries, then a failing batch: five entries in
    page order, then the failure. *)
Lemma C4_five_entries_then_failure :
  pull 5 (ExecuteQuery two_pages_then_failure "severity=ERROR") all_scopes
  = ([entry 1; entry 2; entry 3; entry 4; entry 5], Suspended)
  /\ pull 6 (ExecuteQuery two_pages_then_failure "severity=ERROR") all_scopes
     = ([entry 1; entry 2; entry 3; entry 4; entry 5],
        Raised (HttpError "backend failure"))
  /\ pull 7 (ExecuteQuery two_pages_then_failure "severity=ERROR") all_scopes
     = ([entry 1; entry 2; entry 3; entry 4; entry 5], Returned).
Proof.
  assert (plan_of two_pages_then_failure "severity=ERROR" all_scopes ids51
          = arrived ++ [(1, b1, 0, inl (HttpError "backend failure"))])
    as Hplan by (vm_compute; reflexivity).
  assert (Forall fetch_ok arrived) as Hok by (repeat constructor).
  destruct (C4_failure_propagates two_pages_then_failure "severity=ERROR"
              all_scopes discovery_call resolved52 ids51
              arrived 1 b1 0 (HttpError "backend failure") []
              (resolve52 two_pages_then_failure (eq_refl (inr scopes52)))
              Hplan Hok)
    as (_ & _ & _ & _ & _ & Hbefore & Hraise & Hafter).
  assert (5 <= length (concat (map fetch_entries arrived))) as H5
    by (vm_compute; lia).
  assert (S (length (concat (map fetch_entries arrived))) < 7) as H7
    by (vm_compute; lia).
  specialize (Hbefore 5 H5). specialize (Hafter 7 H7).
  vm_compute in Hbefore, Hraise, Hafter |- *.
  split; [exact Hbefore|]. split; [exact Hraise|exact Hafter].
Defined.

(** Four pages over two batches, one of them without an [entries] key. *)
Lemma C5_five_entries :
  yields (script_of (ExecuteQuery all_pages_arrive "severity=ERROR"
                                  all_scopes))
  = [entry 1; entry 2; entry 3; entry 4; entry 5]
  /\ result_of (ExecuteQuery all_pages_arrive "severity=ERROR" all_scopes)
     = inr tt.
Proof.
  assert (forall i batch, batches ids51 !! i = Some batch ->
            Forall page_ok
              (pages_of all_pages_arrive (ncalls all_scopes + i)
                 (body_of "severity=ERROR" batch))) as Hpages.
  { intros [|i] batch _; repeat constructor. }
  destruct (C5_output_concatenation all_pages_arrive "severity=ERROR"
              all_scopes discovery_call resolved52 ids51
              (resolve52 all_pages_arrive (eq_refl (inr scopes52))) Hpages)
    as (Hy & Hr & _).
  split; [|exact Hr]. vm_compute in Hy |- *. exact Hy.
Defined.

(** The request of the second batch of the 51 scopes. *)
Lemma C6_second_batch_body :
  resourceNames b1 = ["projects/p51"]
  /\ exists scope_ids,
       spec_scope_ids all_pages_arrive all_scopes = inr scope_ids
       /\ resourceNames b1
          = map (fun id => "projects/" +:+ id)
                (take 50 (drop (50 * (1 - ncalls all_scopes)) scope_ids))
       /\ b1 = {| resourceNames := resourceNames b1;
                  filter := "severity=ERROR"; orderBy := "timestamp desc" |}.
Proof.
  assert (In (ARequest 1 b1 0)
             (script_of (ExecuteQuery all_pages_arrive "severity=ERROR"
                                      all_scopes))) as Hin.
  { apply (nth_error_In _ 10). vm_compute. reflexivity. }
  destruct (C6_request_body all_pages_arrive "severity=ERROR" all_scopes
              1 b1 0 Hin)
    as (scope_ids & ids & batch & Hspec & _ & _ & _ & _ & Hb & Hnames & _).
  split; [vm_compute; reflexivity|].
  exists scope_ids. split; [exact Hspec|]. split; [exact Hnames|].
  rewrite Hb at 1. rewrite Hb. reflexivity.
Defined.

(** C9 fails as stated: a failing discovery is not an empty result; its
    exception ends the sequence. *)
Lemma C9_discovery_failure_raises :
  result_of (ExecuteQuery discovery_fails "severity=ERROR" all_scopes)
  = inl (RuntimeError "discovery failed")
  /\ pull 1 (ExecuteQuery discovery_fails "severity=ERROR") all_scopes
     = ([], Raised (RuntimeError "discovery failed"))
  /\ pull 2 (ExecuteQuery discovery_fails "severity=ERROR") all_scopes
     = ([], Returned).
Proof. vm_compute. repeat split; reflexivity. Qed.

(** Zero scopes discovered: nothing requested, nothing yielded, no
    error. *)
Lemma C9_zero_scopes :
  requests (script_of (ExecuteQuery no_scopes "severity=ERROR" all_scopes))
  = []
  /\ pull 1 (ExecuteQuery no_scopes "severity=ERROR") all_scopes
     = ([], Returned).
Proof.
  destruct (C9_empty_discovery no_scopes "severity=ERROR" all_scopes
              (eq_refl true)) as [Hnone _].
  destruct (Hnone [] (eq_refl (inr [])) (eq_refl [])) as (Hr & _ & _ & _ & Hpull).
  split; [exact Hr|]. apply Hpull. apply le_n.
Defined.

End Checks.

Module CliChecks.

Import gcp_cli CliClaims Examples.



(** C10 on a run that would have five entries to persist: QueryLogs
    stops at the file name, with nothing requested and nothing written;
    and had it reached the loop, the first entry would have stopped it. *)
Lemma C10_five_entries_none_persisted :
  QueryLogs CPython311.interpreter all_pages_arrive (3208972801 # 2)
            (cli_args None None (Some "severity=ERROR"))
  = ([], inl (ValueError "Unknown format code 's' for object of type 'float'"))
  /\ for_gen [log.ARequest 0 (log.body_of "severity=ERROR" ["projects/main"]) 0;
              log.AYield (entry 1); log.AYield (entry 2)]
             (inr tt) (persist "gcp_log_query.json")
     = ([log.ARequest 0 (log.body_of "severity=ERROR" ["projects/main"]) 0;
         log.AOpen "gcp_log_query.json"],
        inl (NameError "name 'line' is not defined")).
Proof. split; reflexivity. Qed.

End CliChecks.

(** ** More about [GclApi] and [ExecuteQuery] *)

Module LogExtra.

Import log LogFacts LogClaims LogMore.

(** *** The handle *)

(** X3. [GclApi] creates the service handle at most once per object: a
    second call in a row performs no action, changes nothing and returns
    the same handle; and only the creating call resets [self.projects]. *)
Theorem GclApi_idempotent st :
  script_of (gbind GclApi (fun _ => GclApi) st) = script_of (GclApi st)
  /\ final_store (gbind GclApi (fun _ => GclApi) st) = final_store (GclApi st)
  /\ result_of (gbind GclApi (fun _ => GclApi) st) = result_of (GclApi st)
  /\ (forall c, gcl_api_client (self st) = Some c ->
                GclApi st = ([], st, inr c))
  /\ (gcl_api_client (self st) = None ->
      script_of (GclApi st)
        = [ACreateService "logging" "v2" (key_file (self st))]
      /\ projects (self (final_store (GclApi st))) = []
      /\ gcl_api_client (self (final_store (GclApi st)))
         = Some (Service "logging" "v2" (key_file (self st)))
      /\ ncalls (final_store (GclApi st)) = ncalls st).
Proof.
  destruct st as [[pid kf [c|] sa ps] n];
    (split; [reflexivity|split; [reflexivity|split; [reflexivity|split]]]).
  - intros c' [= <-]. reflexivity.
  - discriminate.
  - discriminate.
  - intros _. repeat split; reflexivity.
Qed.

(** *** The store a run leaves behind *)

Lemma after_batch_again st :
  self (after_batch (after_batch st)) = self (after_batch st).
Proof.
  unfold after_batch at 1. cbn [self].
  destruct (gcl_api_client (self (after_batch st))) eqn:H; [reflexivity|].
  exfalso. exact (after_batch_client st H).
Qed.

Lemma loop_final_store w ids q xs st :
  let st' := final_store (for_ xs (query_batch w ids q) st) in
  (xs = [] /\ st' = st)
  \/ (xs <> [] /\ self st' = self (after_batch st)
      /\ ncalls st < ncalls st' <= ncalls st + length xs).
Proof.
  revert st. induction xs as [|x xs IH]; intros st; cbn zeta.
  { left. split; reflexivity. }
  right. split; [discriminate|].
  pose proof (run_query_batch w ids q x st) as Hb. cbn zeta in Hb.
  cbn [for_]. unfold gbind, final_store. rewrite Hb.
  destruct (snd (plan_script _)) as [e|[]].
  - cbn [fst snd length]. split; [reflexivity|]. unfold after_batch. simpl. lia.
  - specialize (IH (after_batch st)). cbn zeta in IH. unfold final_store in IH.
    destruct (for_ xs (query_batch w ids q) (after_batch st))
      as [[a2 st2] r2]. cbn [fst snd length] in *.
    destruct IH as [[-> ->]|(_ & Hself & Hn)].
    + split; [reflexivity|]. unfold after_batch. simpl. lia.
    + rewrite Hself, after_batch_again. split; [reflexivity|].
      unfold after_batch in Hn. simpl in Hn. lia.
Qed.

Lemma ExecuteQuery_final_store w q st pa st1 ids :
  resolve_project_ids w st = (pa, st1, inr ids) ->
  final_store (ExecuteQuery w q st)
  = final_store (for_ (range 0 (length ids) 50) (query_batch w ids q) st1).
Proof.
  intros Hres. unfold ExecuteQuery, final_store, gbind. rewrite Hres.
  unfold logger_info, emit.
  destruct (for_ (range 0 (length ids) 50) (query_batch w ids q) st1)
    as [[a2 st2] r2]. reflexivity.
Qed.

Lemma range_nonempty n : n <> 0 -> range 0 n 50 <> [].
Proof. destruct n; [congruence|]. intros _. discriminate. Qed.

(** *** The shape of every script *)

Lemma plan_script_fetches plan :
  Forall (fun a => is_fetch_action a = true) (fst (plan_script plan)).
Proof.
  induction plan as [|[[[c b] j] [e|r]] plan IH]; simpl.
  - constructor.
  - repeat constructor.
  - constructor; [reflexivity|]. apply Forall_app. split; [|exact IH].
    apply Forall_forall. intros a Ha.
    apply list_elem_of_fmap in Ha as (e & -> & _). reflexivity.
Qed.

Lemma script_shape w q st :
  let run := ExecuteQuery w q st in
  let discovery :=
    if search_all (self st) && negb (truthy_list (projects (self st)))
    then [AGetProjects "v2" (key_file (self st))] else [] in
  (exists e, result_of run = inl e /\ script_of run = discovery
             /\ discovered w st = inl e /\ search_all (self st) = true)
  \/ (exists ids fetches,
        result_of (resolve_project_ids w st) = inr ids
        /\ script_of run
           = discovery
             ++ ALog ("Projects being queried: " +:+ pretty (length ids))
             :: (if bool_decide (ids = []) then []
                 else service_actions st)
             ++ fetches
        /\ Forall (fun a => is_fetch_action a = true) fetches).
Proof.
  cbn zeta. pose proof (run_resolve w st) as Hres.
  destruct (search_all (self st)) eqn:Hall; cbn [andb].
  - destruct (projects (self st)) as [|p ps] eqn:Hps; cbn [truthy_list negb].
    + destruct (GetProjects w) as [e|ps'] eqn:Hget.
      * left. exists e. rewrite (run_ExecuteQuery_raise _ _ _ _ _ _ Hres).
        unfold discovered. rewrite Hps, Hget. auto.
      * right. destruct (run_ExecuteQuery _ q _ _ _ _ Hres) as [st' ->].
        rewrite Hres. eexists _, _. split; [reflexivity|].
        unfold script_of, result_of. cbn [fst snd]. split.
        -- unfold count_message. f_equal. f_equal. f_equal.
           unfold service_actions. cbn [self].
           unfold set_projects. cbn [gcl_api_client key_file].
           case_bool_decide as Hnil.
           ++ rewrite Hnil. reflexivity.
           ++ destruct (active_names ps') as [|x l]; [congruence|].
              reflexivity.
        -- apply plan_script_fetches.
    + right. destruct (run_ExecuteQuery _ q _ _ _ _ Hres) as [st' ->].
      rewrite Hres. eexists _, _. split; [reflexivity|].
      unfold script_of, result_of. cbn [fst snd]. split.
      * unfold count_message. cbn [app]. f_equal. f_equal.
        case_bool_decide as Hnil.
        -- rewrite Hnil. reflexivity.
        -- destruct (active_names (p :: ps)) as [|x l]; [congruence|].
           reflexivity.
      * apply plan_script_fetches.
  - right. destruct (run_ExecuteQuery _ q _ _ _ _ Hres) as [st' ->].
    rewrite Hres. eexists _, _. split; [reflexivity|].
    unfold script_of, result_of. cbn [fst snd]. split.
    + rewrite bool_decide_eq_false_2 by discriminate. reflexivity.
    + apply plan_script_fetches.
Qed.

(** X2. Every run of ExecuteQuery has the same shape: the discovery call
    (made exactly when "all scopes" is asked for and no scopes are
    cached), then, unless discovery failed, the count line, logged once;
    then the creation of the handle (exactly when there is a batch and no
    handle yet); then only page requests and yields.  So the count is
    logged before any request, and the handle exists before the first
    request. *)
Theorem ExecuteQuery_script_shape w q st :
  let run := ExecuteQuery w q st in
  let discovery :=
    if search_all (self st) && negb (truthy_list (projects (self st)))
    then [AGetProjects "v2" (key_file (self st))] else [] in
  (exists e, result_of run = inl e /\ script_of run = discovery
             /\ discovered w st = inl e /\ search_all (self st) = true)
  \/ (exists ids fetches,
        result_of (resolve_project_ids w st) = inr ids
        /\ script_of run
           = discovery
             ++ ALog ("Projects being queried: " +:+ pretty (length ids))
             :: (if bool_decide (ids = []) then []
                 else service_actions st)
             ++ fetches
        /\ Forall (fun a => is_fetch_action a = true) fetches).
Proof. apply script_shape. Qed.

(** X1. A single-scope query (no "all scopes" flag) never calls discovery,
    logs a count of 1, and submits exactly one batch: every request of the
    run belongs to one list call and names only projects/<project_id>,
    whatever scopes discovery would have returned. *)
Theorem single_scope_one_batch w q st :
  search_all (self st) = false ->
  let run := ExecuteQuery w q st in
  let b := {| resourceNames := ["projects/" +:+ project_id (self st)];
              filter := q; orderBy := "timestamp desc" |} in
  (forall v k, ~ In (AGetProjects v k) (script_of run))
  /\ logged (script_of run) = ["Projects being queried: 1"]
  /\ batch_requests (script_of run) = [b]
  /\ (forall c b' j, In (ARequest c b' j) (script_of run) ->
        c = ncalls st /\ b' = b).
Proof.
  intros Hone run b. pose proof (run_resolve w st) as Hres.
  rewrite Hone in Hres.
  destruct (script_projections w q st _ _ _ Hres)
    as (Hr & _ & Hl & Hb & _). cbn zeta in *.
  fold run in Hr, Hl, Hb.
  assert (plan_of w q st ["projects/" +:+ project_id (self st)]
          = page_plan (ncalls st) b 0 (pages_of w (ncalls st) b)) as Hplan.
  { unfold plan_of, batches, range. cbn. rewrite app_nil_r.
    reflexivity. }
  split; [|split; [|split]].
  - intros v k Hin.
    destruct (run_ExecuteQuery w q st _ _ _ Hres) as [st' Hrun].
    fold run in Hrun. rewrite Hrun in Hin. unfold script_of in Hin.
    cbn [fst app] in Hin. destruct Hin as [Hin|Hin]; [discriminate|].
    apply in_app_or in Hin as [Hin|Hin].
    + cbn in Hin. unfold service_actions in Hin.
      destruct (gcl_api_client (self st)); cbn in Hin;
        [contradiction|destruct Hin; [discriminate|contradiction]].
    + pose proof (plan_script_fetches
                    (plan_of w q st ["projects/" +:+ project_id (self st)]))
        as Hf. rewrite Forall_forall in Hf.
      specialize (Hf _ (proj2 (list_elem_of_In _ _) Hin)). discriminate.
  - exact Hl.
  - rewrite Hb, Hplan. apply batch_requests_first.
  - intros c b' j Hin. apply In_requests in Hin. rewrite Hr, Hplan in Hin.
    apply In_requests, In_script_plan in Hin as [p Hp].
    apply page_plan_In in Hp as (-> & -> & _). split; reflexivity.
Qed.

(** *** The cache of discovered scopes *)

Lemma no_discovery_when_cached w q st :
  projects (self st) <> [] ->
  forall v k, ~ In (AGetProjects v k) (script_of (ExecuteQuery w q st)).
Proof.
  intros Hcached v k Hin.
  destruct (script_shape w q st)
    as [(e & _ & _ & He & _)|(ids & fetches & _ & Hs & Hf)].
  - unfold discovered in He. destruct (projects (self st)); [congruence|].
    discriminate.
  - cbn zeta in Hs. rewrite Hs in Hin.
    destruct (projects (self st)) as [|p ps]; [congruence|].
    rewrite andb_false_r in Hin. cbn [app] in Hin.
    destruct Hin as [Hin|Hin]; [discriminate|].
    apply in_app_or in Hin as [Hin|Hin].
    + case_bool_decide; [contradiction|]. unfold service_actions in Hin.
      destruct (gcl_api_client (self st)); cbn in Hin;
        [contradiction|destruct Hin; [discriminate|contradiction]].
    + rewrite Forall_forall in Hf.
      specialize (Hf _ (proj2 (list_elem_of_In _ _) Hin)). discriminate.
Qed.

(** X4. The scopes discovered by the first "all scopes" query of a fresh
    object are not kept: creating the handle in the first batch resets
    [self.projects], so the run leaves the object with a handle and no
    cached scopes, and the next query calls discovery again.  Only what
    that second query discovers stays cached, and a third query makes no
    discovery call. *)
Theorem discovery_cache_dropped_once w q pid kf ps :
  GetProjects w = inr ps ->
  List.filter is_active ps <> [] ->
  let st1 := final_store (ExecuteQuery w q (fresh pid kf true)) in
  projects (self st1) = []
  /\ gcl_api_client (self st1) = Some (Service "logging" "v2" kf)
  /\ (forall w2 q2, exists rest,
        script_of (ExecuteQuery w2 q2 st1) = AGetProjects "v2" kf :: rest)
  /\ (forall w2 q2 ps2,
        GetProjects w2 = inr ps2 -> ps2 <> [] ->
        let st2 := final_store (ExecuteQuery w2 q2 st1) in
        projects (self st2) = ps2
        /\ forall w3 q3 v k,
             ~ In (AGetProjects v k) (script_of (ExecuteQuery w3 q3 st2))).
Proof.
  intros Hget Hact st1.
  pose proof (run_resolve w (fresh pid kf true)) as Hres.
  change (search_all (self (fresh pid kf true))) with true in Hres.
  change (projects (self (fresh pid kf true))) with (@nil Project) in Hres.
  cbv beta iota in Hres. rewrite Hget in Hres.
  assert (self st1
          = set_projects []
              (set_gcl_api_client (Some (Service "logging" "v2" kf))
                 (set_projects ps (init pid kf true)))) as Hself.
  { unfold st1. rewrite (ExecuteQuery_final_store _ _ _ _ _ _ Hres).
    destruct (loop_final_store w (active_names ps) q
                (range 0 (length (active_names ps)) 50)
                {| self := set_projects ps (self (fresh pid kf true));
                   ncalls := ncalls (fresh pid kf true) |})
      as [[Hnil _]|(_ & Hs & _)].
    - exfalso. apply (range_nonempty (length (active_names ps))); [|exact Hnil].
      rewrite active_names_filter, length_map.
      destruct (List.filter is_active ps); [congruence|discriminate].
    - cbn zeta in Hs. rewrite Hs. reflexivity. }
  assert (search_all (self st1) = true /\ projects (self st1) = []
          /\ key_file (self st1) = kf
          /\ gcl_api_client (self st1) = Some (Service "logging" "v2" kf))
    as (Hall1 & Hps1 & Hkf1 & Hc1).
  { rewrite Hself. repeat split; reflexivity. }
  split; [exact Hps1|]. split; [exact Hc1|]. split.
  - intros w2 q2.
    destruct (script_shape w2 q2 st1)
      as [(e & _ & Hs & _)|(ids & fetches & _ & Hs & _)];
      cbn zeta in Hs; rewrite Hall1, Hps1, Hkf1 in Hs; cbn in Hs;
      rewrite Hs; eauto.
  - intros w2 q2 ps2 Hget2 Hne2 st2.
    pose proof (run_resolve w2 st1) as Hres2.
    rewrite Hall1, Hps1, Hget2 in Hres2.
    assert (projects (self st2) = ps2) as Hps2.
    { unfold st2. rewrite (ExecuteQuery_final_store _ _ _ _ _ _ Hres2).
      destruct (loop_final_store w2 (active_names ps2) q2
                  (range 0 (length (active_names ps2)) 50)
                  {| self := set_projects ps2 (self st1);
                     ncalls := ncalls st1 |})
        as [[_ Hs]|(_ & Hs & _)]; cbn zeta in Hs; rewrite Hs.
      - reflexivity.
      - unfold after_batch. cbn [self set_projects gcl_api_client].
        rewrite Hc1. reflexivity. }
    split; [exact Hps2|]. intros w3 q3.
    apply no_discovery_when_cached. rewrite Hps2. exact Hne2.
Qed.

(** *** The output of a run that may fail *)

Lemma yields_plan_prefix plan :
  yields (fst (plan_script plan)) `prefix_of` concat (map fetch_entries plan).
Proof.
  induction plan as [|[[[c b] j] [e|r]] plan IH]; simpl.
  - reflexivity.
  - apply prefix_nil.
  - change (yields (ARequest c b j :: ?l)) with (yields l).
    rewrite yields_app, yields_map_yield. apply prefix_app, IH.
Qed.

(** X5. Whatever fails, ExecuteQuery yields a prefix of what it would
    yield if every page arrived: no entry is invented, dropped in the
    middle, duplicated or reordered; a failure only cuts the sequence
    short. *)
Theorem output_is_prefix_of_fault_free w q st pa st1 ids :
  resolve_project_ids w st = (pa, st1, inr ids) ->
  yields (script_of (ExecuteQuery w q st))
    `prefix_of` expected_entries w q (ncalls st) ids
  /\ (forall n, fst (pull n (ExecuteQuery w q) st)
                `prefix_of` expected_entries w q (ncalls st) ids).
Proof.
  intros Hres.
  destruct (script_projections w q st pa st1 ids Hres) as (_ & Hy & _).
  cbn zeta in Hy.
  assert (yields (script_of (ExecuteQuery w q st))
            `prefix_of` expected_entries w q (ncalls st) ids) as Hp.
  { rewrite Hy. unfold expected_entries. rewrite <- plan_entries.
    apply yields_plan_prefix. }
  split; [exact Hp|]. intros n. rewrite pull_spec. cbn [fst].
  etransitivity; [apply prefix_take|exact Hp].
Qed.

(** *** Requests are issued in order *)

Lemma page_plan_sorted c b j pages :
  StronglySorted key_lt
    (map request_key (map fetch_request (page_plan c b j pages))).
Proof.
  rewrite page_plan_keys.
  revert j. induction pages as [|p rest IH]; intros j; simpl; constructor.
  - apply IH.
  - apply Forall_forall. intros [c' k] Hin.
    apply list_elem_of_fmap in Hin as (k' & [= -> ->] & Hk).
    apply list_elem_of_In, in_seq in Hk. right. simpl. lia.
Qed.

Lemma batch_plan_sorted w c bodies :
  StronglySorted key_lt
    (map request_key (map fetch_request (batch_plan w c bodies))).
Proof.
  revert c. induction bodies as [|b bs IH]; intros c; [constructor|].
  cbn [batch_plan]. rewrite !map_app. apply StronglySorted_app.
  split; [|split; [apply page_plan_sorted|apply IH]].
  intros [c1 j1] [c2 j2] Hin1 Hin2.
  rewrite page_plan_keys in Hin1.
  apply list_elem_of_fmap in Hin1 as (k & [= -> ->] & _).
  apply list_elem_of_fmap in Hin2 as ([[c' b'] j'] & Hkey & Hin2).
  apply list_elem_of_fmap in Hin2 as ([[[c'' b''] j''] p] & Hreq & Hin2).
  unfold fetch_request in Hreq. simpl in Hreq. injection Hreq as -> -> ->.
  unfold request_key in Hkey. simpl in Hkey. injection Hkey as -> ->.
  apply list_elem_of_In, batch_plan_In in Hin2 as (Hle & _).
  left. simpl. lia.
Qed.

Lemma StronglySorted_prefix {A} (R : A -> A -> Prop) (l1 l2 : list A) :
  l1 `prefix_of` l2 -> StronglySorted R l2 -> StronglySorted R l1.
Proof.
  intros [k ->] Hs. apply StronglySorted_app in Hs. tauto.
Qed.

(** X6. The requests of a run are issued strictly in order: batch after
    batch (the call number never goes back) and, within a batch, page after
    page; in particular no page is requested twice and no batch is started
    before the pages of the previous one are through. *)
Theorem requests_in_order w q st :
  StronglySorted key_lt
    (map request_key (requests (script_of (ExecuteQuery w q st)))).
Proof.
  destruct (resolve_project_ids w st) as [[pa st1] [e|ids]] eqn:Hres.
  - rewrite (run_ExecuteQuery_raise _ _ _ _ _ _ Hres).
    destruct (resolve_quiet _ _ _ _ _ Hres) as ([->| ->] & _); constructor.
  - destruct (script_projections w q st pa st1 ids Hres) as (Hr & _).
    cbn zeta in Hr. rewrite Hr.
    apply StronglySorted_prefix
      with (map request_key (map fetch_request (plan_of w q st ids))).
    + destruct (requests_plan_prefix (plan_of w q st ids)) as [k ->].
      rewrite map_app. apply prefix_app_r. reflexivity.
    + apply batch_plan_sorted.
Qed.

End LogExtra.

(** ** [ListLogs] *)

Module ListLogsFacts.

Import log LogFacts LogClaims LogMore listlogs.

Lemma lbind_ret {A B} (m : LGen A) (k : A -> LGen B) st a1 st1 x a2 st2 r :
  m st = (a1, st1, inr x) -> k x st1 = (a2, st2, r) ->
  lbind m k st = (a1 ++ a2, st2, r).
Proof. intros Hm Hk. unfold lbind. rewrite Hm, Hk. reflexivity. Qed.

Lemma lbind_raise {A B} (m : LGen A) (k : A -> LGen B) st a1 st1 f :
  m st = (a1, st1, inl f) -> lbind m k st = (a1, st1, inl f).
Proof. intros Hm. unfold lbind. rewrite Hm. reflexivity. Qed.

Lemma collect_all ll client ps acc st :
  Forall has_id ps ->
  for_acc ps acc (collect ll client) st
  = ([], {| self := self st;
            ncalls := ncalls st + length (List.filter is_active ps) |},
     inr (acc ++ imap (fun i p => response_of ll (ncalls st + i) p)
                      (List.filter is_active ps))).
Proof.
  intros Hids. revert acc st.
  induction Hids as [|p ps Hp _ IH]; intros acc st.
  - simpl. rewrite app_nil_r, Nat.add_0_r. destruct st; reflexivity.
  - cbn [for_acc List.filter]. unfold collect at 1.
    destruct (is_active p) eqn:Hact; cbn [negb].
    + destruct (Hp Hact) as [id Hid].
      eapply eq_trans.
      { eapply (lbind_ret _ _ st []).
        - unfold lbind, str_add, ExecuteRequest_logs, lret. rewrite Hid.
          reflexivity.
        - apply IH. }
      cbn [app ncalls self length]. rewrite imap_cons, Nat.add_0_r.
      rewrite <- app_assoc. cbn [app].
      f_equal; [f_equal; f_equal; lia|]. f_equal. f_equal. f_equal.
      * unfold response_of, project_name. rewrite Hid. reflexivity.
      * apply imap_ext. intros i x _. simpl. f_equal. lia.
    + eapply eq_trans.
      { eapply (lbind_ret _ _ st []); [reflexivity|apply IH]. }
      reflexivity.
Qed.

Lemma collect_type_error ll client pre p post acc st :
  Forall has_id pre -> is_active p = true -> p !! "projectId" = None ->
  exists st' msg,
    for_acc (pre ++ p :: post) acc (collect ll client) st
    = ([], st', inl (TypeError msg)).
Proof.
  intros Hpre Hact Hnone. revert acc st.
  induction Hpre as [|q pre Hq _ IH]; intros acc st.
  - cbn [app for_acc]. unfold collect at 1. rewrite Hact. cbn [negb].
    eexists _, _. apply lbind_raise. apply lbind_raise.
    unfold str_add. rewrite Hnone. reflexivity.
  - cbn [app for_acc].
    assert (Forall has_id [q]) as Hq1 by (constructor; [exact Hq|constructor]).
    pose proof (collect_all ll client [q] acc st Hq1) as Hone.
    cbn [for_acc] in Hone.
    destruct (collect ll client acc q st) as [[a1 s1] [f|acc1]] eqn:Hc.
    + exfalso. unfold lbind in Hone. rewrite Hc in Hone. discriminate.
    + unfold lbind in Hone. rewrite Hc in Hone. cbn in Hone.
      injection Hone as Ha _ _. rewrite app_nil_r in Ha. subst a1.
      destruct (IH acc1 s1) as (st' & msg & Hrest).
      exists st', msg. eapply eq_trans.
      { eapply lbind_ret; [exact Hc|exact Hrest]. }
      reflexivity.
Qed.

Lemma foldl_snoc {A} (l acc : list A) :
  foldl (fun logs x => logs ++ [x]) acc l = acc ++ l.
Proof.
  revert acc. induction l as [|x l IH]; intros acc; simpl.
  - rewrite app_nil_r. reflexivity.
  - rewrite IH, <- app_assoc. reflexivity.
Qed.

Lemma list_requests_app a b :
  list_requests (a ++ b) = list_requests a ++ list_requests b.
Proof. apply omap_app. Qed.

Lemma pages_run c parent j pages acc st :
  let run := for_pages_acc c parent j pages acc (fun logs entry =>
               lret (foldl (fun logs logtypes => logs ++ [logtypes]) logs
                           (default [] (entry !! "logNames")))) st in
  snd (fst run) = st
  /\ match snd run with
     | inr logs =>
         list_requests (fst (fst run))
           = map (fun k => (c, parent, k)) (seq j (length pages))
         /\ logs = acc ++ concat (map page_names pages)
     | inl f =>
         list_requests (fst (fst run))
           `prefix_of` map (fun k => (c, parent, k)) (seq j (length pages))
         /\ ~ pages_arrive pages
         /\ exists e, f = Propagated e
     end.
Proof.
  revert j acc. induction pages as [|p rest IH]; intros j acc; cbn zeta.
  - simpl. rewrite app_nil_r. repeat split; reflexivity.
  - cbn [for_pages_acc]. unfold lbind, lemit, lret. cbv beta iota.
    destruct p as [e|entry].
    + simpl. split; [reflexivity|]. split; [apply prefix_cons, prefix_nil|].
      split; [|eauto]. intros Hok. unfold pages_arrive in Hok.
      apply Forall_cons in Hok as [Hf _]. exact Hf.
    + rewrite foldl_snoc.
      specialize (IH (S j) (acc ++ default [] (entry !! "logNames"))).
      cbn zeta in IH.
      destruct (for_pages_acc c parent (S j) rest _ _ st) as [[a2 s2] r2].
      cbn [fst snd app length seq map concat page_names] in *.
      destruct IH as (Hs & IH). split; [exact Hs|].
      change (list_requests (AListLogs c parent j :: a2))
        with ((c, parent, j) :: list_requests a2).
      destruct r2 as [f|logs]; cbv beta iota in IH |- *.
      * destruct IH as (Hp & Hno & He). split; [apply prefix_cons, Hp|].
        split; [|exact He]. intros Hok. unfold pages_arrive in Hok.
        apply Forall_cons in Hok as [_ Hok]. exact (Hno Hok).
      * destruct IH as [Hr ->]. rewrite Hr, <- app_assoc.
        split; reflexivity.
Qed.

Lemma gather_run responses logs st :
  let run := for_acc responses logs gather st in
  snd (fst run) = st
  /\ match snd run with
     | inr logs' =>
         list_requests (fst (fst run)) = concat (map page_requests responses)
         /\ logs'
            = logs ++ concat (map (fun r => concat (map page_names (snd r)))
                                  responses)
     | inl f =>
         list_requests (fst (fst run))
           `prefix_of` concat (map page_requests responses)
         /\ ~ Forall (fun r => pages_arrive (snd r)) responses
         /\ exists e, f = Propagated e
     end.
Proof.
  revert logs st. induction responses as [|[[c parent] pages] rs IH];
    intros logs st; cbn zeta.
  - simpl. rewrite app_nil_r. repeat split; reflexivity.
  - cbn [for_acc map concat]. unfold lbind.
    destruct (pages_run c parent 0 pages logs st) as (Hs & Hpages).
    cbn zeta in Hs, Hpages.
    change (for_pages_acc c parent 0 pages logs _ st)
      with (gather logs (c, parent, pages) st) in Hs, Hpages.
    destruct (gather logs (c, parent, pages) st)
      as [[a1 s1] [f|logs1]]; cbn [fst snd] in *; cbv beta iota in Hpages;
      subst s1.
    + destruct Hpages as (Hp & Hno & He). split; [reflexivity|]. split.
      * apply prefix_app_r. exact Hp.
      * split; [|exact He]. intros Hok.
        apply Forall_cons in Hok as [Hok _]. exact (Hno Hok).
    + destruct Hpages as [Hr ->].
      specialize (IH (logs ++ concat (map page_names pages)) st).
      cbn zeta in IH.
      destruct (for_acc rs _ gather st) as [[a2 s2] r2].
      cbn [fst snd] in *. destruct IH as (Hs2 & IH).
      split; [exact Hs2|]. rewrite list_requests_app, Hr.
      unfold page_requests at 1 3. cbn [fst snd].
      destruct r2 as [f|logs2]; cbv beta iota in IH |- *.
      * destruct IH as (Hp & Hno & He). split; [apply prefix_app, Hp|].
        split; [|exact He]. intros Hok.
        apply Forall_cons in Hok as [_ Hok]. exact (Hno Hok).
      * destruct IH as [Hr2 ->]. rewrite Hr2, <- app_assoc.
        split; reflexivity.
Qed.

Lemma ListLogs_unfold w ll :
  ListLogs w ll
  = (gcl_instance_client <~ lift GclApi ;;
     o <~ lift get_self ;;
     project_ids <~ gather_project_ids w o ;;
     o <~ lift get_self ;;
     loops ll gcl_instance_client (projects o)).
Proof. reflexivity. Qed.

Lemma triple_eta {A B C} (x : A * B * C) :
  x = (fst (fst x), snd (fst x), snd x).
Proof. destruct x as [[a b] c]. reflexivity. Qed.

(** The part of [ListLogs] before its loops, in "all scopes" mode. *)
Lemma ListLogs_all_scopes w ll st ps :
  search_all (self st) = true -> listed_scopes w st = inr ps ->
  exists pa sb client,
    list_requests pa = [] /\ ncalls sb = ncalls st
    /\ ListLogs w ll st
       = (pa ++ fst (fst (loops ll client ps sb)),
          snd (fst (loops ll client ps sb)),
          snd (loops ll client ps sb)).
Proof.
  intros Hall Hps. rewrite ListLogs_unfold.
  destruct (run_GclApi st) as [client Hc]. fold (with_handle st) in Hc.
  assert (lift GclApi st
          = (map Base (service_actions st), with_handle st, inr client))
    as Hlift by (unfold lift; rewrite Hc; reflexivity).
  assert (search_all (self (with_handle st)) = true) as Hall'.
  { unfold with_handle, after_batch. cbn [self].
    destruct (gcl_api_client (self st)); [exact Hall|exact Hall]. }
  assert (exists pb sb ids,
            gather_project_ids w (self (with_handle st)) (with_handle st)
            = (pb, sb, inr ids)
            /\ list_requests pb = [] /\ ncalls sb = ncalls st
            /\ projects (self sb) = ps)
    as (pb & sb & ids & Hpre & Hq & Hn & Hp).
  { unfold gather_project_ids. rewrite Hall'.
    unfold listed_scopes, discovered in Hps.
    unfold with_handle, after_batch in *. cbn [self ncalls] in *.
    destruct st as [[pid kf [c|] sa ps0] n]; cbn [self gcl_api_client] in *.
    - destruct ps0 as [|p0 ps0]; cbn [projects] in *.
      + unfold lbind, lift, ListProjects, gbind, get_self, emit, modify_self.
        cbn. rewrite Hps. cbn. eexists _, _, _.
        split; [reflexivity|]. repeat split; reflexivity.
      + injection Hps as <-. eexists _, _, _.
        split; [reflexivity|]. repeat split; reflexivity.
    - unfold lbind, lift, ListProjects, gbind, get_self, emit, modify_self.
      cbn. rewrite Hps. cbn. eexists _, _, _.
      split; [reflexivity|]. repeat split; reflexivity. }
  exists (map Base (service_actions st) ++ pb), sb, client.
  split.
  { rewrite list_requests_app, Hq, app_nil_r.
    unfold service_actions. destruct (gcl_api_client (self st)); reflexivity. }
  split; [exact Hn|].
  rewrite <- app_assoc.
  eapply lbind_ret; [exact Hlift|].
  eapply (lbind_ret _ _ _ []); [reflexivity|].
  eapply lbind_ret; [exact Hpre|].
  eapply (lbind_ret _ _ _ []); [reflexivity|].
  rewrite Hp. apply triple_eta.
Qed.

Lemma loops_all ll client ps sb :
  Forall has_id ps ->
  let responses := imap (fun i p => response_of ll (ncalls sb + i) p)
                        (List.filter is_active ps) in
  let run := loops ll client ps sb in
  match snd run with
  | inr logs =>
      list_requests (fst (fst run)) = concat (map page_requests responses)
      /\ logs = concat (map (fun r => concat (map page_names (snd r)))
                            responses)
  | inl f =>
      list_requests (fst (fst run))
        `prefix_of` concat (map page_requests responses)
      /\ ~ Forall (fun r => pages_arrive (snd r)) responses
      /\ exists e, f = Propagated e
  end.
Proof.
  intros Hids. cbn zeta. unfold loops, lbind.
  rewrite (collect_all ll client ps [] sb Hids). cbn [app].
  set (responses := imap _ (List.filter is_active ps)).
  set (sc := {| self := self sb; ncalls := _ |}).
  destruct (gather_run responses [] sc) as (_ & Hg). cbn zeta in Hg.
  destruct (for_acc responses [] gather sc) as [[a s] [f|logs]];
    cbn [fst snd app] in *; cbv beta iota in Hg |- *.
  - exact Hg.
  - unfold lret. cbn [fst snd]. rewrite app_nil_r. exact Hg.
Qed.

Lemma has_id_split ps :
  Forall has_id ps
  \/ exists pre p post,
       ps = pre ++ p :: post /\ Forall has_id pre
       /\ is_active p = true /\ p !! "projectId" = None.
Proof.
  induction ps as [|p ps IH]; [left; constructor|].
  destruct (is_active p) eqn:Hact.
  - destruct (p !! "projectId") as [id|] eqn:Hid.
    + destruct IH as [IH|(pre & q & post & -> & Hpre & Hq & Hn)].
      * left. constructor; [|exact IH]. intros _. eauto.
      * right. exists (p :: pre), q, post. repeat split; try assumption.
        constructor; [|exact Hpre]. intros _. eauto.
    + right. exists [], p, ps. repeat split; try assumption. constructor.
  - destruct IH as [IH|(pre & q & post & -> & Hpre & Hq & Hn)].
    + left. constructor; [|exact IH]. intros H. congruence.
    + right. exists (p :: pre), q, post. repeat split; try assumption.
      constructor; [|exact Hpre]. intros H. congruence.
Qed.

Lemma loops_type_error ll client pre p post sb :
  Forall has_id pre -> is_active p = true -> p !! "projectId" = None ->
  exists st' msg,
    loops ll client (pre ++ p :: post) sb = ([], st', inl (TypeError msg)).
Proof.
  intros Hpre Hact Hnone.
  destruct (collect_type_error ll client pre p post [] sb Hpre Hact Hnone)
    as (st' & msg & Hc).
  exists st', msg. unfold loops. apply lbind_raise. exact Hc.
Qed.

(** *** The properties *)

Lemma ListLogs_single w ll st :
  search_all (self st) = false ->
  gcl_api_client (self st) = None \/ projects (self st) = [] ->
  ListLogs w ll st = (map Base (service_actions st), with_handle st, inr []).
Proof.
  destruct st as [[pid kf [c|] sa ps] n]; cbn [self search_all]; intros ->.
  - intros [Hc|Hp]; [discriminate|]. cbn [self projects] in Hp. subst ps.
    reflexivity.
  - intros _. reflexivity.
Qed.

(** X7. In single-project mode [ListLogs] does not list the logs of
    [project_id]: the requests are made for [self.projects], which is
    empty unless scopes were cached on an object that already has its
    handle.  So on a fresh object (or with no cached scopes) it creates the
    handle if need be, issues no request and returns the empty list,
    whatever logs the platform holds. *)
Theorem ListLogs_single_project_is_empty w ll st :
  search_all (self st) = false ->
  gcl_api_client (self st) = None \/ projects (self st) = [] ->
  ListLogs w ll st = (map Base (service_actions st), with_handle st, inr []).
Proof. apply ListLogs_single. Qed.

(** X8. In "all scopes" mode, when every ACTIVE scope has a projectId and
    every page arrives, [ListLogs] returns the log names scope after scope
    among the ACTIVE ones in discovery order, page after page, each page's
    names in order, where a page without "logNames" adds nothing; one list
    call is made per ACTIVE scope, with its pages requested in order. *)
Theorem ListLogs_all_scopes_result w ll st ps :
  search_all (self st) = true ->
  listed_scopes w st = inr ps ->
  Forall has_id ps ->
  (forall i p, List.filter is_active ps !! i = Some p ->
     pages_arrive (snd (response_of ll (ncalls st + i) p))) ->
  snd (ListLogs w ll st) = inr (expected_logs ll (ncalls st) ps)
  /\ list_requests (fst (fst (ListLogs w ll st)))
     = concat (imap (fun i p =>
                       page_requests (response_of ll (ncalls st + i) p))
                    (List.filter is_active ps)).
Proof.
  intros Hall Hps Hids Hpages.
  destruct (ListLogs_all_scopes w ll st ps Hall Hps)
    as (pa & sb & client & Hq & Hn & ->).
  pose proof (loops_all ll client ps sb Hids) as Hl. cbn zeta in Hl.
  rewrite Hn in Hl. cbn [fst snd]. rewrite list_requests_app, Hq. cbn [app].
  set (responses := imap (fun i p => response_of ll (ncalls st + i) p)
                         (List.filter is_active ps)) in *.
  assert (Forall (fun r => pages_arrive (snd r)) responses) as Hok.
  { apply Forall_lookup. intros i r Hr. unfold responses in Hr.
    rewrite list_lookup_imap in Hr.
    destruct (List.filter is_active ps !! i) as [p|] eqn:Hp; [|discriminate].
    injection Hr as <-. apply (Hpages i p Hp). }
  destruct (snd (loops ll client ps sb)) as [f|logs].
  - destruct Hl as (_ & Hno & _). contradiction.
  - destruct Hl as [Hr ->]. rewrite Hr. split.
    + f_equal. unfold expected_logs, responses.
      rewrite fmap_imap. reflexivity.
    + unfold responses. rewrite fmap_imap. reflexivity.
Qed.

(** X9. [ListLogs] asks only for ACTIVE scopes: whatever happens, the
    parent of every list request is projects/<id> for a discovered scope
    whose lifecycle state is "ACTIVE" and whose projectId is <id>. *)
Theorem ListLogs_requests_only_active w ll st ps c parent j :
  search_all (self st) = true ->
  listed_scopes w st = inr ps ->
  In (AListLogs c parent j) (fst (fst (ListLogs w ll st))) ->
  exists p id,
    In p ps /\ p !! "lifecycleState" = Some "ACTIVE"
    /\ p !! "projectId" = Some id /\ parent = "projects/" +:+ id.
Proof.
  intros Hall Hps Hin.
  assert (In (c, parent, j) (list_requests (fst (fst (ListLogs w ll st)))))
    as Hreq.
  { apply list_elem_of_In. unfold list_requests.
    apply list_elem_of_omap. exists (AListLogs c parent j).
    split; [apply list_elem_of_In, Hin|reflexivity]. }
  clear Hin.
  destruct (ListLogs_all_scopes w ll st ps Hall Hps)
    as (pa & sb & client & Hq & Hn & Heq).
  rewrite Heq in Hreq. cbn [fst snd] in Hreq.
  rewrite list_requests_app, Hq in Hreq. cbn [app] in Hreq.
  destruct (has_id_split ps)
    as [Hids|(pre & q & post & -> & Hpre & Hact & Hno)].
  - pose proof (loops_all ll client ps sb Hids) as Hl. cbn zeta in Hl.
    set (responses := imap (fun i p => response_of ll (ncalls sb + i) p)
                           (List.filter is_active ps)) in *.
    assert (In (c, parent, j) (concat (map page_requests responses))) as Hc.
    { destruct (snd (loops ll client ps sb)) as [f|logs].
      - destruct Hl as ([k Hk] & _). rewrite Hk. apply in_or_app. auto.
      - destruct Hl as [<- _]. exact Hreq. }
    apply in_concat in Hc as (reqs & Hreqs & Hc).
    apply in_map_iff in Hreqs as (r & <- & Hr).
    unfold page_requests in Hc. apply in_map_iff in Hc as (k & Hk & _).
    apply list_elem_of_In in Hr. unfold responses in Hr.
    apply elem_of_lookup_imap in Hr as (i & p & -> & Hp).
    unfold response_of in Hk. cbn [fst snd] in Hk. injection Hk as _ <-.
    apply list_elem_of_lookup_2, list_elem_of_In, filter_In in Hp as [Hp Hact].
    rewrite Forall_forall in Hids.
    destruct (Hids p (proj2 (list_elem_of_In _ _) Hp) Hact) as [id Hid].
    exists p, id. unfold project_name. rewrite Hid.
    apply bool_decide_eq_true in Hact. auto.
  - destruct (loops_type_error ll client pre q post sb Hpre Hact Hno)
      as (st' & msg & Hl).
    rewrite Hl in Hreq. contradiction.
Qed.

(** X10. An ACTIVE scope without a projectId makes [ListLogs] raise a
    TypeError (a string is added to None) and return nothing, where
    ExecuteQuery, on the same scopes, queries the name projects/None. *)
Theorem ListLogs_missing_projectId w ll st pre p post :
  search_all (self st) = true ->
  listed_scopes w st = inr (pre ++ p :: post) ->
  Forall has_id pre -> is_active p = true -> p !! "projectId" = None ->
  (exists msg, snd (ListLogs w ll st) = inl (TypeError msg))
  /\ list_requests (fst (fst (ListLogs w ll st))) = []
  /\ In "projects/None" (active_names (pre ++ p :: post)).
Proof.
  intros Hall Hps Hpre Hact Hno.
  destruct (ListLogs_all_scopes w ll st _ Hall Hps)
    as (pa & sb & client & Hq & Hn & ->).
  destruct (loops_type_error ll client pre p post sb Hpre Hact Hno)
    as (st' & msg & ->).
  cbn [fst snd]. split; [eauto|]. split.
  - rewrite app_nil_r. exact Hq.
  - rewrite active_names_filter. apply in_map_iff. exists p. split.
    + unfold project_name. rewrite Hno. reflexivity.
    + apply filter_In. split; [apply in_or_app; right; left; reflexivity|].
      exact Hact.
Qed.

(** X11. For a single project the CLI's ListLogs always reports zero log
    types: it creates the handle, makes no list request, logs
    "Found 0 available log types:" and nothing else. *)
Theorem cli_ListLogs_single_project w ll args :
  gcp_cli.search_all args = false ->
  cli_ListLogs w ll args
  = ([Base (ACreateService "logging" "v2" (gcp_cli.key_file args));
      Base (ALog "Found 0 available log types:")],
     inr tt).
Proof.
  intros Hone. unfold cli_ListLogs.
  rewrite (ListLogs_single w ll _); [reflexivity| |].
  - cbn. exact Hone.
  - left. reflexivity.
Qed.

End ListLogsFacts.

(** ** The disks to attach *)

Module AnalysisVmFacts.

Import analysis_vm.

Lemma split_nonempty sep s : split sep s <> [].
Proof.
  destruct s as [|c s]; simpl; [discriminate|].
  case_bool_decide; [discriminate|]. destruct (split sep s); discriminate.
Qed.

Lemma concat_cons_cons sep x y l :
  String.concat sep (x :: y :: l) = x +:+ sep +:+ String.concat sep (y :: l).
Proof. reflexivity. Qed.

Lemma split_join s : String.concat "," (split comma s) = s.
Proof.
  induction s as [|c s IH]; [reflexivity|]. simpl split.
  case_bool_decide as Hc.
  - pose proof (split_nonempty comma s) as Hne.
    destruct (split comma s) as [|y l] eqn:Hs; [congruence|].
    rewrite concat_cons_cons, IH, Hc. reflexivity.
  - pose proof (split_nonempty comma s) as Hne.
    destruct (split comma s) as [|y l] eqn:Hs; [congruence|].
    destruct l as [|z l].
    + simpl in *. rewrite IH. reflexivity.
    + rewrite concat_cons_cons in *. rewrite <- IH. reflexivity.
Qed.

Lemma split_comma_free s :
  Forall (fun f => comma_free f = true) (split comma s).
Proof.
  induction s as [|c s IH]; simpl; [repeat constructor|].
  case_bool_decide as Hc; [constructor; [reflexivity|exact IH]|].
  destruct (split comma s) as [|y l]; [repeat constructor; simpl|].
  - rewrite bool_decide_eq_false_2 by exact Hc. reflexivity.
  - apply Forall_cons in IH as [Hy Hl]. constructor; [|exact Hl].
    simpl. rewrite bool_decide_eq_false_2 by exact Hc. exact Hy.
Qed.

Lemma split_comma_free_string f :
  comma_free f = true -> split comma f = [f].
Proof.
  induction f as [|c f IH]; [reflexivity|]. simpl. intros H.
  apply andb_prop in H as [Hc Hf]. apply negb_true_iff in Hc.
  rewrite Hc, (IH Hf). reflexivity.
Qed.

Lemma split_app_comma f rest :
  comma_free f = true ->
  split comma (f +:+ "," +:+ rest) = f :: split comma rest.
Proof.
  induction f as [|c f IH]; intros H.
  - reflexivity.
  - simpl in H. apply andb_prop in H as [Hc Hf]. apply negb_true_iff in Hc.
    change (String c f +:+ "," +:+ rest) with (String c (f +:+ "," +:+ rest)).
    simpl split. rewrite Hc, (IH Hf). reflexivity.
Qed.

Lemma join_split fs :
  fs <> [] -> Forall (fun f => comma_free f = true) fs ->
  split comma (String.concat "," fs) = fs.
Proof.
  intros Hne Hfs. induction Hfs as [|f fs Hf Hfs IH]; [congruence|].
  destruct fs as [|g fs].
  - simpl. apply split_comma_free_string, Hf.
  - rewrite concat_cons_cons, split_app_comma by exact Hf.
    rewrite IH by discriminate. reflexivity.
Qed.

Lemma forallb_truthy fs :
  forallb (fun elements => truthy_str (Some elements)) fs = true
  <-> Forall (fun f => f <> EmptyString) fs.
Proof.
  rewrite forallb_forall, Forall_forall. split; intros H f Hin.
  - apply list_elem_of_In in Hin. specialize (H f Hin).
    destruct f; [discriminate|congruence].
  - apply list_elem_of_In in Hin. specialize (H f Hin).
    destruct f; [congruence|reflexivity].
Qed.

(** X12. A non-empty [--attach_disks] argument is accepted exactly when it
    is a comma-separated list of names none of which is empty, and the
    disks passed on are then those names in order; otherwise (a leading or
    trailing comma, two commas in a row) the argument is reported in an
    error line and the function returns before any VM is started. *)
Theorem attach_disks_accepted arg :
  arg <> EmptyString ->
  (forall disks,
      check_attach_disks (Some arg) = Accepted disks
      <-> disks <> [] /\ Forall disk_name disks
          /\ String.concat "," disks = arg)
  /\ (forall error,
        check_attach_disks (Some arg) = Rejected error
        <-> error = "parameter --attach_disks: " +:+ arg
            /\ In EmptyString (split comma arg)).
Proof.
  intros Harg.
  assert (truthy_str (Some arg) = true) as Ht
    by (destruct arg; [congruence|reflexivity]).
  unfold check_attach_disks. rewrite Ht. cbv zeta.
  change (default EmptyString (Some arg)) with arg.
  pose proof (split_nonempty comma arg) as Hne.
  pose proof (split_comma_free arg) as Hcf.
  pose proof (split_join arg) as Hjoin.
  assert (truthy_list (split comma arg) = true) as Htl
    by (destruct (split comma arg); [congruence|reflexivity]).
  rewrite Htl. cbn [andb].
  destruct (forallb _ (split comma arg)) eqn:Hall; cbn [negb].
  - apply forallb_truthy in Hall. split.
    + intros disks. split.
      * intros [= <-]. split; [exact Hne|]. split; [|exact Hjoin].
        rewrite Forall_forall in *. intros f Hf. split; auto.
      * intros (Hd & Hnames & Hj). f_equal. rewrite <- Hj.
        apply join_split; [exact Hd|].
        rewrite Forall_forall in *. intros f Hf. apply (Hnames f Hf).
    + intros error. split; [discriminate|].
      intros [_ Hin]. exfalso. rewrite Forall_forall in Hall.
      apply (Hall EmptyString); [apply list_elem_of_In, Hin|reflexivity].
  - split.
    + intros disks. split; [discriminate|].
      intros (Hd & Hnames & Hj). exfalso.
      assert (split comma arg = disks) as Hs.
      { rewrite <- Hj. apply join_split; [exact Hd|].
        rewrite Forall_forall in *. intros f Hf. apply (Hnames f Hf). }
      assert (forallb (fun elements => truthy_str (Some elements))
                      (split comma arg) = true) as Habs.
      { apply forallb_truthy. rewrite Hs. rewrite Forall_forall in *.
        intros f Hf. apply (Hnames f Hf). }
      congruence.
    + intros error. split.
      * intros [= <-]. split; [reflexivity|].
        destruct (in_dec string_dec EmptyString (split comma arg)) as [H|H];
          [exact H|].
        exfalso.
        assert (forallb (fun elements => truthy_str (Some elements))
                        (split comma arg) = true) as Habs.
        { apply forallb_truthy, Forall_forall. intros f Hf ->.
          apply H, list_elem_of_In, Hf. }
        congruence.
      * intros [-> _]. reflexivity.
Qed.

End AnalysisVmFacts.

(** ** [ActiveServices], [StorageSize] and their CLI commands *)

Module MonitoringFacts.

Import monitoring.

(** *** The dict *)

Lemma dict_get_set_eq k v d : dict_get k (dict_set k v d) = Some v.
Proof.
  induction d as [|[k' v'] d IH]; simpl.
  - rewrite bool_decide_eq_true_2 by reflexivity. reflexivity.
  - case_bool_decide as Hk; simpl.
    + rewrite bool_decide_eq_true_2 by reflexivity. reflexivity.
    + rewrite bool_decide_eq_false_2 by exact Hk. exact IH.
Qed.

Lemma dict_get_set_ne k k' v d :
  k' <> k -> dict_get k (dict_set k' v d) = dict_get k d.
Proof.
  intros Hne. induction d as [|[k0 v0] d IH]; simpl.
  - rewrite bool_decide_eq_false_2 by exact Hne. reflexivity.
  - case_bool_decide as Hk; simpl.
    + subst k0. rewrite !bool_decide_eq_false_2 by exact Hne. reflexivity.
    + case_bool_decide; [reflexivity|exact IH].
Qed.

Lemma dict_set_keys k v d :
  map fst (dict_set k v d)
  = if bool_decide (k ∈ map fst d) then map fst d else map fst d ++ [k].
Proof.
  induction d as [|[k' v'] d IH]; cbn [dict_set map fst].
  - case_bool_decide as H; [|reflexivity]. apply elem_of_nil in H as [].
  - destruct (decide (k' = k)) as [->|Hk].
    + rewrite (bool_decide_eq_true_2 (k = k)) by reflexivity.
      rewrite bool_decide_eq_true_2 by apply list_elem_of_here. reflexivity.
    + rewrite (bool_decide_eq_false_2 (k' = k)) by exact Hk.
      cbn [map fst]. rewrite IH.
      destruct (decide (k ∈ map fst d)) as [Hin|Hin].
      * rewrite !bool_decide_eq_true_2;
          [reflexivity|apply list_elem_of_further, Hin|exact Hin].
      * rewrite !bool_decide_eq_false_2; [reflexivity| |exact Hin].
        intros H. apply elem_of_cons in H as [H|H]; congruence.
Qed.

Lemma dict_get_None k d : dict_get k d = None <-> ~ In k (map fst d).
Proof.
  induction d as [|[k' v'] d IH]; simpl; [tauto|].
  case_bool_decide as Hk.
  - split; [discriminate|]. intros H. exfalso. apply H. left. exact Hk.
  - rewrite IH. tauto.
Qed.

(** *** The last reading of a name *)

Lemma last_val_None k rs v : last_val k rs = None -> ~ In (k, v) rs.
Proof.
  induction rs as [|[s x] rs IH]; simpl; [tauto|].
  destruct (last_val k rs); [discriminate|].
  case_bool_decide as Hs; [discriminate|].
  intros _ [H|H]; [congruence|]. apply IH; [reflexivity|exact H].
Qed.

Lemma last_val_app k pre val post :
  (forall v, ~ In (k, v) post) ->
  last_val k (pre ++ (k, val) :: post) = Some val.
Proof.
  intros Hp.
  assert (last_val k post = None) as Hn.
  { induction post as [|[s x] post IH]; [reflexivity|]. simpl.
    rewrite IH by (intros v Hv; apply (Hp v); right; exact Hv).
    case_bool_decide as Hs; [|reflexivity].
    subst s. exfalso. apply (Hp x). left. reflexivity. }
  induction pre as [|[s x] pre IH]; simpl.
  - rewrite Hn, bool_decide_eq_true_2 by reflexivity. reflexivity.
  - rewrite IH. reflexivity.
Qed.

Lemma last_val_spec k rs val :
  last_val k rs = Some val
  <-> exists pre post,
        rs = pre ++ (k, val) :: post /\ (forall v, ~ In (k, v) post).
Proof.
  split.
  - revert val. induction rs as [|[s v] rs IH]; intros val; simpl;
      [discriminate|].
    destruct (last_val k rs) as [v'|] eqn:Hl.
    + intros [= <-]. destruct (IH v' eq_refl) as (pre & post & -> & Hp).
      exists ((s, v) :: pre), post. auto.
    + case_bool_decide as Hs; [|discriminate]. intros [= <-]. subst s.
      exists [], rs. split; [reflexivity|].
      intros v'. apply last_val_None. exact Hl.
  - intros (pre & post & -> & Hp). apply last_val_app. exact Hp.
Qed.

(** *** The sort *)

Lemma insert_desc_length x l : length (insert_desc x l) = S (length l).
Proof.
  induction l as [|y l IH]; [reflexivity|]. simpl.
  destruct (snd y <? snd x)%Z; simpl; [|rewrite IH]; reflexivity.
Qed.


Lemma insert_desc_perm x l : Permutation (insert_desc x l) (x :: l).
Proof.
  induction l as [|y l IH]; [reflexivity|]. simpl.
  destruct (snd y <? snd x)%Z; [reflexivity|].
  rewrite IH. apply perm_swap.
Qed.

Lemma insert_desc_sorted x l :
  StronglySorted desc l -> StronglySorted desc (insert_desc x l).
Proof.
  induction l as [|y l IH]; intros Hs; simpl.
  - repeat constructor.
  - apply StronglySorted_inv in Hs as [Hl Hy].
    destruct (snd y <? snd x)%Z eqn:Hlt.
    + apply Z.ltb_lt in Hlt. constructor.
      * constructor; assumption.
      * constructor; [unfold desc; lia|].
        eapply Forall_impl; [exact Hy|]. intros z Hz. unfold desc in *. lia.
    + apply Z.ltb_ge in Hlt. constructor; [apply IH, Hl|].
      rewrite (insert_desc_perm x l). constructor; [exact Hlt|exact Hy].
Qed.

Lemma filter_none {A} (f : A -> bool) (l : list A) :
  (forall x, In x l -> f x = false) -> List.filter f l = [].
Proof.
  induction l as [|y l IH]; intros H; [reflexivity|]. simpl.
  rewrite (H y) by (left; reflexivity). apply IH.
  intros x Hx. apply H. right. exact Hx.
Qed.

Lemma insert_desc_stable z x l :
  StronglySorted desc l ->
  List.filter (fun p => (snd p =? z)%Z) (insert_desc x l)
  = List.filter (fun p => (snd p =? z)%Z) l
    ++ (if (snd x =? z)%Z then [x] else []).
Proof.
  induction l as [|y l IH]; intros Hs; simpl.
  - destruct (snd x =? z)%Z; reflexivity.
  - apply StronglySorted_inv in Hs as [Hl Hy].
    destruct (snd y <? snd x)%Z eqn:Hlt.
    + apply Z.ltb_lt in Hlt. cbn [List.filter].
      destruct (snd x =? z)%Z eqn:Hx.
      * apply Z.eqb_eq in Hx.
        assert ((snd y =? z)%Z = false) as -> by (apply Z.eqb_neq; lia).
        assert (List.filter (fun p => (snd p =? z)%Z) l = []) as ->;
          [|reflexivity].
        apply filter_none. intros p Hp. apply Z.eqb_neq.
        rewrite List.Forall_forall in Hy. specialize (Hy p Hp).
        unfold desc in Hy. lia.
      * rewrite app_nil_r. reflexivity.
    + cbn [List.filter]. rewrite (IH Hl).
      destruct (snd y =? z)%Z; reflexivity.
Qed.

Lemma sorted_desc_spec items :
  Permutation (sorted_desc items) items
  /\ StronglySorted desc (sorted_desc items)
  /\ (forall z, List.filter (fun p => (snd p =? z)%Z) (sorted_desc items)
                = List.filter (fun p => (snd p =? z)%Z) items).
Proof.
  unfold sorted_desc.
  enough (forall acc,
             StronglySorted desc acc ->
             let out := foldl (fun acc x => insert_desc x acc) acc items in
             Permutation out (acc ++ items)
             /\ StronglySorted desc out
             /\ (forall z,
                    List.filter (fun p => (snd p =? z)%Z) out
                    = List.filter (fun p => (snd p =? z)%Z) (acc ++ items)))
    as H by (apply (H []); constructor).
  induction items as [|x items IH]; intros acc Hacc; cbn zeta.
  - simpl. rewrite app_nil_r. auto.
  - cbn [foldl].
    destruct (IH (insert_desc x acc) (insert_desc_sorted x acc Hacc))
      as (Hp & Hs & Hf). cbn zeta in Hp, Hs, Hf.
    split; [|split; [exact Hs|]].
    + rewrite Hp, insert_desc_perm.
      change (x :: acc) with ([x] ++ acc).
      rewrite (Permutation_app_comm [x] acc), <- app_assoc. reflexivity.
    + intros z. rewrite Hf, !List.filter_app, insert_desc_stable by exact Hacc.
      rewrite <- app_assoc. f_equal. cbn [List.filter app].
      destruct (snd x =? z)%Z; reflexivity.
Qed.

Section WithInt.

Variable int : string -> exn + Z.

(** *** One series, in terms of its reading *)

Lemma count_series_reading label field ret ts :
  count_series int label field ret ts
  = match reading label field ts with
    | None => inr ret
    | Some (service, val) =>
        match int_value int val with
        | inl e => inl e
        | inr n => inr (dict_set service n ret)
        end
    end.
Proof.
  destruct ts as [[[ls]|] pts]; unfold count_series, reading;
    cbn [resource points labels default from_option id].
  - destruct ls as [ls|]; cbn [default from_option id].
    + destruct (ls !! label) as [service|];
        cbn [default from_option id]; [|reflexivity].
      destruct service as [|c service].
      { cbn [truthy_str andb]. destruct pts as [[|point0 pts]|];
          try reflexivity.
        destruct (value point0) as [v|]; [|reflexivity].
        destruct (v !! field); reflexivity. }
      cbn [truthy_str andb].
      destruct pts as [[|point0 pts]|]; cbn [default from_option id];
        try reflexivity.
      destruct (value point0) as [v|]; cbn [default from_option id].
      * destruct (v !! field) as [val|]; cbn [default from_option id];
          [|reflexivity].
        destruct (truthy_value val); reflexivity.
      * rewrite lookup_empty. reflexivity.
    + rewrite lookup_empty. reflexivity.
  - rewrite lookup_empty. reflexivity.
Qed.

Lemma omap_cons_reading label field ts rest :
  omap (reading label field) (ts :: rest)
  = match reading label field ts with
    | Some r => r :: omap (reading label field) rest
    | None => omap (reading label field) rest
    end.
Proof. reflexivity. Qed.

Lemma count_page_readings label field ret series :
  count_page int label field ret series
  = apply_readings int ret (omap (reading label field) series).
Proof.
  revert ret. induction series as [|ts rest IH]; intros ret; [reflexivity|].
  cbn [count_page]. rewrite count_series_reading, omap_cons_reading.
  destruct (reading label field ts) as [[service val]|]; [|apply IH].
  cbn [apply_readings]. destruct (int_value int val); [reflexivity|apply IH].
Qed.

Lemma apply_readings_app ret rs1 rs2 :
  apply_readings int ret (rs1 ++ rs2)
  = match apply_readings int ret rs1 with
    | inl e => inl e
    | inr ret' => apply_readings int ret' rs2
    end.
Proof.
  revert ret. induction rs1 as [|[s v] rs1 IH]; intros ret; [reflexivity|].
  simpl. destruct (int_value int v); [reflexivity|apply IH].
Qed.

Lemma count_pages_readings label field kwargs page ret pages :
  pages_arrive pages ->
  snd (count_pages int label field kwargs page ret pages)
  = apply_readings int ret (omap (reading label field) (all_series pages)).
Proof.
  intros Hok. revert page ret.
  induction Hok as [|[e|response] rest Hp _ IH]; intros page ret;
    [reflexivity|contradiction|].
  cbn [count_pages]. unfold all_series. cbn [map concat].
  rewrite omap_app, apply_readings_app, <- count_page_readings.
  destruct (count_page int label field ret _) as [e|ret']; [reflexivity|].
  specialize (IH (S page) ret').
  destruct (count_pages int label field kwargs (S page) ret' rest)
    as [acts r]. exact IH.
Qed.

Lemma count_pages_arrive label field kwargs page ret pages d :
  snd (count_pages int label field kwargs page ret pages) = inr d ->
  pages_arrive pages.
Proof.
  revert page ret. induction pages as [|[e|response] rest IH];
    intros page ret; cbn [count_pages].
  - intros _. constructor.
  - discriminate.
  - destruct (count_page int label field ret _) as [e|ret']; [discriminate|].
    specialize (IH (S page) ret').
    destruct (count_pages int label field kwargs (S page) ret' rest)
      as [acts r].
    intros H. constructor; [exact I|]. apply IH. exact H.
Qed.

Lemma count_pages_requests label field kwargs page ret pages :
  let run := count_pages int label field kwargs page ret pages in
  mlogged (fst run) = []
  /\ mrequests (fst run)
     `prefix_of` map (fun j => (kwargs, j)) (seq page (length pages))
  /\ (forall d, snd run = inr d ->
        mrequests (fst run)
        = map (fun j => (kwargs, j)) (seq page (length pages))).
Proof.
  revert page ret. induction pages as [|[e|response] rest IH];
    intros page ret; cbn zeta; cbn [count_pages length seq map].
  - repeat split; reflexivity.
  - split; [reflexivity|]. split; [apply prefix_cons, prefix_nil|].
    discriminate.
  - destruct (count_page int label field ret _) as [e|ret'].
    + split; [reflexivity|]. split; [apply prefix_cons, prefix_nil|].
      discriminate.
    + specialize (IH (S page) ret'). cbn zeta in IH.
      destruct (count_pages int label field kwargs (S page) ret' rest)
        as [acts r]. cbn [fst snd] in *.
      destruct IH as (Hl & Hp & Hr). split; [exact Hl|].
      change (mrequests (MRequest kwargs page :: acts))
        with ((kwargs, page) :: mrequests acts).
      split; [apply prefix_cons, Hp|]. intros d Hd. f_equal. exact (Hr d Hd).
Qed.

(** *** What a successful count holds *)

Lemma apply_readings_get ret rs d k :
  apply_readings int ret rs = inr d ->
  dict_get k d
  = match last_val k rs with
    | Some val =>
        match int_value int val with inr n => Some n | inl _ => None end
    | None => dict_get k ret
    end.
Proof.
  revert ret. induction rs as [|[s v] rs IH]; intros ret; simpl.
  - intros [= ->]. reflexivity.
  - destruct (int_value int v) as [e|n] eqn:Hv; [discriminate|]. intros Hd.
    rewrite (IH _ Hd). destruct (last_val k rs); [reflexivity|].
    case_bool_decide as Hs.
    + subst s. rewrite Hv. apply dict_get_set_eq.
    + apply dict_get_set_ne. exact Hs.
Qed.

Lemma apply_readings_keys ret rs d :
  NoDup (map fst ret) -> apply_readings int ret rs = inr d ->
  NoDup (map fst d).
Proof.
  revert ret. induction rs as [|[s v] rs IH]; intros ret Hnd; simpl.
  - intros [= <-]. exact Hnd.
  - destruct (int_value int v) as [e|n]; [discriminate|]. apply IH.
    rewrite dict_set_keys. case_bool_decide as Hin; [exact Hnd|].
    apply NoDup_app. split; [exact Hnd|]. split; [|apply NoDup_singleton].
    intros x Hx Hx'. apply list_elem_of_singleton in Hx'. subst x. auto.
Qed.

(** What the dict of a successful run of the loops holds. *)
Lemma counts_spec label field kwargs pages d :
  snd (count_pages int label field kwargs 0 [] pages) = inr d ->
  let readings := omap (reading label field) (all_series pages) in
  NoDup (map fst d)
  /\ (forall k n,
        dict_get k d = Some n
        <-> exists pre val post,
              readings = pre ++ (k, val) :: post
              /\ (forall v, ~ In (k, v) post)
              /\ int_value int val = inr n).
Proof.
  intros Hd readings.
  pose proof (count_pages_arrive _ _ _ _ _ _ _ Hd) as Hok.
  rewrite (count_pages_readings _ _ _ _ _ _ Hok) in Hd. fold readings in Hd.
  split.
  - apply (apply_readings_keys [] readings d); [constructor|exact Hd].
  - intros k n. rewrite (apply_readings_get _ _ _ k Hd). split.
    + destruct (last_val k readings) as [val|] eqn:Hl; [|discriminate].
      destruct (int_value int val) as [e|m] eqn:Hv; [discriminate|].
      intros [= ->]. apply last_val_spec in Hl as (pre & post & H & Hp).
      eauto 6.
    + intros (pre & val & post & H & Hp & Hv).
      assert (last_val k readings = Some val) as ->
        by (apply last_val_spec; eauto).
      rewrite Hv. reflexivity.
Qed.

(** When the start of the time frame cannot be computed, nothing else
    happens. *)
Lemma ActiveServices_no_start w self timeframe e :
  start_of w timeframe = inl e ->
  ActiveServices int w self timeframe = ([], self, inl e).
Proof. intros Hs. unfold ActiveServices. rewrite Hs. reflexivity. Qed.

Lemma StorageSize_no_start w self timeframe bucket_name e :
  start_of w timeframe = inl e ->
  StorageSize int w self timeframe bucket_name = ([], self, inl e).
Proof. intros Hs. unfold StorageSize. rewrite Hs. reflexivity. Qed.

Lemma run_ActiveServices w self timeframe start :
  start_of w timeframe = inr start ->
  snd (ActiveServices int w self timeframe)
  = snd (count_pages int "service" "int64Value"
           (active_services_kwargs start (end_time w)
                                   (snd (fst (GcmApi self))) timeframe)
           0 [] (active_pages w self timeframe)).
Proof.
  intros Hs. unfold ActiveServices, active_pages. rewrite Hs.
  destruct (GcmApi self) as [[created self'] service]. cbn [fst snd].
  destruct (count_pages int _ _ _ 0 [] _) as [acts r]. reflexivity.
Qed.

Lemma run_StorageSize w self timeframe bucket_name start :
  start_of w timeframe = inr start ->
  snd (StorageSize int w self timeframe bucket_name)
  = snd (count_pages int "bucket_name" "doubleValue"
           (storage_size_kwargs start (end_time w)
                                (snd (fst (GcmApi self))) timeframe
                                bucket_name)
           0 [] (size_pages w self timeframe bucket_name)).
Proof.
  intros Hs. unfold StorageSize, size_pages. rewrite Hs.
  destruct (GcmApi self) as [[created self'] service]. cbn [fst snd].
  destruct (count_pages int _ _ _ 0 [] _) as [acts r]. reflexivity.
Qed.

Lemma ActiveServices_started w self timeframe d :
  snd (ActiveServices int w self timeframe) = inr d ->
  exists start, start_of w timeframe = inr start.
Proof.
  destruct (start_of w timeframe) as [e|start] eqn:Hs; [|eauto].
  rewrite (ActiveServices_no_start _ _ _ _ Hs). discriminate.
Qed.

Lemma StorageSize_started w self timeframe bucket_name d :
  snd (StorageSize int w self timeframe bucket_name) = inr d ->
  exists start, start_of w timeframe = inr start.
Proof.
  destruct (start_of w timeframe) as [e|start] eqn:Hs; [|eauto].
  rewrite (StorageSize_no_start _ _ _ _ _ Hs). discriminate.
Qed.

(** X13. When [ActiveServices] returns, every service appears once, and
    the count of a service is that of the last time series that carries
    it: a series counts only if it has a non-empty service label and a
    truthy int64Value in its first point; series that lack a member are
    passed over without an error. *)
Theorem ActiveServices_counts w self timeframe d :
  snd (ActiveServices int w self timeframe) = inr d ->
  let readings :=
    omap (reading "service" "int64Value")
         (all_series (active_pages w self timeframe)) in
  NoDup (map fst d)
  /\ (forall k n,
        dict_get k d = Some n
        <-> exists pre val post,
              readings = pre ++ (k, val) :: post
              /\ (forall v, ~ In (k, v) post)
              /\ int_value int val = inr n).
Proof.
  intros Hd. destruct (ActiveServices_started _ _ _ _ Hd) as [start Hs].
  rewrite (run_ActiveServices _ _ _ _ Hs) in Hd.
  exact (counts_spec _ _ _ _ _ Hd).
Qed.

Lemma reading_first_point label field ts :
  reading label field (first_point_only ts) = reading label field ts.
Proof.
  destruct ts as [r [[|point0 pts]|]]; reflexivity.
Qed.

Lemma count_page_trim label field ret series :
  count_page int label field ret (map first_point_only series)
  = count_page int label field ret series.
Proof.
  rewrite !count_page_readings. f_equal.
  induction series as [|ts rest IH]; [reflexivity|].
  cbn [map]. rewrite !omap_cons_reading, reading_first_point, IH.
  reflexivity.
Qed.

Lemma count_pages_trim label field kwargs page ret pages :
  count_pages int label field kwargs page ret (map trim_page pages)
  = count_pages int label field kwargs page ret pages.
Proof.
  revert page ret. induction pages as [|[e|response] rest IH];
    intros page ret; [reflexivity|reflexivity|].
  cbn [map trim_page count_pages]. rewrite lookup_fmap.
  assert (default [] (map first_point_only <$> response !! "timeSeries")
          = map first_point_only (default [] (response !! "timeSeries")))
    as -> by (destruct (response !! "timeSeries"); reflexivity).
  rewrite count_page_trim.
  destruct (count_page int label field ret _) as [e|ret']; [reflexivity|].
  rewrite IH. reflexivity.
Qed.

(** X14. [ActiveServices] reads the first point of a series and no
    other: a platform that answers with every series cut down to its
    first point gives the same requests and the same result. *)
Theorem ActiveServices_first_point_only w w' self timeframe :
  start_time w' = start_time w ->
  end_time w' = end_time w ->
  (forall kwargs,
      time_series w' kwargs
      = (trim_page (fst (time_series w kwargs)),
         map trim_page (snd (time_series w kwargs)))) ->
  ActiveServices int w' self timeframe = ActiveServices int w self timeframe.
Proof.
  intros Hs He Hts. unfold ActiveServices, ExecuteRequest, start_of.
  rewrite Hs, He.
  destruct (_ || _); [reflexivity|].
  destruct (_ <? _)%Z; [reflexivity|].
  destruct (_ <? _)%Z; [reflexivity|].
  destruct (start_time w timeframe) as [e|start]; [reflexivity|].
  destruct (GcmApi self) as [[created self'] service].
  rewrite Hts. cbn [fst snd].
  change (trim_page ?p :: map trim_page ?l) with (map trim_page (p :: l)).
  rewrite count_pages_trim. reflexivity.
Qed.

(** X15. One count that is not an integer makes [ActiveServices] fail as
    a whole: when the start of the time frame could be computed, the
    pages arrive and [int] refuses the value of a reading (those before it
    being accepted), the [ValueError] is the result and no count is
    returned. *)
Theorem ActiveServices_bad_count w self timeframe start pre service val
    post e :
  start_of w timeframe = inr start ->
  pages_arrive (active_pages w self timeframe) ->
  omap (reading "service" "int64Value")
       (all_series (active_pages w self timeframe))
    = pre ++ (service, val) :: post ->
  Forall (fun r => exists n, int_value int (snd r) = inr n) pre ->
  int_value int val = inl e ->
  snd (ActiveServices int w self timeframe) = inl e.
Proof.
  intros Hs Hok Hrs Hpre Hval. rewrite (run_ActiveServices _ _ _ _ Hs).
  rewrite (count_pages_readings _ _ _ _ _ _ Hok), Hrs, apply_readings_app.
  assert (forall ret, exists ret', apply_readings int ret pre = inr ret')
    as Hp.
  { clear -Hpre. induction Hpre as [|[s v] pre [n Hn] _ IH]; intros ret.
    - eexists. reflexivity.
    - simpl in *. rewrite Hn. apply IH. }
  destruct (Hp []) as [ret' ->]. simpl. rewrite Hval. reflexivity.
Qed.

(** *** [ListServices] *)

Lemma sorted_desc_length items : length (sorted_desc items) = length items.
Proof.
  apply Permutation_length. apply sorted_desc_spec.
Qed.

Lemma GcmApi_quiet self :
  mlogged (fst (fst (GcmApi self))) = []
  /\ mrequests (fst (fst (GcmApi self))) = [].
Proof. unfold GcmApi. destruct (gcm_api_client self); split; reflexivity. Qed.

Lemma mlogged_app a b : mlogged (a ++ b) = mlogged a ++ mlogged b.
Proof. apply omap_app. Qed.

Lemma mrequests_app a b : mrequests (a ++ b) = mrequests a ++ mrequests b.
Proof. apply omap_app. Qed.

Lemma ActiveServices_quiet w self timeframe :
  mlogged (fst (fst (ActiveServices int w self timeframe))) = [].
Proof.
  unfold ActiveServices.
  destruct (start_of w timeframe) as [e|start]; [reflexivity|].
  destruct (GcmApi_quiet self) as [Hg _].
  destruct (GcmApi self) as [[created self'] service].
  destruct (count_pages_requests "service" "int64Value"
              (active_services_kwargs start (end_time w) self' timeframe)
              0 []
              (ExecuteRequest w service "list"
                 (active_services_kwargs start (end_time w) self'
                                         timeframe)))
    as (Hq & _). cbn zeta in Hq.
  destruct (count_pages int _ _ _ 0 [] _) as [acts r]. cbn [fst snd] in *.
  rewrite mlogged_app, Hq, Hg. reflexivity.
Qed.

(** X16. The CLI's ListServices never prints a service: it logs the
    number of services found and then, if there is any, stops with a
    ValueError at the first line, where an integer count is formatted
    with [{1:s}].  It returns normally only when no service was
    counted. *)
Theorem ListServices_never_lists w args :
  let run := ListServices int w args in
  match snd (ActiveServices int w (init (gcp_cli.project args) None false) 30)
  with
  | inl e => snd run = inl e /\ mlogged (fst run) = []
  | inr results =>
      mlogged (fst run)
        = ["Found " +:+ pretty (length results) +:+ " APIs:"]
      /\ snd run
         = match results with
           | [] => inr tt
           | _ :: _ =>
               inl (ValueError
                      "Unknown format code 's' for object of type 'int'")
           end
  end.
Proof.
  cbn zeta. unfold ListServices.
  pose proof (ActiveServices_quiet w (init (gcp_cli.project args) None false)
                                   30) as Hq.
  destruct (ActiveServices int w _ 30) as [[acts self'] [e|results]];
    cbn [fst snd] in *.
  - split; [reflexivity|exact Hq].
  - pose proof (sorted_desc_length results) as Hlen.
    destruct (sorted_desc results) as [|[apiname usage] rest] eqn:Hs.
    + destruct results; [|discriminate]. cbn [log_apis fst snd].
      rewrite mlogged_app, Hq. split; reflexivity.
    + destruct results as [|x results]; [discriminate|].
      cbn [log_apis format_api_line fst snd].
      rewrite mlogged_app, Hq. split; reflexivity.
Qed.

(** *** [StorageSize] and [GetBucketSize] *)

(** X17. When [StorageSize] returns, every bucket appears once, with
    the size of the last time series that carries the bucket and a truthy
    doubleValue in its first point, as [int] makes it (a float is
    truncated towards zero). *)
Theorem StorageSize_sizes w self timeframe bucket_name d :
  snd (StorageSize int w self timeframe bucket_name) = inr d ->
  let readings :=
    omap (reading "bucket_name" "doubleValue")
         (all_series (size_pages w self timeframe bucket_name)) in
  NoDup (map fst d)
  /\ (forall k n,
        dict_get k d = Some n
        <-> exists pre val post,
              readings = pre ++ (k, val) :: post
              /\ (forall v, ~ In (k, v) post)
              /\ int_value int val = inr n).
Proof.
  intros Hd. destruct (StorageSize_started _ _ _ _ _ Hd) as [start Hs].
  rewrite (run_StorageSize _ _ _ _ _ Hs) in Hd.
  exact (counts_spec _ _ _ _ _ Hd).
Qed.

Lemma reading_Some label field ts k val :
  reading label field ts = Some (k, val) ->
  label_of label ts = k /\ first_value field ts = Some val
  /\ truthy_value val = true.
Proof.
  unfold reading, label_of, first_value.
  destruct ts as [[[[ls|]]|] [[|point0 pts]|]];
    cbn [resource points labels default from_option id]; try discriminate;
    try (destruct (ls !! label); discriminate).
  destruct (ls !! label) as [service|]; [|discriminate].
  destruct (value point0) as [v|]; [|discriminate].
  cbn [default from_option id].
  destruct (v !! field) as [val'|]; [|discriminate].
  destruct (truthy_str (Some service) && truthy_value val') eqn:Ht;
    [|discriminate].
  intros [= -> ->]. apply andb_prop in Ht as [_ Ht]. auto.
Qed.

(** X18. A bucket that holds nothing is not reported: when the first
    point of every series of a bucket gives a size of zero, [StorageSize]
    takes the zero for a missing value and leaves the bucket out of its
    result. *)
Theorem StorageSize_empty_bucket_unreported w self timeframe bucket_name d k :
  snd (StorageSize int w self timeframe bucket_name) = inr d ->
  (forall ts,
      In ts (all_series (size_pages w self timeframe bucket_name)) ->
      label_of "bucket_name" ts = k ->
      exists q, first_value "doubleValue" ts = Some (VFloat q) /\ (q == 0)%Q) ->
  dict_get k d = None.
Proof.
  intros Hd Hzero. destruct (StorageSize_started _ _ _ _ _ Hd) as [start Hs].
  rewrite (run_StorageSize _ _ _ _ _ Hs) in Hd.
  destruct (counts_spec _ _ _ _ _ Hd) as [_ Hget]. cbn zeta in Hget.
  destruct (dict_get k d) as [n|] eqn:Hk; [|reflexivity].
  exfalso. apply Hget in Hk as (pre & val & post & Hr & _ & _).
  assert ((k, val) ∈ omap (reading "bucket_name" "doubleValue")
                      (all_series (size_pages w self timeframe bucket_name)))
    as Hin.
  { rewrite Hr. apply list_elem_of_In, in_or_app. right. left. reflexivity. }
  apply list_elem_of_omap in Hin as (ts & Hts & Hv).
  apply reading_Some in Hv as (Hl & Hf & Ht).
  destruct (Hzero ts (proj1 (list_elem_of_In _ _) Hts) Hl) as (q & Hq & Hz).
  rewrite Hq in Hf. injection Hf as <-.
  unfold truthy_value in Ht. apply negb_true_iff, Z.eqb_neq in Ht.
  unfold Qeq in Hz. simpl in Hz. lia.
Qed.

Lemma StorageSize_quiet w self timeframe bucket_name :
  mlogged (fst (fst (StorageSize int w self timeframe bucket_name))) = [].
Proof.
  unfold StorageSize.
  destruct (start_of w timeframe) as [e|start]; [reflexivity|].
  destruct (GcmApi_quiet self) as [Hg _].
  destruct (GcmApi self) as [[created self'] service].
  destruct (count_pages_requests "bucket_name" "doubleValue"
              (storage_size_kwargs start (end_time w) self' timeframe
                                   bucket_name) 0 []
              (ExecuteRequest w service "list"
                 (storage_size_kwargs start (end_time w) self' timeframe
                                      bucket_name)))
    as (Hq & _). cbn zeta in Hq.
  destruct (count_pages int _ _ _ 0 [] _) as [acts r]. cbn [fst snd] in *.
  rewrite mlogged_app, Hq, Hg. reflexivity.
Qed.

(** X19. The CLI's GetBucketSize logs one line per bucket of the result
    of [StorageSize], [<name>: <size>], larger sizes first and buckets of
    equal size in the order of the result; when [StorageSize] fails,
    nothing is logged and the exception is passed on. *)
Theorem GetBucketSize_lines w args :
  let run := GetBucketSize int w args in
  match snd (StorageSize int w
               (init (args_project args) (args_key_file args)
                     (args_search_all args)) 1 (args_bucket_name args))
  with
  | inl e => snd run = inl e /\ mlogged (fst run) = []
  | inr results =>
      snd run = inr tt
      /\ exists sorted_buckets,
           mlogged (fst run) = map size_line sorted_buckets
           /\ Permutation sorted_buckets results
           /\ StronglySorted desc sorted_buckets
           /\ (forall z,
                 List.filter (fun p => (snd p =? z)%Z) sorted_buckets
                 = List.filter (fun p => (snd p =? z)%Z) results)
  end.
Proof.
  cbn zeta. unfold GetBucketSize.
  pose proof (StorageSize_quiet w
                (init (args_project args) (args_key_file args)
                      (args_search_all args)) 1 (args_bucket_name args))
    as Hq.
  destruct (StorageSize int w _ 1 _) as [[acts self'] [e|results]];
    cbn [fst snd] in *.
  - split; [reflexivity|exact Hq].
  - split; [reflexivity|]. exists (sorted_desc results).
    split; [|apply sorted_desc_spec].
    rewrite mlogged_app, Hq. cbn [app]. unfold mlogged.
    induction (sorted_desc results) as [|x l IH]; [reflexivity|].
    cbn [map]. change (omap ?f (MLog ?m :: ?r)) with (m :: omap f r).
    rewrite IH. reflexivity.
Qed.

(** *** The requests of the two functions *)

Lemma count_pages_script label field kwargs page ret pages :
  let run := count_pages int label field kwargs page ret pages in
  exists k,
    k <= length pages
    /\ fst run = map (MRequest kwargs) (seq page k)
    /\ (forall d, snd run = inr d -> k = length pages)
    /\ (forall e, snd run = inl e -> 0 < k).
Proof.
  revert page ret. induction pages as [|[e|response] rest IH];
    intros page ret; cbn zeta; cbn [count_pages length].
  - exists 0. repeat split; [reflexivity|discriminate].
  - exists 1. repeat split; [lia|discriminate|lia].
  - destruct (count_page int label field ret _) as [e|ret'].
    + exists 1. repeat split; [lia|discriminate|lia].
    + destruct (IH (S page) ret') as (k & Hk & Hs & Hr & He).
      destruct (count_pages int label field kwargs (S page) ret' rest)
        as [acts r]. cbn [fst snd] in *.
      exists (S k). split; [lia|]. split; [rewrite Hs; reflexivity|].
      split; [intros d Hd; f_equal; exact (Hr d Hd)|]. intros; lia.
Qed.

(** What [GcmApi] does to the script and to the object. *)
Lemma GcmApi_cases self :
  fst (fst (GcmApi self))
  = match gcm_api_client self with
    | Some _ => []
    | None => [MCreateService "monitoring" "v3" (key_file self)]
    end
  /\ project_id (snd (fst (GcmApi self))) = project_id self
  /\ gcm_api_client (snd (fst (GcmApi self))) <> None.
Proof.
  unfold GcmApi. destruct (gcm_api_client self) eqn:Hc; cbn [fst snd].
  - split; [reflexivity|]. split; [reflexivity|]. rewrite Hc. discriminate.
  - split; [reflexivity|]. split; [reflexivity|]. discriminate.
Qed.

(** X20. [ActiveServices] and [StorageSize] compute the start of the
    time frame first: when that fails (the time frame leads out of the
    years 1 to 9999, or is too large for [timedelta]), the
    [OverflowError] is the outcome, no handle is created, no request is
    made and the object is as before.  Otherwise they create the handle
    exactly when the object has none, and then only fetch pages: the pages
    of one request, in order from the first, each once, up to the last
    page (when the function returns) or up to the page at which it fails;
    the object is left with a handle. *)
Theorem monitoring_requests w self timeframe bucket_name :
  let handle :=
    match gcm_api_client self with
    | Some _ => []
    | None => [MCreateService "monitoring" "v3" (key_file self)]
    end in
  let shape (run : list MAction * GoogleCloudMonitoring * (exn + Dict))
            (kwargs : string -> Kwargs) (pages : list (exn + TsPage)) :=
    match start_of w timeframe with
    | inl e => run = ([], self, inl e)
    | inr start =>
        gcm_api_client (snd (fst run)) <> None
        /\ exists k,
             k <= length pages
             /\ fst (fst run)
                = handle ++ map (MRequest (kwargs start)) (seq 0 k)
             /\ (forall d, snd run = inr d -> k = length pages)
             /\ (forall e, snd run = inl e -> 0 < k)
    end in
  shape (ActiveServices int w self timeframe)
        (fun start =>
           active_services_kwargs start (end_time w) self timeframe)
        (active_pages w self timeframe)
  /\ shape (StorageSize int w self timeframe bucket_name)
           (fun start =>
              storage_size_kwargs start (end_time w) self timeframe
                                  bucket_name)
           (size_pages w self timeframe bucket_name)
  /\ (((timeframe < -3652058)%Z \/ (3652058 < timeframe)%Z) ->
      exists msg, start_of w timeframe = inl (OverflowError msg)).
Proof.
  cbn zeta. destruct (GcmApi_cases self) as (Hh & Hp & Hc).
  assert (forall start,
             active_services_kwargs start (end_time w)
                                    (snd (fst (GcmApi self))) timeframe
             = active_services_kwargs start (end_time w) self timeframe)
    as Ha
    by (intros start; unfold active_services_kwargs; rewrite Hp;
        reflexivity).
  assert (forall start,
             storage_size_kwargs start (end_time w)
                                 (snd (fst (GcmApi self))) timeframe
                                 bucket_name
             = storage_size_kwargs start (end_time w) self timeframe
                                   bucket_name) as Hs
    by (intros start; unfold storage_size_kwargs; rewrite Hp;
        reflexivity).
  split; [|split].
  - unfold ActiveServices, active_pages.
    destruct (start_of w timeframe) as [e|start]; [reflexivity|].
    rewrite <- Hh, <- Ha.
    destruct (GcmApi self) as [[created self'] service]. cbn [fst snd] in *.
    destruct (count_pages_script "service" "int64Value"
                (active_services_kwargs start (end_time w) self' timeframe)
                0 []
                (ExecuteRequest w service "list"
                   (active_services_kwargs start (end_time w) self'
                                           timeframe)))
      as (k & Hk & Hscript & Hr & He). cbn zeta in Hscript, Hr, He.
    destruct (count_pages int _ _ _ 0 [] _) as [acts r]. cbn [fst snd] in *.
    split; [exact Hc|]. exists k. rewrite Hscript. auto.
  - unfold StorageSize, size_pages.
    destruct (start_of w timeframe) as [e|start]; [reflexivity|].
    rewrite <- Hh, <- Hs.
    destruct (GcmApi self) as [[created self'] service]. cbn [fst snd] in *.
    destruct (count_pages_script "bucket_name" "doubleValue"
                (storage_size_kwargs start (end_time w) self' timeframe
                                     bucket_name) 0 []
                (ExecuteRequest w service "list"
                   (storage_size_kwargs start (end_time w) self' timeframe
                                        bucket_name)))
      as (k & Hk & Hscript & Hr & He). cbn zeta in Hscript, Hr, He.
    destruct (count_pages int _ _ _ 0 [] _) as [acts r]. cbn [fst snd] in *.
    split; [exact Hc|]. exists k. rewrite Hscript. auto.
  - intros Hout. unfold start_of.
    destruct (_ || _); [eauto|].
    destruct (999999999 <? Z.abs timeframe)%Z; [eauto|].
    destruct (Z.ltb_spec 3652058 (Z.abs timeframe)); [eauto|lia].
Qed.

End WithInt.

End MonitoringFacts.

(** ** The further properties on the examples *)

Module MoreChecks.

Import log LogFacts LogClaims LogMore LogExtra.
Import Examples MoreExamples Checks.

(** A query of the project "main" alone is one batch, whatever the 52
    scopes of the credentials. *)
Lemma single_scope_main :
  logged (script_of (ExecuteQuery all_pages_arrive "severity=ERROR"
                                  (fresh "main" None false)))
  = ["Projects being queried: 1"]
  /\ batch_requests (script_of (ExecuteQuery all_pages_arrive "severity=ERROR"
                                             (fresh "main" None false)))
     = [{| resourceNames := ["projects/main"]; filter := "severity=ERROR";
           orderBy := "timestamp desc" |}].
Proof.
  destruct (single_scope_one_batch all_pages_arrive "severity=ERROR"
              (fresh "main" None false) (eq_refl false))
    as (_ & Hl & Hb & _).
  split; [exact Hl|]. vm_compute in Hb |- *. exact Hb.
Defined.

(** After the first query over the 52 scopes the object holds a handle
    and no scopes. *)
Lemma cache_dropped_52 :
  projects (self (final_store (ExecuteQuery all_pages_arrive "severity=ERROR"
                                            (fresh "main" None true))))
  = []
  /\ gcl_api_client
       (self (final_store (ExecuteQuery all_pages_arrive "severity=ERROR"
                                        (fresh "main" None true))))
     = Some (Service "logging" "v2" None).
Proof.
  assert (length (List.filter is_active scopes52) = 51) as Hlen
    by (vm_compute; reflexivity).
  assert (List.filter is_active scopes52 <> []) as Hact
    by (intros Hnil; rewrite Hnil in Hlen; discriminate Hlen).
  destruct (discovery_cache_dropped_once all_pages_arrive "severity=ERROR"
              "main" None scopes52 (eq_refl (inr scopes52)) Hact)
    as (Hp & Hc & _).
  split; [exact Hp|exact Hc].
Defined.

(** The five entries that arrive before the failure are the first five
    of the fault-free output. *)
Lemma prefix_before_failure :
  yields (script_of (ExecuteQuery two_pages_then_failure "severity=ERROR"
                                  all_scopes))
  `prefix_of` expected_entries two_pages_then_failure "severity=ERROR"
                (ncalls all_scopes) ids51.
Proof.
  exact (proj1 (output_is_prefix_of_fault_free two_pages_then_failure
                  "severity=ERROR" all_scopes discovery_call resolved52 ids51
                  (resolve52 two_pages_then_failure (eq_refl (inr scopes52))))).
Defined.

End MoreChecks.

Module ListLogsChecks.

Import log LogMore listlogs ListLogsFacts.
Import Examples MoreExamples.

(** A fresh object for the project "main" lists nothing, although every
    scope of the platform has logs. *)
Lemma single_project_lists_nothing :
  ListLogs all_pages_arrive three_pages (fresh "main" None false)
  = (map Base (service_actions (fresh "main" None false)),
     with_handle (fresh "main" None false), inr []).
Proof.
  apply ListLogs_single_project_is_empty; [reflexivity|left; reflexivity].
Defined.

Lemma three_pages_arrive call parent :
  pages_arrive (fst (three_pages call parent) :: snd (three_pages call parent)).
Proof. repeat constructor. Defined.

Lemma scopes3_have_ids : Forall has_id scopes3.
Proof.
  unfold scopes3.
  constructor; [intros _; exists "p0"; vm_compute; reflexivity|].
  constructor; [intros _; exists "p1"; vm_compute; reflexivity|].
  constructor; [intros _; exists "p2"; vm_compute; reflexivity|].
  constructor.
Defined.

Lemma listed_scopes3 :
  listed_scopes three_scopes (fresh "main" None true) = inr scopes3.
Proof.
  cbv beta iota delta [listed_scopes fresh init self gcl_api_client
                       GetProjects three_scopes].
  reflexivity.
Defined.

(** The logs of the two ACTIVE scopes among three, in six requests. *)
Lemma logs_of_two_active_scopes :
  snd (ListLogs three_scopes three_pages (fresh "main" None true))
  = inr ["projects/p0/logs/syslog"; "projects/p0/logs/activity";
         "projects/p0/logs/audit";
         "projects/p2/logs/syslog"; "projects/p2/logs/activity";
         "projects/p2/logs/audit"]
  /\ list_requests
       (fst (fst (ListLogs three_scopes three_pages (fresh "main" None true))))
     = [(0, "projects/p0", 0); (0, "projects/p0", 1); (0, "projects/p0", 2);
        (1, "projects/p2", 0); (1, "projects/p2", 1); (1, "projects/p2", 2)].
Proof.
  destruct (ListLogs_all_scopes_result three_scopes three_pages
              (fresh "main" None true) scopes3 (eq_refl true) listed_scopes3
              scopes3_have_ids
              (fun i p _ => three_pages_arrive _ _))
    as [Hr Hq].
  split.
  - vm_compute in Hr |- *. exact Hr.
  - vm_compute in Hq |- *. exact Hq.
Defined.

(** The fourth request of that run is for the ACTIVE scope p2. *)
Lemma fourth_request_is_active :
  exists p id,
    In p scopes3 /\ p !! "lifecycleState" = Some "ACTIVE"
    /\ p !! "projectId" = Some id /\ "projects/p2" = "projects/" +:+ id.
Proof.
  apply (ListLogs_requests_only_active three_scopes three_pages
           (fresh "main" None true) scopes3 1 "projects/p2" 0
           (eq_refl true) listed_scopes3).
  vm_compute. auto 10.
Defined.

Lemma listed_nameless :
  listed_scopes nameless_scope (fresh "main" None true)
  = inr ([scope 0 "ACTIVE"] ++ nameless :: [scope 2 "ACTIVE"]).
Proof.
  cbv beta iota delta [listed_scopes fresh init self gcl_api_client
                       GetProjects nameless_scope].
  reflexivity.
Defined.

(** With the nameless scope, listing stops with a TypeError before any
    request. *)
Lemma nameless_scope_type_error :
  (exists msg,
      snd (ListLogs nameless_scope three_pages (fresh "main" None true))
      = inl (TypeError msg))
  /\ list_requests
       (fst (fst (ListLogs nameless_scope three_pages
                           (fresh "main" None true))))
     = [].
Proof.
  assert (Forall has_id [scope 0 "ACTIVE"]) as Hpre.
  { constructor; [intros _; exists "p0"; vm_compute; reflexivity|].
    constructor. }
  assert (is_active nameless = true) as Hact by (vm_compute; reflexivity).
  assert (nameless !! "projectId" = None) as Hno by (vm_compute; reflexivity).
  destruct (ListLogs_missing_projectId nameless_scope three_pages
              (fresh "main" None true) [scope 0 "ACTIVE"] nameless
              [scope 2 "ACTIVE"] (eq_refl true) listed_nameless Hpre Hact Hno)
    as (He & Hq & _).
  split; [exact He|exact Hq].
Defined.

(** The CLI, asked for the logs of "main". *)
Lemma cli_lists_nothing :
  cli_ListLogs all_pages_arrive three_pages (cli_args None None None)
  = ([Base (ACreateService "logging" "v2" None);
      Base (ALog "Found 0 available log types:")],
     inr tt).
Proof.
  exact (cli_ListLogs_single_project all_pages_arrive three_pages
           (cli_args None None None) (eq_refl false)).
Defined.

End ListLogsChecks.

Module AnalysisVmChecks.

Import analysis_vm AnalysisVmFacts.

(** Two disks are passed on; a doubled comma is reported. *)
Lemma two_disks_accepted :
  check_attach_disks (Some "disk1,disk2") = Accepted ["disk1"; "disk2"].
Proof.
  assert ("disk1,disk2" <> EmptyString) as Harg by discriminate.
  apply (proj1 (attach_disks_accepted "disk1,disk2" Harg)).
  split; [discriminate|]. split; [|reflexivity].
  repeat constructor; discriminate.
Defined.

End AnalysisVmChecks.

Module MonitoringChecks.

Import monitoring MonitoringFacts.
Import MoreExamples.

(** Thirty days and one day before the clock reading of the examples. *)
Lemma thirty_days_before pages :
  start_of (world_of pages) 30 = inr "2021-01-01T00:00:00Z".
Proof. vm_compute. reflexivity. Qed.

Lemma one_day_before pages :
  start_of (world_of pages) 1 = inr "2021-01-30T00:00:00Z".
Proof. vm_compute. reflexivity. Qed.

Lemma active_pages_world_of p pages self timeframe start :
  start_of (world_of (p :: pages)) timeframe = inr start ->
  active_pages (world_of (p :: pages)) self timeframe = p :: pages.
Proof. intros Hs. unfold active_pages. rewrite Hs. reflexivity. Qed.

Lemma size_pages_world_of p pages self timeframe bucket_name start :
  start_of (world_of (p :: pages)) timeframe = inr start ->
  size_pages (world_of (p :: pages)) self timeframe bucket_name = p :: pages.
Proof. intros Hs. unfold size_pages. rewrite Hs. reflexivity. Qed.

(** Three services are counted in the example, the one that comes twice
    with its later count, and from first points only. *)
Lemma services_counted :
  NoDup (map fst [("compute.googleapis.com", 15%Z);
                  ("storage.googleapis.com", 7%Z)])
  /\ snd (ActiveServices decimal services_world main_project 30)
     = inr [("compute.googleapis.com", 15%Z);
            ("storage.googleapis.com", 7%Z)].
Proof.
  assert (snd (ActiveServices decimal services_world main_project 30)
          = inr [("compute.googleapis.com", 15%Z);
                 ("storage.googleapis.com", 7%Z)]) as Hd
    by (vm_compute; reflexivity).
  split; [|exact Hd].
  exact (proj1 (ActiveServices_counts decimal services_world main_project 30
                  _ Hd)).
Defined.

(** Cutting the example's series down to their first points changes
    nothing. *)
Lemma first_points_suffice :
  ActiveServices decimal (trimmed services_world) main_project 30
  = ActiveServices decimal services_world main_project 30.
Proof.
  apply ActiveServices_first_point_only; [reflexivity|reflexivity|].
  intros kwargs. reflexivity.
Defined.

(** The count "7.5" of the second service makes the whole listing fail. *)
Lemma bad_count_fails :
  snd (ActiveServices decimal bad_count main_project 30)
  = inl (ValueError "invalid literal for int() with base 10: '7.5'").
Proof.
  apply (ActiveServices_bad_count decimal bad_count main_project 30
           "2021-01-01T00:00:00Z"
           [("compute.googleapis.com", VStr "12")]
           "storage.googleapis.com" (VStr "7.5")
           [("logging.googleapis.com", VStr "3")]).
  - apply thirty_days_before.
  - unfold bad_count.
    rewrite (active_pages_world_of _ _ _ _ _ (thirty_days_before _)).
    repeat constructor.
  - vm_compute. reflexivity.
  - constructor; [exists 12%Z; vm_compute; reflexivity|constructor].
  - vm_compute. reflexivity.
Defined.

(** The sizes of the example: 1536.5 bytes are reported as 1536, and the
    empty bucket is missing. *)
Lemma bucket_sizes_reported :
  NoDup (map fst [("evidence", 1536%Z); ("images", 2048%Z)])
  /\ snd (StorageSize decimal bucket_sizes main_project 1 None)
     = inr [("evidence", 1536%Z); ("images", 2048%Z)].
Proof.
  assert (snd (StorageSize decimal bucket_sizes main_project 1 None)
          = inr [("evidence", 1536%Z); ("images", 2048%Z)]) as Hd
    by (vm_compute; reflexivity).
  split; [|exact Hd].
  exact (proj1 (StorageSize_sizes decimal bucket_sizes main_project 1 None
                  _ Hd)).
Defined.

Lemma scratch_is_empty ts :
  In ts (all_series (size_pages bucket_sizes main_project 1 None)) ->
  label_of "bucket_name" ts = "scratch" ->
  exists q, first_value "doubleValue" ts = Some (VFloat q) /\ (q == 0)%Q.
Proof.
  intros Hin.
  assert (In ts [series "bucket_name" "evidence" "doubleValue"
                        [VFloat (3073 # 2)];
                 series "bucket_name" "scratch" "doubleValue" [VFloat 0];
                 series "bucket_name" "images" "doubleValue"
                        [VFloat 2048]]) as Hts.
  { revert Hin. unfold bucket_sizes.
    rewrite (size_pages_world_of _ _ _ _ _ _ (one_day_before _)).
    cbv beta iota delta [ts_page all_series map concat].
    rewrite lookup_insert, app_nil_r. cbn [from_option id]. tauto. }
  clear Hin. destruct Hts as [<-|[<-|[<-|[]]]].
  - vm_compute. discriminate.
  - intros _. exists 0%Q. split; [vm_compute; reflexivity|reflexivity].
  - vm_compute. discriminate.
Defined.

Lemma scratch_unreported :
  dict_get "scratch" [("evidence", 1536%Z); ("images", 2048%Z)] = None.
Proof.
  apply (StorageSize_empty_bucket_unreported decimal bucket_sizes
           main_project 1 None).
  - vm_compute. reflexivity.
  - exact scratch_is_empty.
Defined.

End MonitoringChecks.
